(** * Vector database backends of the RAG application

    A shallow embedding of [src/backend/vector_database.py]: the FAISS
    backend with its manual id/position bookkeeping and file persistence,
    the ChromaDB adapter, and the manager that selects between them.

    Conventions.
    - FAISS, ChromaDB and the sentence encoder are libraries outside the
      repository.  The encoder and [faiss.normalize_L2] are parameters of
      the development, functions that give a vector for every text; the
      raw index and the Chroma collection are small reference models of
      their documented behaviour.
    - float32 scores are represented by rationals: the properties below
      depend on the order of scores only.
    - A Python exception is an explicit failure value; a [try/except]
      block that returns [False] becomes a pair (state, [false]) whose
      state keeps every mutation performed before the exception.
    - The raw index refuses vectors that are not of its dimension, and a
      write to the file system may raise: both are part of the model,
      the second as a plan of the outcomes of the saves to come. *)

From Stdlib Require Import QArith DecimalString DecimalZ.
From stdpp Require Import gmap strings list fin_maps sorting.

Open Scope Z_scope.
Open Scope string_scope.
Open Scope list_scope.

(** ** Python helpers *)

(** [str(n)] for an integer: the decimal numeral, with a leading minus
    sign for negative numbers. *)
Definition py_str (z : Z) : string := NilEmpty.string_of_int (Z.to_int z).

(** [str.lower()] on the ASCII letters.  No character outside ASCII
    lowers to a letter of ["chroma"] or ["faiss"], so the comparisons of
    [_create_database] come out as in Python for every string. *)
Definition lower_ascii (c : Ascii.ascii) : Ascii.ascii :=
  let n := Ascii.nat_of_ascii c in
  if (Nat.leb 65 n && Nat.leb n 90)%bool then Ascii.ascii_of_nat (n + 32)%nat else c.

Fixpoint lower (s : string) : string :=
  match s with
  | String.EmptyString => String.EmptyString
  | String.String c s' => String.String (lower_ascii c) (lower s')
  end.

(** Truth value of a string: only the empty string is falsy. *)
Definition truthy (s : string) : bool :=
  match s with String.EmptyString => false | _ => true end.

(** Insertion-ordered dictionaries with string keys, as Python's [dict]:
    assigning to an existing key keeps its place, a new key goes last. *)
Module PyDict.
Section Dict.
Context {V : Type}.

Fixpoint get (d : list (string * V)) (k : string) : option V :=
  match d with
  | [] => None
  | (k', v) :: d' => if String.eqb k k' then Some v else get d' k
  end.

Definition contains (d : list (string * V)) (k : string) : bool :=
  match get d k with Some _ => true | None => false end.

Fixpoint set (d : list (string * V)) (k : string) (v : V) : list (string * V) :=
  match d with
  | [] => [(k, v)]
  | (k', v') :: d' =>
      if String.eqb k k' then (k', v) :: d' else (k', v') :: set d' k v
  end.

(** [del d[k]]; the caller has checked that [k] is present. *)
Fixpoint remove (d : list (string * V)) (k : string) : list (string * V) :=
  match d with
  | [] => []
  | (k', v) :: d' => if String.eqb k k' then d' else (k', v) :: remove d' k
  end.

Definition keys (d : list (string * V)) : list string := map fst d.
Definition values (d : list (string * V)) : list V := map snd d.
End Dict.
End PyDict.

(** ** Data model *)

(** Metadata values.  [VNone] is Python's [None], which is also what
    [dict.get] returns for a missing key. *)
Inductive value : Type :=
  | VNone
  | VStr (s : string)
  | VInt (z : Z).

Definition value_eqb (a b : value) : bool :=
  match a, b with
  | VNone, VNone => true
  | VStr s, VStr t => String.eqb s t
  | VInt x, VInt y => Z.eqb x y
  | _, _ => false
  end.

Definition pydict := list (string * value).

(** [d.get(k)] and [d.get(k, default)]. *)
Definition dict_get (d : pydict) (k : string) : value :=
  match PyDict.get d k with Some v => v | None => VNone end.

Definition dict_get_default (d : pydict) (k : string) (default : value) : value :=
  match PyDict.get d k with Some v => v | None => default end.

(** A document as handed to [add_documents]: a dict in which each of the
    keys ["id"], ["content"], ["metadata"] may be missing. *)
Record document : Type := Document {
  doc_id : option string;
  doc_content : option string;
  doc_metadata : option pydict
}.

Record VectorSearchResult : Type := {
  id : string;
  content : string;
  metadata : pydict;
  score : Q;
  document_title : value;
  chunk_index : value
}.

Record VectorDBConfig : Type := {
  db_type : string;
  db_path : string;
  collection_name : string;
  embedding_model : string;
  dimension : Z;
  index_type : string;
  metric : string;
  max_elements : Z
}.

Definition default_config : VectorDBConfig := {|
  db_type := "chroma";
  db_path := "./vector_db";
  collection_name := "rag_documents";
  embedding_model := "sentence-transformers/all-MiniLM-L6-v2";
  dimension := 384;
  index_type := "IndexFlatIP";
  metric := "cosine";
  max_elements := 1000000
|}.

Definition set_db_type (c : VectorDBConfig) (t : string) : VectorDBConfig := {|
  db_type := t;
  db_path := db_path c;
  collection_name := collection_name c;
  embedding_model := embedding_model c;
  dimension := dimension c;
  index_type := index_type c;
  metric := metric c;
  max_elements := max_elements c
|}.

(** ** The raw FAISS index (reference model) *)

Definition vec := list Q.

Fixpoint inner_product (a b : vec) : Q :=
  match a, b with
  | x :: a', y :: b' => (x * y + inner_product a' b')%Q
  | _, _ => 0%Q
  end.

(** [IndexFlatL2] reports squared Euclidean distances. *)
Fixpoint l2_distance (a b : vec) : Q :=
  match a, b with
  | x :: a', y :: b' => ((x - y) * (x - y) + l2_distance a' b')%Q
  | _, _ => 0%Q
  end.

Inductive index_family : Type := IndexFlatIP | IndexFlatL2 | IndexHNSWFlat.

(** An index is created for one dimension ([index.d]), which its file
    keeps. *)
Record raw_index : Type := RawIndex {
  family : index_family;
  dim : Z;
  vectors : list vec
}.

Definition ntotal (ix : raw_index) : Z := Z.of_nat (length (vectors ix)).

(** The dimension test of [index.add] and [index.search]. *)
Definition accepts (ix : raw_index) (v : vec) : bool :=
  Z.eqb (Z.of_nat (length v)) (dim ix).

(** [index.add(x)]: [None] is the exception raised when [x] is not a
    two-dimensional array with [dim] columns.  For an empty batch the
    encoder returns an array without a second axis, which is refused as
    well (for [IndexFlatIP] already by [faiss.normalize_L2]). *)
Definition index_add (ix : raw_index) (vs : list vec) : option raw_index :=
  match vs with
  | [] => None
  | _ :: _ =>
      if forallb (accepts ix) vs
      then Some {| family := family ix; dim := dim ix; vectors := vectors ix ++ vs |}
      else None
  end.

(** What the index reports for one stored vector: the inner product for
    [IndexFlatIP], the distance for the two L2 families. *)
Definition raw_score (f : index_family) (q v : vec) : Q :=
  match f with
  | IndexFlatIP => inner_product q v
  | IndexFlatL2 | IndexHNSWFlat => l2_distance q v
  end.

(** [ranks_before f a b]: a candidate reported with [a] may precede one
    reported with [b]: larger inner product first, smaller distance first. *)
Definition ranks_before (f : index_family) (a b : Q) : bool :=
  match f with
  | IndexFlatIP => Qle_bool b a
  | IndexFlatL2 | IndexHNSWFlat => Qle_bool a b
  end.

Fixpoint rank_insert (f : index_family) (c : Q * Z) (l : list (Q * Z)) : list (Q * Z) :=
  match l with
  | [] => [c]
  | c' :: l' =>
      if ranks_before f (fst c) (fst c') then c :: l
      else c' :: rank_insert f c l'
  end.

Fixpoint rank (f : index_family) (l : list (Q * Z)) : list (Q * Z) :=
  match l with
  | [] => []
  | c :: l' => rank_insert f c (rank f l')
  end.

Fixpoint candidates_from (f : index_family) (q : vec) (pos : Z) (vs : list vec)
  : list (Q * Z) :=
  match vs with
  | [] => []
  | v :: vs' => (raw_score f q v, pos) :: candidates_from f q (pos + 1) vs'
  end.

Definition hit_order (f : index_family) (a b : Q * Z) : Prop :=
  ranks_before f (fst a) (fst b) = true.

(** The answer of [index.search(q, k)] to a query of the index's
    dimension: the [k] best stored vectors as (score, position), best
    first; when fewer than [k] vectors are stored the tail is padded with
    position [-1].  The order among equal scores is the library's own and
    no property below depends on it.  [IndexHNSWFlat] searches a graph and
    may miss neighbours: for that family this is the answer of a search
    that misses none, and the one property below about which documents
    are found excludes the family. *)
Definition index_search (ix : raw_index) (q : vec) (k : nat) : list (Q * Z) :=
  let ranked := rank (family ix) (candidates_from (family ix) q 0 (vectors ix)) in
  take k ranked ++ replicate (k - length ranked) (0%Q, -1).

(** [index.search(q, k)] with its assertions: [None] is the exception
    raised for a query of another dimension and for [k = 0]. *)
Definition checked_search (ix : raw_index) (q : vec) (k : nat)
  : option (list (Q * Z)) :=
  if accepts ix q && negb (Nat.eqb k 0) then Some (index_search ix q k) else None.

(** ** FAISSVectorDB *)

(** One entry of [document_store]. *)
Record stored : Type := Stored {
  st_content : string;
  st_metadata : pydict;
  st_faiss_index : Z
}.

(** The two files of the backend: the serialised raw index and the JSON
    metadata.  The metadata file is written in place: opening it for
    writing truncates it, then the JSON is dumped. *)
Record metadata_json : Type := MetadataJson {
  js_documents : list (string * stored);
  js_id_to_index : gmap string Z;
  js_index_to_id : gmap string string
}.

Inductive metadata_content : Type :=
  | Truncated
  | Json (m : metadata_json).

Record disk : Type := Disk {
  index_file : option raw_index;
  metadata_file : option metadata_content
}.

Inductive fs_step : Type :=
  | WriteIndex (ix : raw_index)
  | OpenTruncate
  | Dump (m : metadata_json).

Definition fs_apply (d : disk) (st : fs_step) : disk :=
  match st with
  | WriteIndex ix => {| index_file := Some ix; metadata_file := metadata_file d |}
  | OpenTruncate => {| index_file := index_file d; metadata_file := Some Truncated |}
  | Dump m => {| index_file := index_file d; metadata_file := Some (Json m) |}
  end.

(** How a save ends: with every write done, or with an exception of
    [faiss.write_index], of [open] or of [json.dump]. *)
Inductive save_outcome : Type :=
  | AllWritten
  | WriteIndexRaises
  | OpenRaises
  | DumpRaises.

(** The in-memory state of the backend, the files found by [__init__],
    the file-system effects performed since, oldest first, and what the
    file system does to the saves to come, the next one first: past the
    end of [io] every write goes through. *)
Record FAISSVectorDB : Type := FaissDB {
  config : VectorDBConfig;
  index : raw_index;
  document_store : list (string * stored);
  id_to_index : gmap string Z;
  index_to_id : gmap string string;
  files : disk;
  writes : list fs_step;
  io : list save_outcome
}.

Definition with_index (s : FAISSVectorDB) (ix : raw_index) : FAISSVectorDB :=
  FaissDB (config s) ix (document_store s) (id_to_index s) (index_to_id s)
    (files s) (writes s) (io s).

Definition with_document_store (s : FAISSVectorDB) (d : list (string * stored))
  : FAISSVectorDB :=
  FaissDB (config s) (index s) d (id_to_index s) (index_to_id s)
    (files s) (writes s) (io s).

Definition with_id_to_index (s : FAISSVectorDB) (m : gmap string Z) : FAISSVectorDB :=
  FaissDB (config s) (index s) (document_store s) m (index_to_id s)
    (files s) (writes s) (io s).

Definition with_index_to_id (s : FAISSVectorDB) (m : gmap string string)
  : FAISSVectorDB :=
  FaissDB (config s) (index s) (document_store s) (id_to_index s) m
    (files s) (writes s) (io s).

Definition with_writes (s : FAISSVectorDB) (w : list fs_step) : FAISSVectorDB :=
  FaissDB (config s) (index s) (document_store s) (id_to_index s) (index_to_id s)
    (files s) w (io s).

Definition with_io (s : FAISSVectorDB) (plan : list save_outcome) : FAISSVectorDB :=
  FaissDB (config s) (index s) (document_store s) (id_to_index s) (index_to_id s)
    (files s) (writes s) plan.

(** [_create_index]: the index family is chosen by name, any unknown name
    gives [IndexFlatIP]; the dimension is the configured one. *)
Definition family_of (index_type : string) : index_family :=
  if String.eqb index_type "IndexFlatIP" then IndexFlatIP
  else if String.eqb index_type "IndexFlatL2" then IndexFlatL2
  else if String.eqb index_type "IndexHNSWFlat" then IndexHNSWFlat
  else IndexFlatIP.

Definition fresh_index (s : FAISSVectorDB) : raw_index :=
  {| family := family_of (index_type (config s));
     dim := dimension (config s);
     vectors := [] |}.

Definition _create_index (s : FAISSVectorDB) : FAISSVectorDB :=
  with_index s (fresh_index s).

(** The file-system effects of a save in which nothing raises. *)
Definition save_steps (s : FAISSVectorDB) : list fs_step :=
  [ WriteIndex (index s);
    OpenTruncate;
    Dump (MetadataJson (document_store s) (id_to_index s) (index_to_id s)) ].

(** The effects that precede the exception.  A call that raises is taken
    to leave its file as it was, except that [json.dump] raises on a file
    that [open] has truncated. *)
Definition steps_written (o : save_outcome) : nat :=
  match o with
  | AllWritten => 3
  | WriteIndexRaises => 0
  | OpenRaises => 1
  | DumpRaises => 2
  end.

Definition next_save (s : FAISSVectorDB) : save_outcome := hd AllWritten (io s).

(** [_save_index]: the body runs inside its own [try/except], which logs
    the exception and returns, so the caller never learns that a write
    failed. *)
Definition _save_index (s : FAISSVectorDB) : FAISSVectorDB :=
  with_io
    (with_writes s (writes s ++ take (steps_written (next_save s)) (save_steps s)))
    (tl (io s)).

(** The files as they are once the first [n] effects have reached the
    disk: what a restart finds after a crash at that point. *)
Definition disk_after (s : FAISSVectorDB) (n : nat) : disk :=
  fold_left fs_apply (take n (writes s)) (files s).

Definition current_disk (s : FAISSVectorDB) : disk :=
  fold_left fs_apply (writes s) (files s).

(** [[doc["content"] for doc in documents]]: [None] is the [KeyError]. *)
Fixpoint texts_of (documents : list document) : option (list string) :=
  match documents with
  | [] => Some []
  | doc :: rest =>
      match doc_content doc with
      | None => None
      | Some t =>
          match texts_of rest with
          | None => None
          | Some ts => Some (t :: ts)
          end
      end
  end.

(** The metadata loop of [add_documents], from position [faiss_index] on.
    The boolean is [false] when [doc["id"]] raised; the state then holds
    what the earlier iterations stored. *)
Fixpoint store_metadata (s : FAISSVectorDB) (faiss_index : Z)
    (documents : list document) : FAISSVectorDB * bool :=
  match documents with
  | [] => (s, true)
  | doc :: rest =>
      match doc_id doc, doc_content doc with
      | Some doc_id, Some text =>
          let entry := {| st_content := text;
                          st_metadata := default [] (doc_metadata doc);
                          st_faiss_index := faiss_index |} in
          let s1 := with_document_store s
                      (PyDict.set (document_store s) doc_id entry) in
          let s2 := with_id_to_index s1 (<[doc_id := faiss_index]> (id_to_index s1)) in
          let s3 := with_index_to_id s2
                      (<[py_str faiss_index := doc_id]> (index_to_id s2)) in
          store_metadata s3 (faiss_index + 1) rest
      | _, _ => (s, false)
      end
  end.

Section Backend.

(** [embedding_model.encode] on one text, and [faiss.normalize_L2] on one
    row. *)
Variable encode : string -> vec.
Variable normalize_L2 : vec -> vec.

Definition embed (s : FAISSVectorDB) (texts : list string) : list vec :=
  let embeddings := map encode texts in
  if String.eqb (index_type (config s)) "IndexFlatIP"
  then map normalize_L2 embeddings
  else embeddings.

(** [add_documents].  The contents are read first, then the batch is
    embedded and handed to [index.add], which may refuse it; only then
    does the metadata loop run.  The encoder is a total function of the
    text. *)
Definition add_documents (s : FAISSVectorDB) (documents : list document)
  : FAISSVectorDB * bool :=
  match texts_of documents with
  | None => (s, false)
  | Some texts =>
      let embeddings := embed s texts in
      let start_index := ntotal (index s) in
      match index_add (index s) embeddings with
      | None => (s, false)
      | Some ix =>
          let s1 := with_index s ix in
          match store_metadata s1 start_index documents with
          | (s2, true) => (_save_index s2, true)
          | (s2, false) => (s2, false)
          end
      end
  end.

(** [if filter_dict:] followed by the [all(...)] test; an absent or empty
    filter lets every document through. *)
Definition passes_filter (filter_dict : option pydict) (metadata : pydict) : bool :=
  match filter_dict with
  | None | Some [] => true
  | Some f => forallb (fun kv => value_eqb (dict_get metadata (fst kv)) (snd kv)) f
  end.

Definition make_result (doc_id : string) (doc_data : stored) (score : Q)
  : VectorSearchResult := {|
  id := doc_id;
  content := st_content doc_data;
  metadata := st_metadata doc_data;
  score := score;
  document_title := dict_get_default (st_metadata doc_data) "title" (VStr "");
  chunk_index := dict_get_default (st_metadata doc_data) "chunk_index" (VInt 0)
|}.

(** The loop of [search] over the (score, position) pairs of the raw
    index: position [-1] ends it, a position without a live document or
    with a document rejected by the filter is passed over. *)
Fixpoint collect_results (s : FAISSVectorDB) (filter_dict : option pydict)
    (hits : list (Q * Z)) : list VectorSearchResult :=
  match hits with
  | [] => []
  | (score, idx) :: rest =>
      if Z.eqb idx (-1) then []
      else
        match index_to_id s !! py_str idx with
        | Some doc_id =>
            if truthy doc_id then
              match PyDict.get (document_store s) doc_id with
              | Some doc_data =>
                  if passes_filter filter_dict (st_metadata doc_data)
                  then make_result doc_id doc_data score
                         :: collect_results s filter_dict rest
                  else collect_results s filter_dict rest
              | None => collect_results s filter_dict rest
              end
            else collect_results s filter_dict rest
        | None => collect_results s filter_dict rest
        end
  end.

Definition query_embedding (s : FAISSVectorDB) (query : string) : vec :=
  if String.eqb (index_type (config s)) "IndexFlatIP"
  then normalize_L2 (encode query)
  else encode query.

(** [search]; an exception of the raw index is turned into the empty
    list. *)
Definition search (s : FAISSVectorDB) (query : string) (top_k : nat)
    (filter_dict : option pydict) : list VectorSearchResult :=
  match checked_search (index s) (query_embedding s query) top_k with
  | Some hits => collect_results s filter_dict hits
  | None => []
  end.

Definition document_of (entry : string * stored) : document :=
  {| doc_id := Some (fst entry);
     doc_content := Some (st_content (snd entry));
     doc_metadata := Some (st_metadata (snd entry)) |}.

(** [_rebuild_index]: the result of the inner [add_documents] is not
    looked at; when it fails the new index stays empty and the mappings
    stay cleared, and nothing is saved. *)
Definition _rebuild_index (s : FAISSVectorDB) : FAISSVectorDB :=
  match document_store s with
  | [] => _save_index (_create_index s)
  | _ :: _ =>
      let s1 := _create_index s in
      let documents := map document_of (document_store s1) in
      let s2 := with_id_to_index s1 ∅ in
      let s3 := with_index_to_id s2 ∅ in
      match documents with
      | [] => s3
      | _ :: _ => fst (add_documents s3 documents)
      end
  end.

(** [delete_document]; each [del] on a mapping raises [KeyError] when
    the key is missing, after the earlier deletions have been done. *)
Definition delete_document (s : FAISSVectorDB) (document_id : string)
  : FAISSVectorDB * bool :=
  match PyDict.get (document_store s) document_id with
  | None => (s, false)
  | Some doc_data =>
      let faiss_index := st_faiss_index doc_data in
      let s1 := with_document_store s
                  (PyDict.remove (document_store s) document_id) in
      match id_to_index s1 !! document_id with
      | None => (s1, false)
      | Some _ =>
          let s2 := with_id_to_index s1 (delete document_id (id_to_index s1)) in
          match index_to_id s2 !! py_str faiss_index with
          | None => (s2, false)
          | Some _ =>
              let s3 := with_index_to_id s2
                          (delete (py_str faiss_index) (index_to_id s2)) in
              (_rebuild_index s3, true)
          end
      end
  end.

End Backend.

(** The state in which [_rebuild_index] starts re-adding the store, and
    the state a successful deletion hands to [_rebuild_index]. *)
Definition rebuild_start (s : FAISSVectorDB) : FAISSVectorDB :=
  with_index_to_id (with_id_to_index (_create_index s) ∅) ∅.

Definition without (s : FAISSVectorDB) (document_id : string) (faiss_index : Z)
  : FAISSVectorDB :=
  with_index_to_id
    (with_id_to_index
       (with_document_store s (PyDict.remove (document_store s) document_id))
       (delete document_id (id_to_index s)))
    (delete (py_str faiss_index) (index_to_id s)).

Record faiss_stats : Type := {
  total_documents : Z;
  stats_db_type : string;
  stats_index_type : string;
  stats_dimension : Z;
  stats_embedding_model : string
}.

Definition get_collection_stats (s : FAISSVectorDB) : faiss_stats := {|
  total_documents := Z.of_nat (length (document_store s));
  stats_db_type := "faiss";
  stats_index_type := index_type (config s);
  stats_dimension := dimension (config s);
  stats_embedding_model := embedding_model (config s)
|}.

Definition clear_collection (s : FAISSVectorDB) : FAISSVectorDB * bool :=
  let s1 := _create_index s in
  let s2 := with_document_store s1 [] in
  let s3 := with_id_to_index s2 ∅ in
  let s4 := with_index_to_id s3 ∅ in
  (_save_index s4, true).

(** [_load_index]: a metadata file that does not parse makes [json.load]
    raise, and the handler starts from a new empty index. *)
Definition _load_index (s : FAISSVectorDB) (ix : raw_index) : FAISSVectorDB :=
  let s1 := with_index s ix in
  match metadata_file (files s1) with
  | None => s1
  | Some Truncated => _create_index s1
  | Some (Json data) =>
      with_index_to_id
        (with_id_to_index
           (with_document_store s1 (js_documents data))
           (js_id_to_index data))
        (js_index_to_id data)
  end.

(** The state built by [__init__] over the files found on disk. *)
Definition _initialize_db (cfg : VectorDBConfig) (d : disk) : FAISSVectorDB :=
  let s := FaissDB cfg {| family := IndexFlatIP; dim := 0; vectors := [] |}
             [] ∅ ∅ d [] [] in
  match index_file d with
  | Some ix => _load_index s ix
  | None => _create_index s
  end.

Definition empty_disk : disk := {| index_file := None; metadata_file := None |}.

(** ** ChromaVectorDB *)

(** Reference model of the external engine: a client holds named
    collections, a collection holds rows addressed by id.  An engine call
    that raises returns [None].  The reference engine creates a
    collection under every name that is free; what a real engine refuses
    besides (a name it does not allow, settings it no longer supports) is
    outside the model. *)
Module Chroma.

Record row : Type := Row {
  row_id : string;
  row_embedding : vec;
  row_document : string;
  row_metadata : option pydict
}.

Definition get_collection (c : gmap string (list row)) (name : string)
  : option (list row) := c !! name.

(** Creating a collection under a name that is taken raises. *)
Definition create_collection (c : gmap string (list row)) (name : string)
  : option (gmap string (list row)) :=
  match c !! name with
  | Some _ => None
  | None => Some (<[name := []]> c)
  end.

(** Deleting a collection that does not exist raises. *)
Definition delete_collection (c : gmap string (list row)) (name : string)
  : option (gmap string (list row)) :=
  match c !! name with
  | Some _ => Some (delete name c)
  | None => None
  end.

(** [collection.delete(ids=[i])] drops the rows with that id; an id
    without rows is not an error. *)
Definition delete_ids (rows : list row) (i : string) : list row :=
  filter (fun r => row_id r ≠ i) rows.

Definition count (rows : list row) : Z := Z.of_nat (length rows).

End Chroma.

Record ChromaVectorDB : Type := ChromaDB {
  c_config : VectorDBConfig;
  client : gmap string (list Chroma.row);
  collection : string
}.

Definition chroma_initialize_db (cfg : VectorDBConfig)
    (c : gmap string (list Chroma.row)) : option ChromaVectorDB :=
  match Chroma.get_collection c (collection_name cfg) with
  | Some _ => Some (ChromaDB cfg c (collection_name cfg))
  | None =>
      match Chroma.create_collection c (collection_name cfg) with
      | Some c' => Some (ChromaDB cfg c' (collection_name cfg))
      | None => None
      end
  end.

Definition chroma_delete_document (s : ChromaVectorDB) (document_id : string)
  : ChromaVectorDB * bool :=
  match client s !! collection s with
  | Some rows =>
      (ChromaDB (c_config s)
         (<[collection s := Chroma.delete_ids rows document_id]> (client s))
         (collection s),
       true)
  | None => (s, false)
  end.

Record chroma_stats : Type := {
  c_total_documents : Z;
  c_db_type : string;
  c_collection_name : string;
  c_embedding_model : string
}.

(** [None] is the empty dict returned when counting raises. *)
Definition chroma_get_collection_stats (s : ChromaVectorDB) : option chroma_stats :=
  match client s !! collection s with
  | Some rows =>
      Some {| c_total_documents := Chroma.count rows;
              c_db_type := "chroma";
              c_collection_name := collection_name (c_config s);
              c_embedding_model := embedding_model (c_config s) |}
  | None => None
  end.

Definition chroma_clear_collection (s : ChromaVectorDB) : ChromaVectorDB * bool :=
  match Chroma.delete_collection (client s) (collection_name (c_config s)) with
  | None => (s, false)
  | Some c1 =>
      match Chroma.create_collection c1 (collection_name (c_config s)) with
      | None => (ChromaDB (c_config s) c1 (collection s), false)
      | Some c2 => (ChromaDB (c_config s) c2 (collection_name (c_config s)), true)
      end
  end.

(** [x or {}] on a metadata entry of the engine's answer. *)
Definition or_empty (m : option pydict) : pydict := default [] m.

Definition metadata_truthy (m : option pydict) : bool :=
  match m with Some (_ :: _) => true | _ => false end.

Definition chroma_result (hit : Chroma.row * Q) : VectorSearchResult :=
  let m := Chroma.row_metadata (fst hit) in {|
    id := Chroma.row_id (fst hit);
    content := Chroma.row_document (fst hit);
    metadata := or_empty m;
    score := (1 - snd hit)%Q;
    document_title :=
      if metadata_truthy m then dict_get_default (or_empty m) "title" (VStr "")
      else VStr "";
    chunk_index :=
      if metadata_truthy m then dict_get_default (or_empty m) "chunk_index" (VInt 0)
      else VInt 0
  |}.

Section ChromaSearch.

Variable encode : string -> vec.

(** [collection.query]: the rows found with their distances, nearest
    first; [None] when the engine raises. *)
Variable query :
  list Chroma.row -> vec -> nat -> option pydict -> option (list (Chroma.row * Q)).

Definition chroma_search (s : ChromaVectorDB) (text : string) (top_k : nat)
    (filter_dict : option pydict) : list VectorSearchResult :=
  match client s !! collection s with
  | None => []
  | Some rows =>
      match query rows (encode text) top_k filter_dict with
      | None => []
      | Some hits => map chroma_result hits
      end
  end.

End ChromaSearch.

(** ** VectorDatabaseManager *)

Record environment : Type := {
  CHROMA_AVAILABLE : bool;
  FAISS_AVAILABLE : bool;
  SENTENCE_TRANSFORMERS_AVAILABLE : bool
}.

Inductive exception : Type :=
  | ImportError (msg : string)
  | ValueError (msg : string)
  | EngineError.

Inductive outcome (A : Type) : Type :=
  | Returns (a : A)
  | Raises (e : exception).
Arguments Returns {A} a.
Arguments Raises {A} e.

Inductive backend : Type :=
  | ChromaBackend (db : ChromaVectorDB)
  | FaissBackend (db : FAISSVectorDB).

(** What the process finds outside itself: the FAISS files and the
    collections of the Chroma client. *)
Record world : Type := {
  w_disk : disk;
  w_client : gmap string (list Chroma.row)
}.

Definition new_FAISSVectorDB (env : environment) (w : world) (cfg : VectorDBConfig)
  : outcome FAISSVectorDB :=
  if negb (FAISS_AVAILABLE env)
  then Raises (ImportError "FAISS not available. Install with: pip install faiss-cpu")
  else if negb (SENTENCE_TRANSFORMERS_AVAILABLE env)
  then Raises (ImportError "SentenceTransformers not available")
  else Returns (_initialize_db cfg (w_disk w)).

Definition new_ChromaVectorDB (env : environment) (w : world) (cfg : VectorDBConfig)
  : outcome ChromaVectorDB :=
  if negb (CHROMA_AVAILABLE env)
  then Raises (ImportError "ChromaDB not available. Install with: pip install chromadb")
  else if negb (SENTENCE_TRANSFORMERS_AVAILABLE env)
  then Raises (ImportError "SentenceTransformers not available")
  else match chroma_initialize_db cfg (w_client w) with
       | Some db => Returns db
       | None => Raises EngineError
       end.

Definition as_faiss (o : outcome FAISSVectorDB) : outcome backend :=
  match o with Returns db => Returns (FaissBackend db) | Raises e => Raises e end.

Definition as_chroma (o : outcome ChromaVectorDB) : outcome backend :=
  match o with Returns db => Returns (ChromaBackend db) | Raises e => Raises e end.

(** [_create_database]: the configuration is a shared object, so the
    assignment to [config.db_type] is returned next to the outcome and
    survives an exception raised after it. *)
Definition _create_database (env : environment) (w : world) (cfg : VectorDBConfig)
  : VectorDBConfig * outcome backend :=
  if String.eqb (lower (db_type cfg)) "chroma" then
    if negb (CHROMA_AVAILABLE env) then
      let cfg' := set_db_type cfg "faiss" in
      (cfg', as_faiss (new_FAISSVectorDB env w cfg'))
    else (cfg, as_chroma (new_ChromaVectorDB env w cfg))
  else if String.eqb (lower (db_type cfg)) "faiss" then
    if negb (FAISS_AVAILABLE env) then
      let cfg' := set_db_type cfg "chroma" in
      (cfg', as_chroma (new_ChromaVectorDB env w cfg'))
    else (cfg, as_faiss (new_FAISSVectorDB env w cfg))
  else (cfg, Raises (ValueError ("Unsupported database type: " +:+ db_type cfg))).

Record VectorDatabaseManager : Type := Manager {
  m_config : VectorDBConfig;
  db : backend
}.

(** [VectorDatabaseManager(config)]. *)
Definition new_manager (env : environment) (w : world) (cfg : VectorDBConfig)
  : VectorDBConfig * outcome VectorDatabaseManager :=
  match _create_database env w cfg with
  | (cfg', Returns b) => (cfg', Returns (Manager cfg' b))
  | (cfg', Raises e) => (cfg', Raises e)
  end.

Definition backend_kind (b : backend) : string :=
  match b with ChromaBackend _ => "chroma" | FaissBackend _ => "faiss" end.

Definition backend_available (env : environment) (b : backend) : bool :=
  match b with
  | ChromaBackend _ => CHROMA_AVAILABLE env
  | FaissBackend _ => FAISS_AVAILABLE env
  end.

(** ** Sequences of calls and invariants *)

Inductive call : Type :=
  | AddDocuments (documents : list document)
  | DeleteDocument (document_id : string)
  | ClearCollection.

(** The ids under which the metadata loop of [add_documents] stores: those
    of the documents before the first one that lacks a key. *)
Fixpoint stored_ids (documents : list document) : list string :=
  match documents with
  | [] => []
  | doc :: rest =>
      match doc_id doc, doc_content doc with
      | Some i, Some _ => i :: stored_ids rest
      | _, _ => []
      end
  end.

(** The two mappings are inverse to each other, up to [py_str]; they pair
    exactly the ids of [live] with positions below [bound]; each has as
    many entries as [live]. *)
Record paired (m1 : gmap string Z) (m2 : gmap string string)
    (bound : Z) (live : list string) : Prop := {
  paired_inverse : forall i p, m1 !! i = Some p <-> m2 !! py_str p = Some i;
  paired_below : forall k, is_Some (m2 !! k) -> exists p, k = py_str p /\ 0 <= p < bound;
  paired_live : forall i, is_Some (m1 !! i) <-> i ∈ live;
  paired_size_id : size m1 = length live;
  paired_size_index : size m2 = length live
}.

(** The bijection between the ids of the live documents and their
    positions in the raw index. *)
Definition bijection (s : FAISSVectorDB) : Prop :=
  paired (id_to_index s) (index_to_id s) (ntotal (index s))
    (PyDict.keys (document_store s)).

(** A call that records documents records them under ids that are new and
    pairwise different. *)
Definition brings_new_ids (s : FAISSVectorDB) (c : call) : Prop :=
  match c with
  | AddDocuments documents =>
      NoDup (stored_ids documents) /\
      forall i, i ∈ stored_ids documents -> i ∉ PyDict.keys (document_store s)
  | _ => True
  end.

Section Runs.

Variable encode : string -> vec.
Variable normalize_L2 : vec -> vec.

Definition perform (s : FAISSVectorDB) (c : call) : FAISSVectorDB :=
  match c with
  | AddDocuments documents => fst (add_documents encode normalize_L2 s documents)
  | DeleteDocument document_id => fst (delete_document encode normalize_L2 s document_id)
  | ClearCollection => fst (clear_collection s)
  end.

Definition run (s : FAISSVectorDB) (calls : list call) : FAISSVectorDB :=
  fold_left perform calls s.

(** Every call of the run finds the ids of its new documents unused. *)
Fixpoint new_ids_throughout (s : FAISSVectorDB) (calls : list call) : Prop :=
  match calls with
  | [] => True
  | c :: rest => brings_new_ids s c /\ new_ids_throughout (perform s c) rest
  end.

(** The states of operation under one configuration, without a crash
    and without a write that raises: a new directory, any call, and a
    restart over the files written so far. *)
Inductive reachable : FAISSVectorDB -> Prop :=
  | reach_new cfg : reachable (_initialize_db cfg empty_disk)
  | reach_call s c : reachable s -> reachable (perform s c)
  | reach_restart s : reachable s -> reachable (_initialize_db (config s) (current_disk s)).

(** The boolean the call returns. *)
Definition succeeds (s : FAISSVectorDB) (c : call) : bool :=
  match c with
  | AddDocuments documents => snd (add_documents encode normalize_L2 s documents)
  | DeleteDocument document_id => snd (delete_document encode normalize_L2 s document_id)
  | ClearCollection => snd (clear_collection s)
  end.

End Runs.

(** Every stored document is reachable through both mappings, at a
    position below [bound]. *)
Definition entries_ok (s : FAISSVectorDB) (bound : Z) : Prop :=
  forall i d, PyDict.get (document_store s) i = Some d ->
    id_to_index s !! i = Some (st_faiss_index d) /\
    index_to_id s !! py_str (st_faiss_index d) = Some i /\
    0 <= st_faiss_index d < bound.

(** The raw index holds every position the metadata refers to. *)
Definition covers (ix : raw_index) (m : metadata_json) : Prop :=
  Forall (fun e => 0 <= st_faiss_index (snd e) < ntotal ix) (js_documents m).

(** What a restart may rely on: a metadata file that is present and
    parses refers only to positions held by the index file. *)
Definition recoverable (d : disk) : Prop :=
  match metadata_file d with
  | Some (Json m) =>
      match index_file d with
      | Some ix => covers ix m
      | None => js_documents m = []
      end
  | _ => True
  end.

(** Two states that differ at most in what lies outside the process: the
    files found, the writes performed and the plan of the file system. *)
Definition same_memory (s1 s2 : FAISSVectorDB) : Prop :=
  config s1 = config s2 /\ index s1 = index s2 /\
  document_store s1 = document_store s2 /\
  id_to_index s1 = id_to_index s2 /\ index_to_id s1 = index_to_id s2.

(** The metadata file, when it parses, refers only to positions that the
    raw index in memory holds. *)
Definition disk_covered (s : FAISSVectorDB) : Prop :=
  match metadata_file (current_disk s) with
  | Some (Json m) => covers (index s) m
  | _ => True
  end.

(** The invariant of the state in memory: ids are stored once, and every
    stored document is found through both mappings at a position the raw
    index holds. *)
Record wf (s : FAISSVectorDB) : Prop := {
  wf_keys : NoDup (PyDict.keys (document_store s));
  wf_entries : entries_ok s (ntotal (index s))
}.

(** A document carrying both required keys. *)
Definition complete (d : document) : Prop :=
  is_Some (doc_id d) /\ is_Some (doc_content d).

(** What is stored of a document apart from its position. *)
Definition payload (e : string * stored) : string * string * pydict :=
  (fst e, st_content (snd e), st_metadata (snd e)).

Definition scores_descending (rs : list VectorSearchResult) : Prop :=
  StronglySorted (fun a b => (score b <= score a)%Q) rs.

(** The Chroma collection named in the configuration exists and is the
    one the adapter holds, as after [__init__]. *)
Definition chroma_ready (s : ChromaVectorDB) : Prop :=
  collection s = collection_name (c_config s) /\
  is_Some (client s !! collection_name (c_config s)).

(** ** Further operations of the module *)

(** The vector stored for a text, and the vector a query is searched
    with: normalised exactly when the configured index type is the string
    ["IndexFlatIP"]. *)
Definition prepare (normalize_L2 : vec -> vec) (s : FAISSVectorDB) (v : vec) : vec :=
  if String.eqb (index_type (config s)) "IndexFlatIP" then normalize_L2 v else v.

(** Every stored document sits in the raw index, at its position, as the
    embedding of its content. *)
Definition aligned (encode : string -> vec) (normalize_L2 : vec -> vec)
    (s : FAISSVectorDB) : Prop :=
  forall i d, PyDict.get (document_store s) i = Some d ->
    vectors (index s) !! Z.to_nat (st_faiss_index d)
      = Some (prepare normalize_L2 s (encode (st_content d))).

(** The hits that reach the loop of [search]: the first [k] of the ranked
    candidates. *)
Definition ranked_hits (ix : raw_index) (q : vec) (k : nat) : list (Q * Z) :=
  take k (rank (family ix) (candidates_from (family ix) q 0 (vectors ix))).

(** Every stored content embeds to a vector of the configured dimension:
    what the re-insertion of [_rebuild_index] needs. *)
Definition store_fits (encode : string -> vec) (normalize_L2 : vec -> vec)
    (s : FAISSVectorDB) : Prop :=
  Forall (fun e => Z.of_nat (length (prepare normalize_L2 s (encode (st_content (snd e)))))
                   = dimension (config s))
    (document_store s).

(** The raw index has the configured dimension, and so have the
    embeddings of the stored contents. *)
Definition fitting (encode : string -> vec) (normalize_L2 : vec -> vec)
    (s : FAISSVectorDB) : Prop :=
  dim (index s) = dimension (config s) /\ store_fits encode normalize_L2 s.

(** [[doc["id"] for doc in documents]]: [None] is the [KeyError]. *)
Fixpoint ids_of (documents : list document) : option (list string) :=
  match documents with
  | [] => Some []
  | doc :: rest =>
      match doc_id doc with
      | None => None
      | Some i =>
          match ids_of rest with
          | None => None
          | Some l => Some (i :: l)
          end
      end
  end.

(** The rows handed to [collection.add], one per id. *)
Fixpoint make_rows (ids : list string) (embeddings : list vec)
    (texts : list string) (metadatas : list pydict) : list Chroma.row :=
  match ids, embeddings, texts, metadatas with
  | i :: ids', e :: embeddings', t :: texts', m :: metadatas' =>
      Chroma.Row i e t (Some m) :: make_rows ids' embeddings' texts' metadatas'
  | _, _, _, _ => []
  end.

Section ChromaAdd.

Variable encode : string -> vec.

(** [collection.add]: the rows of the collection after the call, [None]
    when the engine raises (what it rejects depends on its version). *)
Variable engine_add : list Chroma.row -> list Chroma.row -> option (list Chroma.row).

(** [ChromaVectorDB.add_documents]: the three comprehensions run before
    the engine is called. *)
Definition chroma_add_documents (s : ChromaVectorDB) (documents : list document)
  : ChromaVectorDB * bool :=
  match texts_of documents with
  | None => (s, false)
  | Some texts =>
      let metadatas := map (fun doc => default [] (doc_metadata doc)) documents in
      match ids_of documents with
      | None => (s, false)
      | Some ids =>
          let embeddings := map encode texts in
          match client s !! collection s with
          | None => (s, false)
          | Some rows =>
              match engine_add rows (make_rows ids embeddings texts metadatas) with
              | None => (s, false)
              | Some rows' =>
                  (ChromaDB (c_config s) (<[collection s := rows']> (client s))
                     (collection s), true)
              end
          end
      end
  end.

End ChromaAdd.

(** The configuration is one object shared by the manager and its
    backend: an assignment to [config.db_type] shows in both. *)
Definition with_config (s : FAISSVectorDB) (cfg : VectorDBConfig) : FAISSVectorDB :=
  FaissDB cfg (index s) (document_store s) (id_to_index s) (index_to_id s)
    (files s) (writes s) (io s).

Definition share_config (b : backend) (cfg : VectorDBConfig) : backend :=
  match b with
  | ChromaBackend db => ChromaBackend (ChromaDB cfg (client db) (collection db))
  | FaissBackend db => FaissBackend (with_config db cfg)
  end.

(** [switch_database], over the files and collections [w] found when the
    call is made.  [config.db_type] is assigned before the new backend is
    built, and a failure to build it leaves [self.db] as it is. *)
Definition switch_database (env : environment) (w : world)
    (m : VectorDatabaseManager) (new_db_type : string)
  : VectorDatabaseManager * bool :=
  match _create_database env w (set_db_type (m_config m) new_db_type) with
  | (cfg, Returns new_db) => (Manager cfg new_db, true)
  | (cfg, Raises _) => (Manager cfg (share_config (db m) cfg), false)
  end.

(** What the active backend has persisted, seen as the world a backend
    built next would find. *)
Definition world_after (w : world) (b : backend) : world :=
  match b with
  | ChromaBackend db => {| w_disk := w_disk w; w_client := client db |}
  | FaissBackend db => {| w_disk := current_disk db; w_client := w_client w |}
  end.

(** One entry of the table of [benchmark_databases]: the timings, or the
    exception caught ([ZeroDivision] is the average over no query). *)
Inductive benchmark_failure : Type :=
  | Raised (e : exception)
  | ZeroDivision.

Inductive benchmark_entry : Type :=
  | Timings (insert_time avg_search_time : Q) (total : Z)
  | Failure (e : benchmark_failure).

Definition test_config (kind : string) : VectorDBConfig := {|
  db_type := kind;
  db_path := "./test_db_" +:+ kind;
  collection_name := "test_" +:+ kind;
  embedding_model := embedding_model default_config;
  dimension := dimension default_config;
  index_type := index_type default_config;
  metric := metric default_config;
  max_elements := max_elements default_config
|}.

Section Benchmark.

(** Clock readings: the time the insertion took and the time each query
    took. *)
Variable insert_time : Q.
Variable search_time : string -> Q.

Definition mean (times : list Q) : option Q :=
  match times with
  | [] => None
  | _ :: _ => Some (fold_right Qplus 0%Q times / inject_Z (Z.of_nat (length times)))%Q
  end.

(** The body of the [try] for one backend kind.  [add_documents],
    [search] and [clear_collection] catch their own exceptions and their
    results are not used, so only the constructor and the average decide
    the entry. *)
Definition benchmark_one (env : environment) (w : world) (kind : string)
    (test_documents : list document) (test_queries : list string) : benchmark_entry :=
  let built :=
    if String.eqb kind "chroma"
    then as_chroma (new_ChromaVectorDB env w (test_config kind))
    else as_faiss (new_FAISSVectorDB env w (test_config kind)) in
  match built with
  | Raises e => Failure (Raised e)
  | Returns _ =>
      match mean (map search_time test_queries) with
      | None => Failure ZeroDivision
      | Some avg => Timings insert_time avg (Z.of_nat (length test_documents))
      end
  end.

Definition kind_available (env : environment) (kind : string) : bool :=
  negb ((String.eqb kind "chroma" && negb (CHROMA_AVAILABLE env))
        || (String.eqb kind "faiss" && negb (FAISS_AVAILABLE env))).

Definition benchmark_databases (env : environment) (w : world)
    (test_documents : list document) (test_queries : list string)
  : list (string * benchmark_entry) :=
  map (fun kind => (kind, benchmark_one env w kind test_documents test_queries))
    (List.filter (kind_available env) ["chroma"; "faiss"]).

End Benchmark.

(** ** Concrete instances used in the examples *)

Module Demo.

(** An encoder onto unit vectors of dimension 4; normalisation leaves
    unit vectors as they are. *)
(** An encoder of the default dimension, 384: the texts ["a"] and ["b"]
    go to the first two axes, every other text to the third. *)
Definition axis (k : nat) : vec :=
  replicate k 0%Q ++ [1%Q] ++ replicate (383 - k) 0%Q.

Definition encode (t : string) : vec :=
  if String.eqb t "a" then axis 0
  else if String.eqb t "b" then axis 1
  else axis 2.

Definition normalize_L2 (v : vec) : vec := v.

Definition with_index_type (c : VectorDBConfig) (t : string) : VectorDBConfig := {|
  db_type := db_type c;
  db_path := db_path c;
  collection_name := collection_name c;
  embedding_model := embedding_model c;
  dimension := dimension c;
  index_type := t;
  metric := metric c;
  max_elements := max_elements c
|}.

Definition faiss_config : VectorDBConfig := set_db_type default_config "faiss".
Definition l2_config : VectorDBConfig := with_index_type faiss_config "IndexFlatL2".

Definition fresh : FAISSVectorDB := _initialize_db faiss_config empty_disk.
Definition fresh_l2 : FAISSVectorDB := _initialize_db l2_config empty_disk.

Definition doc (i text : string) : document :=
  {| doc_id := Some i; doc_content := Some text; doc_metadata := None |}.

Definition tagged (i text tag : string) : document :=
  {| doc_id := Some i; doc_content := Some text;
     doc_metadata := Some [("tag", VStr tag)] |}.

Definition without_id (text : string) : document :=
  {| doc_id := None; doc_content := Some text; doc_metadata := None |}.

Definition without_content (i : string) : document :=
  {| doc_id := Some i; doc_content := None; doc_metadata := None |}.

Definition all_available : environment :=
  {| CHROMA_AVAILABLE := true; FAISS_AVAILABLE := true;
     SENTENCE_TRANSFORMERS_AVAILABLE := true |}.

Definition no_chroma : environment :=
  {| CHROMA_AVAILABLE := false; FAISS_AVAILABLE := true;
     SENTENCE_TRANSFORMERS_AVAILABLE := true |}.

Definition no_faiss : environment :=
  {| CHROMA_AVAILABLE := true; FAISS_AVAILABLE := false;
     SENTENCE_TRANSFORMERS_AVAILABLE := true |}.

Definition empty_world : world := {| w_disk := empty_disk; w_client := ∅ |}.

Definition milvus_config : VectorDBConfig := set_db_type default_config "milvus".

Definition chroma_two : ChromaVectorDB :=
  ChromaDB default_config
    {[ "rag_documents" :=
         [ Chroma.Row "doc1" (axis 0) "a" None;
           Chroma.Row "doc2" (axis 1) "b" None ] ]}
    "rag_documents".

Definition two_docs : FAISSVectorDB :=
  fst (add_documents encode normalize_L2 fresh [doc "doc1" "a"; doc "doc2" "b"]).

Definition first_hit : VectorSearchResult := {|
  id := "doc1"; content := "a"; metadata := []; score := 1%Q;
  document_title := VStr ""; chunk_index := VInt 0 |}.

Definition tagged_hit : VectorSearchResult := {|
  id := "A"; content := "a"; metadata := [("tag", VStr "x")]; score := 1%Q;
  document_title := VStr ""; chunk_index := VInt 0 |}.

Definition after_delete : FAISSVectorDB :=
  run encode normalize_L2 fresh
    [ AddDocuments [doc "doc1" "a"; doc "doc2" "b"]; DeleteDocument "doc1" ].

End Demo.

(** The scenario of the filter: A and C tagged [x], B tagged [y], in a new
    collection with the default inner-product index. *)
Definition three_tagged (encode : string -> vec) (normalize_L2 : vec -> vec)
    (ta tb tc : string) : FAISSVectorDB :=
  fst (add_documents encode normalize_L2 Demo.fresh
         [Demo.tagged "A" ta "x"; Demo.tagged "B" tb "y"; Demo.tagged "C" tc "x"]).

(** Engine stand-ins and a manager for the examples of the Chroma
    adapter and of [switch_database]. *)
Module Scenario.
Definition nearest (rows : list Chroma.row) (v : vec) (k : nat) (f : option pydict)
  : option (list (Chroma.row * Q)) :=
  Some (take k (map (fun r => (r, l2_distance v (Chroma.row_embedding r))) rows)).

Definition append_rows (rows new : list Chroma.row) : option (list Chroma.row) :=
  Some (rows ++ new).

Definition one_call : list call := [AddDocuments [Demo.doc "doc1" "a"; Demo.doc "doc2" "b"]].

Definition faiss_manager : VectorDatabaseManager :=
  Manager Demo.faiss_config (FaissBackend Demo.two_docs).

(** The files of [Demo.two_docs] opened again under a configuration whose
    dimension is not the encoder's. *)
Definition narrow_config : VectorDBConfig := {|
  db_type := db_type Demo.faiss_config;
  db_path := db_path Demo.faiss_config;
  collection_name := collection_name Demo.faiss_config;
  embedding_model := embedding_model Demo.faiss_config;
  dimension := 4;
  index_type := index_type Demo.faiss_config;
  metric := metric Demo.faiss_config;
  max_elements := max_elements Demo.faiss_config
|}.

Definition reopened : FAISSVectorDB :=
  _initialize_db narrow_config (current_disk Demo.two_docs).
End Scenario.

(** * Properties *)

(** ** Python helpers *)

Lemma py_str_inj (a b : Z) : py_str a = py_str b -> a = b.
Proof.
  unfold py_str. intros H.
  apply DecimalZ.to_int_inj.
  assert (Hs : Some (Z.to_int a) = Some (Z.to_int b)).
  { rewrite <- (NilEmpty.isi (Z.to_int a)), <- (NilEmpty.isi (Z.to_int b)).
    now rewrite H. }
  now injection Hs.
Qed.

Lemma value_eqb_eq (a b : value) : value_eqb a b = true <-> a = b.
Proof.
  destruct a, b; simpl; split; intros H; try congruence; try discriminate.
  - apply String.eqb_eq in H. now subst.
  - injection H as ->. apply String.eqb_refl.
  - apply Z.eqb_eq in H. now subst.
  - injection H as ->. apply Z.eqb_refl.
Qed.

Module PyDictFacts.
Section Facts.
Context {V : Type}.
Implicit Types (d : list (string * V)) (k : string) (v : V).

Lemma get_set_eq d k v : PyDict.get (PyDict.set d k v) k = Some v.
Proof.
  induction d as [|[k' v'] d IH]; simpl.
  - now rewrite String.eqb_refl.
  - destruct (String.eqb k k') eqn:E; simpl; rewrite E; auto.
Qed.

Lemma get_set_ne d k k' v :
  k <> k' -> PyDict.get (PyDict.set d k v) k' = PyDict.get d k'.
Proof.
  intros Hne. induction d as [|[k0 v0] d IH]; simpl.
  - destruct (String.eqb k' k) eqn:E; auto.
    apply String.eqb_eq in E. congruence.
  - destruct (String.eqb k k0) eqn:E; simpl.
    + apply String.eqb_eq in E. subst k0.
      destruct (String.eqb k' k) eqn:E'; auto.
      apply String.eqb_eq in E'. congruence.
    + destruct (String.eqb k' k0); auto.
Qed.

Lemma get_Some_keys d k v : PyDict.get d k = Some v -> k ∈ PyDict.keys d.
Proof.
  induction d as [|[k' v'] d IH]; simpl; [discriminate|].
  destruct (String.eqb k k') eqn:E.
  - apply String.eqb_eq in E. subst. intros _. left.
  - intros H. right. auto.
Qed.

Lemma get_None_keys d k : PyDict.get d k = None <-> k ∉ PyDict.keys d.
Proof.
  induction d as [|[k' v'] d IH]; simpl.
  - split; [intros _; apply not_elem_of_nil | auto].
  - rewrite not_elem_of_cons. destruct (String.eqb k k') eqn:E.
    + apply String.eqb_eq in E. subst. split; [discriminate | tauto].
    + apply String.eqb_neq in E. rewrite IH. tauto.
Qed.

Lemma get_Some_elem d k v : PyDict.get d k = Some v -> (k, v) ∈ d.
Proof.
  induction d as [|[k' v'] d IH]; simpl; [discriminate|].
  destruct (String.eqb k k') eqn:E.
  - apply String.eqb_eq in E. subst. intros [= ->]. left.
  - intros H. right. auto.
Qed.

Lemma keys_set_present d k v :
  k ∈ PyDict.keys d -> PyDict.keys (PyDict.set d k v) = PyDict.keys d.
Proof.
  induction d as [|[k' v'] d IH]; simpl.
  - intros H. now apply elem_of_nil in H.
  - intros H. destruct (String.eqb k k') eqn:E; simpl; [reflexivity|].
    apply String.eqb_neq in E. apply elem_of_cons in H as [H|H]; [congruence|].
    f_equal. now apply IH.
Qed.

Lemma keys_set_absent d k v :
  k ∉ PyDict.keys d -> PyDict.keys (PyDict.set d k v) = PyDict.keys d ++ [k].
Proof.
  induction d as [|[k' v'] d IH]; simpl; [reflexivity|].
  rewrite not_elem_of_cons. intros [Hne H].
  destruct (String.eqb k k') eqn:E.
  - apply String.eqb_eq in E. congruence.
  - simpl. f_equal. now apply IH.
Qed.

Lemma NoDup_keys_set d k v :
  NoDup (PyDict.keys d) -> NoDup (PyDict.keys (PyDict.set d k v)).
Proof.
  intros H. destruct (decide (k ∈ PyDict.keys d)) as [Hin|Hout].
  - now rewrite keys_set_present.
  - rewrite keys_set_absent by assumption.
    apply NoDup_app. split; [assumption|]. split.
    + intros x Hx Hk. apply list_elem_of_singleton in Hk. now subst.
    + apply NoDup_singleton.
Qed.

Lemma length_set_present d k v :
  k ∈ PyDict.keys d -> length (PyDict.set d k v) = length d.
Proof.
  intros H. pose proof (keys_set_present d k v H) as E.
  apply (f_equal length) in E. unfold PyDict.keys in E.
  now rewrite !length_map in E.
Qed.

Lemma length_set_absent d k v :
  k ∉ PyDict.keys d -> length (PyDict.set d k v) = S (length d).
Proof.
  intros H. pose proof (keys_set_absent d k v H) as E.
  apply (f_equal length) in E. unfold PyDict.keys in E.
  rewrite length_app, !length_map in E. simpl in E. lia.
Qed.

Lemma keys_remove_subset d k x :
  x ∈ PyDict.keys (PyDict.remove d k) -> x ∈ PyDict.keys d.
Proof.
  induction d as [|[k' v'] d IH]; simpl; [auto|].
  destruct (String.eqb k k'); simpl.
  - intros H. now right.
  - intros H. apply elem_of_cons in H as [->|H]; [left | right; auto].
Qed.

Lemma NoDup_keys_remove d k :
  NoDup (PyDict.keys d) -> NoDup (PyDict.keys (PyDict.remove d k)).
Proof.
  induction d as [|[k' v'] d IH]; simpl; [auto|].
  intros H. apply NoDup_cons in H as [Hk H].
  destruct (String.eqb k k'); simpl; [assumption|].
  apply NoDup_cons. split; [|auto].
  intros Hin. apply Hk. eapply keys_remove_subset. eassumption.
Qed.

Lemma get_remove_eq d k :
  NoDup (PyDict.keys d) -> PyDict.get (PyDict.remove d k) k = None.
Proof.
  induction d as [|[k' v'] d IH]; simpl; [auto|].
  intros H. apply NoDup_cons in H as [Hk H].
  destruct (String.eqb k k') eqn:E; simpl.
  - apply String.eqb_eq in E. subst. now apply get_None_keys.
  - rewrite E. auto.
Qed.

Lemma get_remove_ne d k k' :
  k <> k' -> PyDict.get (PyDict.remove d k) k' = PyDict.get d k'.
Proof.
  intros Hne. induction d as [|[k0 v0] d IH]; simpl; [auto|].
  destruct (String.eqb k k0) eqn:E; simpl.
  - apply String.eqb_eq in E. subst k0.
    destruct (String.eqb k' k) eqn:E'; auto.
    apply String.eqb_eq in E'. congruence.
  - destruct (String.eqb k' k0); auto.
Qed.

Lemma length_remove d k v :
  PyDict.get d k = Some v -> S (length (PyDict.remove d k)) = length d.
Proof.
  induction d as [|[k' v'] d IH]; simpl; [discriminate|].
  destruct (String.eqb k k'); simpl; [reflexivity|].
  intros H. f_equal. auto.
Qed.

End Facts.
End PyDictFacts.
Import PyDictFacts.

(** ** The metadata loop and the invariant *)

Lemma texts_of_length docs texts :
  texts_of docs = Some texts -> length texts = length docs.
Proof.
  revert texts. induction docs as [|d docs IH]; simpl; intros texts H.
  - now injection H as <-.
  - destruct (doc_content d); [|discriminate].
    destruct (texts_of docs) as [ts|]; [|discriminate].
    injection H as <-. simpl. f_equal. now apply IH.
Qed.

Lemma texts_of_None docs :
  texts_of docs = None <-> Exists (fun d => doc_content d = None) docs.
Proof.
  induction docs as [|d docs IH]; simpl.
  - split; [discriminate | intros H; inversion H].
  - rewrite Exists_cons. destruct (doc_content d) as [t|].
    + destruct (texts_of docs) as [ts|].
      * split; [discriminate|]. intros [H|H]; [discriminate|].
        apply IH in H. discriminate.
      * split; [|reflexivity]. intros _. right. now apply IH.
    + split; [|reflexivity]. intros _. now left.
Qed.

Lemma texts_of_complete docs :
  Forall complete docs -> exists texts, texts_of docs = Some texts.
Proof.
  induction 1 as [|d docs [_ [t Ht]] _ [ts IH]]; simpl.
  - now exists [].
  - rewrite Ht, IH. now eexists.
Qed.

Lemma store_metadata_frame s n docs :
  index (fst (store_metadata s n docs)) = index s /\
  config (fst (store_metadata s n docs)) = config s /\
  files (fst (store_metadata s n docs)) = files s /\
  writes (fst (store_metadata s n docs)) = writes s.
Proof.
  revert s n. induction docs as [|d docs IH]; intros s n; simpl; [auto|].
  destruct (doc_id d) as [i|]; [|simpl; auto].
  destruct (doc_content d) as [t|]; [|simpl; auto].
  match goal with |- context [store_metadata ?s' ?n' docs] =>
    destruct (IH s' n') as (H1 & H2 & H3 & H4) end.
  rewrite H1, H2, H3, H4. simpl. auto.
Qed.

Lemma entries_ok_mono s n m : n <= m -> entries_ok s n -> entries_ok s m.
Proof.
  intros Hle H i d Hg. destruct (H i d Hg) as (? & ? & ?). repeat split; auto; lia.
Qed.

Lemma store_metadata_wf s n docs :
  0 <= n -> NoDup (PyDict.keys (document_store s)) -> entries_ok s n ->
  NoDup (PyDict.keys (document_store (fst (store_metadata s n docs)))) /\
  entries_ok (fst (store_metadata s n docs)) (n + Z.of_nat (length docs)).
Proof.
  revert s n. induction docs as [|d docs IH]; intros s n Hn Hnd Hok; simpl.
  - split; [assumption|]. eapply entries_ok_mono; [|eassumption]. lia.
  - destruct (doc_id d) as [i|]; [|simpl; split; [assumption|]; eapply entries_ok_mono; [|eassumption]; lia].
    destruct (doc_content d) as [t|]; [|simpl; split; [assumption|]; eapply entries_ok_mono; [|eassumption]; lia].
    match goal with |- context [store_metadata ?s' ?n' docs] =>
      destruct (IH s' n') as [H1 H2] end.
    + lia.
    + simpl. now apply NoDup_keys_set.
    + intros j e. simpl. destruct (decide (i = j)) as [<-|Hne].
      * rewrite get_set_eq. intros [= <-]. simpl.
        rewrite !lookup_insert_eq. repeat split; auto; lia.
      * rewrite get_set_ne by assumption. intros Hg.
        destruct (Hok j e Hg) as (Ha & Hb & Hc).
        rewrite lookup_insert_ne by assumption.
        rewrite lookup_insert_ne.
        -- repeat split; auto; lia.
        -- intros E. apply py_str_inj in E. lia.
    + split; [assumption|]. replace (n + Z.of_nat (S (length docs))) with (n + 1 + Z.of_nat (length docs)) by lia. assumption.
Qed.

Lemma store_metadata_complete s n docs :
  Forall complete docs -> snd (store_metadata s n docs) = true.
Proof.
  intros H. revert s n. induction H as [|d docs [[i Hi] [t Ht]] _ IH]; intros s n; simpl.
  - reflexivity.
  - rewrite Hi, Ht. apply IH.
Qed.

Lemma store_metadata_incomplete s n docs :
  snd (store_metadata s n docs) = true -> Forall complete docs.
Proof.
  revert s n. induction docs as [|d docs IH]; intros s n; simpl; [constructor|].
  destruct (doc_id d) as [i|] eqn:Hi; [|discriminate].
  destruct (doc_content d) as [t|] eqn:Ht; [|discriminate].
  intros H. constructor; [|eauto].
  split; [rewrite Hi | rewrite Ht]; eauto.
Qed.

(** Entries written by the loop stay in place during its later rounds. *)
Lemma store_metadata_keeps s n docs :
  (forall i, is_Some (PyDict.get (document_store s) i) ->
             is_Some (PyDict.get (document_store (fst (store_metadata s n docs))) i)) /\
  (forall i, is_Some (id_to_index s !! i) ->
             is_Some (id_to_index (fst (store_metadata s n docs)) !! i)) /\
  (forall p i, p < n -> index_to_id s !! py_str p = Some i ->
             index_to_id (fst (store_metadata s n docs)) !! py_str p = Some i).
Proof.
  revert s n. induction docs as [|d docs IH]; intros s n; simpl; [auto|].
  destruct (doc_id d) as [i|]; [|simpl; auto].
  destruct (doc_content d) as [t|]; [|simpl; auto].
  match goal with |- context [store_metadata ?s' ?n' docs] =>
    destruct (IH s' n') as (H1 & H2 & H3) end.
  split; [|split].
  - intros j Hj. apply H1. simpl. destruct (decide (i = j)) as [<-|Hne].
    + rewrite get_set_eq. eauto.
    + now rewrite get_set_ne.
  - intros j Hj. apply H2. simpl. destruct (decide (i = j)) as [<-|Hne].
    + rewrite lookup_insert_eq. eauto.
    + now rewrite lookup_insert_ne.
  - intros p j Hp Hj. apply H3; [lia|]. simpl.
    rewrite lookup_insert_ne; [assumption|].
    intros E. apply py_str_inj in E. lia.
Qed.

Lemma store_metadata_visible s n docs k d :
  Forall complete docs -> docs !! k = Some d ->
  exists i, doc_id d = Some i /\
    is_Some (PyDict.get (document_store (fst (store_metadata s n docs))) i) /\
    is_Some (id_to_index (fst (store_metadata s n docs)) !! i) /\
    index_to_id (fst (store_metadata s n docs)) !! py_str (n + Z.of_nat k) = Some i.
Proof.
  intros H. revert s n k.
  induction H as [|d0 docs [[i Hi] [t Ht]] _ IH]; intros s n k Hk.
  - rewrite lookup_nil in Hk. discriminate.
  - simpl. rewrite Hi, Ht. destruct k as [|k]; simpl in Hk.
    + injection Hk as <-. exists i. split; [assumption|].
      match goal with |- context [store_metadata ?s' ?n' docs] =>
        destruct (store_metadata_keeps s' n' docs) as (H1 & H2 & H3) end.
      split; [|split].
      * apply H1. simpl. rewrite get_set_eq. eauto.
      * apply H2. simpl. rewrite lookup_insert_eq. eauto.
      * replace (n + Z.of_nat 0) with n by lia. apply H3; [lia|].
        simpl. apply lookup_insert_eq.
    + match goal with |- context [store_metadata ?s' ?n' docs] =>
        destruct (IH s' n' k Hk) as (j & Hj & Ha & Hb & Hc) end.
      exists j. split; [assumption|]. split; [assumption|]. split; [assumption|].
      replace (n + Z.of_nat (S k)) with (n + 1 + Z.of_nat k) by lia. assumption.
Qed.

Lemma elem_get {V} (d : list (string * V)) k v :
  NoDup (PyDict.keys d) -> (k, v) ∈ d -> PyDict.get d k = Some v.
Proof.
  induction d as [|[k' v'] d IH]; simpl; intros Hnd Hin.
  - now apply elem_of_nil in Hin.
  - apply NoDup_cons in Hnd as [Hk Hnd].
    apply elem_of_cons in Hin as [[= -> ->]|Hin].
    + now rewrite String.eqb_refl.
    + destruct (String.eqb k k') eqn:E; [|auto].
      apply String.eqb_eq in E. subst k'. exfalso. apply Hk.
      apply (list_elem_of_fmap_2 fst) in Hin. exact Hin.
Qed.

Lemma payload_set (d : list (string * stored)) k e e' :
  PyDict.get d k = Some e -> payload (k, e') = payload (k, e) ->
  map payload (PyDict.set d k e') = map payload d.
Proof.
  induction d as [|[k0 e0] d IH]; simpl; [discriminate|].
  destruct (String.eqb k k0) eqn:E.
  - apply String.eqb_eq in E. subst k0. intros [= ->] Hp. simpl. now rewrite Hp.
  - intros Hg Hp. simpl. f_equal. now apply IH.
Qed.

Lemma payload_keys (d d' : list (string * stored)) :
  map payload d = map payload d' -> PyDict.keys d = PyDict.keys d'.
Proof.
  intros H. unfold PyDict.keys.
  assert (E : forall l : list (string * stored), map fst l = map (fun x => fst (fst x)) (map payload l)).
  { intros l. rewrite map_map. reflexivity. }
  now rewrite (E d), (E d'), H.
Qed.

Lemma texts_of_stored (l : list (string * stored)) :
  texts_of (map document_of l) = Some (map (fun e => st_content (snd e)) l).
Proof.
  induction l as [|e l IH]; simpl; [reflexivity|]. now rewrite IH.
Qed.

Lemma complete_stored (l : list (string * stored)) :
  Forall complete (map document_of l).
Proof.
  apply Forall_forall. intros d Hd. apply list_elem_of_fmap in Hd as (e & -> & _).
  split; simpl; eauto.
Qed.

(** Storing again documents that are in the store renumbers them and
    changes nothing else. *)
Lemma store_metadata_refresh (l : list (string * stored)) s n :
  Forall (fun ke => exists e, PyDict.get (document_store s) (fst ke) = Some e /\
                              payload (fst ke, e) = payload ke) l ->
  map payload (document_store (fst (store_metadata s n (map document_of l)))) =
  map payload (document_store s).
Proof.
  revert s n. induction l as [|[k e] l IH]; intros s n H; simpl; [reflexivity|].
  apply Forall_cons in H as [(e0 & Hg & Hp) H]. simpl in Hg, Hp.
  match goal with |- context [store_metadata ?s' ?n' _] => rewrite (IH s' n') end.
  - simpl. eapply payload_set; [exact Hg|]. now rewrite Hp.
  - simpl. eapply Forall_impl; [exact H|]. intros [k' e'] (e1 & Hg1 & Hp1).
    simpl in *. destruct (decide (k = k')) as [<-|Hne].
    + rewrite get_set_eq. eexists. split; [reflexivity|].
      rewrite <- Hp1. rewrite Hg in Hg1. injection Hg1 as <-. now rewrite Hp.
    + rewrite get_set_ne by assumption. eauto.
Qed.

(** The loop over complete documents establishes [entries_ok] for the
    whole store as soon as it holds for the ids the loop will not write. *)
Lemma store_metadata_establishes s n docs :
  0 <= n -> Forall complete docs ->
  (forall i d, (forall doc, doc ∈ docs -> doc_id doc <> Some i) ->
     PyDict.get (document_store s) i = Some d ->
     id_to_index s !! i = Some (st_faiss_index d) /\
     index_to_id s !! py_str (st_faiss_index d) = Some i /\
     0 <= st_faiss_index d < n) ->
  entries_ok (fst (store_metadata s n docs)) (n + Z.of_nat (length docs)).
Proof.
  intros Hn H. revert s n Hn.
  induction H as [|d0 docs [[i Hi] [t Ht]] _ IH]; intros s n Hn Hok; simpl.
  - intros j e Hg. destruct (Hok j e) as (? & ? & ?); auto.
    + intros doc Hd. now apply elem_of_nil in Hd.
    + repeat split; auto; lia.
  - rewrite Hi, Ht.
    replace (n + Z.of_nat (S (length docs))) with (n + 1 + Z.of_nat (length docs)) by lia.
    apply IH; [lia|]. intros j e Hout. simpl.
    destruct (decide (i = j)) as [<-|Hne].
    + rewrite get_set_eq. intros [= <-]. simpl.
      rewrite !lookup_insert_eq. repeat split; auto; lia.
    + rewrite get_set_ne by assumption. intros Hg.
      destruct (Hok j e) as (Ha & Hb & Hc); auto.
      { intros doc Hd. apply elem_of_cons in Hd as [->|Hd]; [congruence | auto]. }
      rewrite lookup_insert_ne by assumption.
      rewrite lookup_insert_ne.
      * repeat split; auto; lia.
      * intros E. apply py_str_inj in E. lia.
Qed.

(** The loop writes under the ids of its documents only. *)
Lemma store_metadata_origin s n docs :
  (forall j, (forall doc, doc ∈ docs -> doc_id doc <> Some j) ->
     id_to_index (fst (store_metadata s n docs)) !! j = id_to_index s !! j) /\
  (forall k j, index_to_id (fst (store_metadata s n docs)) !! k = Some j ->
     index_to_id s !! k = Some j \/ exists doc, doc ∈ docs /\ doc_id doc = Some j).
Proof.
  revert s n. induction docs as [|d docs IH]; intros s n; simpl; [auto|].
  destruct (doc_id d) as [i|] eqn:Hi; [|simpl; auto].
  destruct (doc_content d) as [t|]; [|simpl; auto].
  match goal with |- context [store_metadata ?s' ?n' docs] =>
    destruct (IH s' n') as (H1 & H2) end.
  split.
  - intros j Hj. rewrite H1.
    + simpl. apply lookup_insert_ne. intros ->. apply (Hj d); [left | exact Hi].
    + intros doc Hd. apply Hj. now right.
  - intros k j Hk. apply H2 in Hk as [Hk|(doc & Hd & Hj)].
    + simpl in Hk. destruct (decide (py_str n = k)) as [<-|Hne].
      * rewrite lookup_insert_eq in Hk. injection Hk as <-.
        right. exists d. split; [left | exact Hi].
      * rewrite lookup_insert_ne in Hk by assumption. now left.
    + right. exists doc. split; [now right | exact Hj].
Qed.

(** ** The raw index and the files *)

Lemma index_add_Some ix vs ix' :
  index_add ix vs = Some ix' ->
  vs <> [] /\ forallb (accepts ix) vs = true /\
  ix' = {| family := family ix; dim := dim ix; vectors := vectors ix ++ vs |}.
Proof.
  unfold index_add. destruct vs as [|v vs]; [discriminate|].
  destruct (forallb (accepts ix) (v :: vs)); [|discriminate].
  intros [= <-]. split; [discriminate|]. split; reflexivity.
Qed.

Lemma index_add_accepts ix vs :
  vs <> [] -> forallb (accepts ix) vs = true ->
  index_add ix vs =
  Some {| family := family ix; dim := dim ix; vectors := vectors ix ++ vs |}.
Proof.
  unfold index_add. destruct vs as [|v vs]; [congruence|]. intros _ H. now rewrite H.
Qed.

Lemma index_add_None ix vs :
  index_add ix vs = None <-> vs = [] \/ forallb (accepts ix) vs = false.
Proof.
  unfold index_add. destruct vs as [|v vs]; [tauto|].
  destruct (forallb (accepts ix) (v :: vs)); split.
  - discriminate.
  - intros [H|H]; discriminate.
  - intros _. now right.
  - reflexivity.
Qed.

Lemma ntotal_index_add ix vs ix' :
  index_add ix vs = Some ix' -> ntotal ix' = ntotal ix + Z.of_nat (length vs).
Proof.
  intros H. apply index_add_Some in H as (_ & _ & ->).
  unfold ntotal. simpl. rewrite length_app. lia.
Qed.

Lemma ntotal_nonneg ix : 0 <= ntotal ix.
Proof. unfold ntotal. lia. Qed.

Lemma store_metadata_io s n docs :
  io (fst (store_metadata s n docs)) = io s.
Proof.
  revert s n. induction docs as [|d docs IH]; intros s n; simpl; [reflexivity|].
  destruct (doc_id d) as [i|]; [|reflexivity].
  destruct (doc_content d) as [t|]; [|reflexivity].
  now rewrite IH.
Qed.

(** A save in which nothing raises leaves the two files as a copy of the
    state in memory. *)
Lemma current_disk_save s :
  next_save s = AllWritten ->
  current_disk (_save_index s) =
  {| index_file := Some (index s);
     metadata_file :=
       Some (Json (MetadataJson (document_store s) (id_to_index s) (index_to_id s))) |}.
Proof.
  intros H. unfold current_disk, _save_index. simpl. rewrite H. simpl.
  rewrite fold_left_app. reflexivity.
Qed.

Lemma next_save_nil s : io s = [] -> next_save s = AllWritten.
Proof. unfold next_save. now intros ->. Qed.

Lemma writes_save s :
  (length (writes (_save_index s)) <= length (writes s) + 3)%nat /\
  exists n, (n <= 3)%nat /\ writes (_save_index s) = writes s ++ take n (save_steps s).
Proof.
  simpl. split.
  - rewrite length_app, length_take. simpl. lia.
  - exists (steps_written (next_save s)). split; [|reflexivity].
    destruct (next_save s); simpl; lia.
Qed.

Lemma covers_mono ix ix' m : ntotal ix <= ntotal ix' -> covers ix m -> covers ix' m.
Proof.
  unfold covers. intros Hle H. eapply Forall_impl; [exact H|].
  simpl. intros e He. lia.
Qed.

Lemma wf_save s : wf s -> wf (_save_index s).
Proof. intros [Hnd Hok]. split; assumption. Qed.

Lemma prepare_config normalize_L2 s1 s2 v :
  config s1 = config s2 -> prepare normalize_L2 s1 v = prepare normalize_L2 s2 v.
Proof. unfold prepare. now intros ->. Qed.

Lemma Forall_set {V} (P : string * V -> Prop) (d : list (string * V)) k v :
  P (k, v) -> Forall P d -> Forall P (PyDict.set d k v).
Proof.
  intros Hkv. induction 1 as [|[k0 v0] d H0 H IH]; simpl.
  - now constructor.
  - destruct (String.eqb k k0) eqn:E; constructor; auto.
    apply String.eqb_eq in E. now subst k0.
Qed.

Lemma Forall_remove {V} (P : string * V -> Prop) (d : list (string * V)) k :
  Forall P d -> Forall P (PyDict.remove d k).
Proof.
  induction 1 as [|[k0 v0] d H0 H IH]; simpl; [constructor|].
  destruct (String.eqb k k0); [assumption | now constructor].
Qed.

(** What holds of the contents in the store and of the contents of a
    batch holds of the contents in the store after the metadata loop. *)
Lemma store_metadata_contents (P : string -> Prop) s n docs :
  Forall (fun e => P (st_content (snd e))) (document_store s) ->
  (forall d t, d ∈ docs -> doc_content d = Some t -> P t) ->
  Forall (fun e => P (st_content (snd e)))
    (document_store (fst (store_metadata s n docs))).
Proof.
  revert s n. induction docs as [|d docs IH]; intros s n Hs Hd; simpl; [exact Hs|].
  destruct (doc_id d) as [i|] eqn:Hi; [|exact Hs].
  destruct (doc_content d) as [t|] eqn:Ht; [|exact Hs].
  apply IH.
  - simpl. apply Forall_set; [|exact Hs].
    simpl. apply (Hd d t); [left | exact Ht].
  - intros d' t' Hin. apply Hd. now right.
Qed.

Lemma texts_of_elem docs texts d t :
  texts_of docs = Some texts -> d ∈ docs -> doc_content d = Some t -> t ∈ texts.
Proof.
  revert texts. induction docs as [|d0 docs IH]; intros texts Ht Hin Hc.
  - now apply elem_of_nil in Hin.
  - simpl in Ht. destruct (doc_content d0) as [t0|] eqn:E; [|discriminate].
    destruct (texts_of docs) as [ts|]; [|discriminate]. injection Ht as <-.
    apply elem_of_cons in Hin as [->|Hin].
    + rewrite E in Hc. injection Hc as ->. left.
    + right. eapply IH; eauto.
Qed.

Section BackendFacts.
Variable encode : string -> vec.
Variable normalize_L2 : vec -> vec.

Lemma length_embed s texts : length (embed encode normalize_L2 s texts) = length texts.
Proof.
  unfold embed. destruct (String.eqb _ _); now rewrite ?length_map.
Qed.

Lemma embed_prepare s texts :
  embed encode normalize_L2 s texts =
  map (fun t => prepare normalize_L2 s (encode t)) texts.
Proof.
  unfold embed, prepare. destruct (String.eqb _ _); [|reflexivity].
  now rewrite map_map.
Qed.

Lemma embed_config s1 s2 texts :
  config s1 = config s2 ->
  embed encode normalize_L2 s1 texts = embed encode normalize_L2 s2 texts.
Proof. unfold embed. now intros ->. Qed.

(** ** [add_documents] *)

(** The state in which the metadata loop of [add_documents] starts. *)
Lemma add_documents_unfold s docs texts ix :
  texts_of docs = Some texts ->
  index_add (index s) (embed encode normalize_L2 s texts) = Some ix ->
  add_documents encode normalize_L2 s docs =
  let r := store_metadata (with_index s ix) (ntotal (index s)) docs in
  if snd r then (_save_index (fst r), true) else (fst r, false).
Proof.
  intros H Hix. unfold add_documents. rewrite H. cbv zeta. rewrite Hix.
  destruct (store_metadata _ _ _) as [s2 [|]]; reflexivity.
Qed.

Lemma add_documents_refused s docs texts :
  texts_of docs = Some texts ->
  index_add (index s) (embed encode normalize_L2 s texts) = None ->
  add_documents encode normalize_L2 s docs = (s, false).
Proof. intros H Hix. unfold add_documents. rewrite H. cbv zeta. now rewrite Hix. Qed.

(** The three ways through [add_documents]. *)
Lemma add_documents_cases s docs :
  add_documents encode normalize_L2 s docs = (s, false) \/
  exists texts ix,
    texts_of docs = Some texts /\
    index_add (index s) (embed encode normalize_L2 s texts) = Some ix /\
    add_documents encode normalize_L2 s docs =
      let r := store_metadata (with_index s ix) (ntotal (index s)) docs in
      if snd r then (_save_index (fst r), true) else (fst r, false).
Proof.
  destruct (texts_of docs) as [texts|] eqn:Ht.
  - destruct (index_add (index s) (embed encode normalize_L2 s texts)) as [ix|] eqn:Hix.
    + right. exists texts, ix. split; [reflexivity|]. split; [exact Hix|].
      now apply (add_documents_unfold s docs texts ix).
    + left. eapply add_documents_refused; eassumption.
  - left. unfold add_documents. now rewrite Ht.
Qed.

Lemma add_documents_true s docs :
  snd (add_documents encode normalize_L2 s docs) = true ->
  exists texts ix,
    texts_of docs = Some texts /\
    index_add (index s) (embed encode normalize_L2 s texts) = Some ix /\
    Forall complete docs /\
    snd (store_metadata (with_index s ix) (ntotal (index s)) docs) = true /\
    add_documents encode normalize_L2 s docs =
      (_save_index (fst (store_metadata (with_index s ix) (ntotal (index s)) docs)), true).
Proof.
  intros Hok. destruct (add_documents_cases s docs) as [E|(texts & ix & Ht & Hix & E)].
  - rewrite E in Hok. discriminate.
  - exists texts, ix. split; [exact Ht|]. split; [exact Hix|].
    rewrite E in Hok |- *. cbv zeta in *.
    destruct (snd (store_metadata (with_index s ix) (ntotal (index s)) docs)) eqn:Es;
      [|discriminate].
    split; [eapply store_metadata_incomplete; exact Es|]. split; reflexivity.
Qed.

Lemma wf_add_documents s docs :
  wf s -> wf (fst (add_documents encode normalize_L2 s docs)).
Proof.
  intros [Hnd Hok].
  destruct (add_documents_cases s docs) as [E|(texts & ix & Ht & Hix & E)];
    rewrite E; [now split|]. cbv zeta.
  set (s1 := with_index s ix).
  destruct (store_metadata_frame s1 (ntotal (index s)) docs) as (Fi & Fc & Ff & Fw).
  destruct (store_metadata_wf s1 (ntotal (index s)) docs) as [Hnd' Hok'].
  { apply ntotal_nonneg. } { exact Hnd. } { exact Hok. }
  assert (Hn : ntotal (index s) + Z.of_nat (length docs) = ntotal (index s1)).
  { unfold s1. simpl. rewrite (ntotal_index_add _ _ _ Hix), length_embed.
    now rewrite (texts_of_length _ _ Ht). }
  rewrite Hn, <- Fi in Hok'.
  destruct (snd (store_metadata s1 (ntotal (index s)) docs)); simpl.
  - apply wf_save. now split.
  - now split.
Qed.

Lemma fitting_add_documents s docs :
  fitting encode normalize_L2 s ->
  fitting encode normalize_L2 (fst (add_documents encode normalize_L2 s docs)).
Proof.
  intros [Hdim Hfit].
  destruct (add_documents_cases s docs) as [E|(texts & ix & Ht & Hix & E)];
    rewrite E; [now split|]. cbv zeta.
  set (s1 := with_index s ix).
  destruct (store_metadata_frame s1 (ntotal (index s)) docs) as (Fi & Fc & Ff & Fw).
  apply index_add_Some in Hix as (_ & Hacc & Eix).
  assert (Hgoal : fitting encode normalize_L2 (fst (store_metadata s1 (ntotal (index s)) docs))).
  { split.
    - rewrite Fi, Fc. unfold s1. simpl. rewrite Eix. exact Hdim.
    - unfold store_fits. rewrite Fc. change (config s1) with (config s).
      eapply Forall_impl.
      + apply (store_metadata_contents
                 (fun t => Z.of_nat (length (prepare normalize_L2 s (encode t)))
                           = dimension (config s))).
        * exact Hfit.
        * intros d t Hd Hc. pose proof (texts_of_elem _ _ _ _ Ht Hd Hc) as Hin.
          rewrite forallb_forall in Hacc.
          specialize (Hacc (prepare normalize_L2 s (encode t))).
          unfold accepts in Hacc. rewrite <- Hdim. apply Z.eqb_eq, Hacc.
          rewrite embed_prepare.
          apply (in_map (fun t => prepare normalize_L2 s (encode t))).
          now apply list_elem_of_In.
      + simpl. intros e He. rewrite <- He. f_equal. f_equal.
        apply prepare_config. exact Fc. }
  destruct (snd (store_metadata s1 (ntotal (index s)) docs)); exact Hgoal.
Qed.

End BackendFacts.

Section RebuildFacts.
Variable encode : string -> vec.
Variable normalize_L2 : vec -> vec.

(** ** [_rebuild_index] and [delete_document] *)

Lemma store_fits_accepts s :
  store_fits encode normalize_L2 s ->
  forallb (accepts (fresh_index s))
    (embed encode normalize_L2 s (map (fun e => st_content (snd e)) (document_store s)))
  = true.
Proof.
  unfold store_fits. intros H. rewrite embed_prepare, map_map.
  induction H as [|e l He _ IH]; simpl; [reflexivity|].
  rewrite IH, andb_true_r. unfold accepts. simpl. now apply Z.eqb_eq.
Qed.

(** The re-insertion goes through when every stored content fits. *)
Lemma rebuild_fits s :
  store_fits encode normalize_L2 s -> document_store s <> [] ->
  index_add (fresh_index s)
    (embed encode normalize_L2 s (map (fun e => st_content (snd e)) (document_store s)))
  = Some {| family := family_of (index_type (config s));
            dim := dimension (config s);
            vectors := embed encode normalize_L2 s
                         (map (fun e => st_content (snd e)) (document_store s)) |}.
Proof.
  intros Hfit Hne. rewrite index_add_accepts.
  - reflexivity.
  - intros E. apply (f_equal length) in E. rewrite length_embed, length_map in E.
    destruct (document_store s); [congruence | discriminate].
  - now apply store_fits_accepts.
Qed.

Lemma rebuild_empty s :
  document_store s = [] ->
  _rebuild_index encode normalize_L2 s = _save_index (_create_index s).
Proof. intros H. unfold _rebuild_index. now rewrite H. Qed.

Lemma rebuild_add s :
  document_store s <> [] ->
  _rebuild_index encode normalize_L2 s =
  fst (add_documents encode normalize_L2 (rebuild_start s)
         (map document_of (document_store s))).
Proof.
  intros Hne. unfold _rebuild_index.
  destruct (document_store s) as [|e l] eqn:Hs; [congruence|].
  cbv zeta. change (document_store (_create_index s)) with (document_store s).
  rewrite Hs. reflexivity.
Qed.

Lemma rebuild_unfold s ix :
  document_store s <> [] ->
  index_add (fresh_index s)
    (embed encode normalize_L2 s (map (fun e => st_content (snd e)) (document_store s)))
  = Some ix ->
  _rebuild_index encode normalize_L2 s =
  _save_index
    (fst (store_metadata (with_index (rebuild_start s) ix)
            0 (map document_of (document_store s)))).
Proof.
  intros Hne Hix. rewrite (rebuild_add s Hne).
  rewrite (add_documents_unfold encode normalize_L2 (rebuild_start s) _ _ ix
             (texts_of_stored (document_store s)) Hix).
  cbv zeta. rewrite store_metadata_complete by apply complete_stored.
  reflexivity.
Qed.

(** When [index.add] refuses the re-insertion, [_rebuild_index] ends with
    the new empty index and the cleared mappings, and saves nothing. *)
Lemma rebuild_refused s :
  document_store s <> [] ->
  index_add (fresh_index s)
    (embed encode normalize_L2 s (map (fun e => st_content (snd e)) (document_store s)))
  = None ->
  _rebuild_index encode normalize_L2 s = rebuild_start s.
Proof.
  intros Hne Hix. rewrite (rebuild_add s Hne).
  now rewrite (add_documents_refused encode normalize_L2 (rebuild_start s) _ _
                 (texts_of_stored (document_store s)) Hix).
Qed.

Lemma refresh_payload s ix n :
  NoDup (PyDict.keys (document_store s)) ->
  map payload
    (document_store
       (fst (store_metadata (with_index (rebuild_start s) ix) n
               (map document_of (document_store s))))) =
  map payload (document_store s).
Proof.
  intros Hnd. rewrite store_metadata_refresh; [reflexivity|].
  apply Forall_forall. intros [k e] Hin. exists e. split; [|reflexivity].
  simpl. now apply elem_get.
Qed.

(** The store keeps its documents through [_rebuild_index], whether or
    not the re-insertion goes through. *)
Lemma rebuild_payload s :
  NoDup (PyDict.keys (document_store s)) ->
  map payload (document_store (_rebuild_index encode normalize_L2 s)) =
  map payload (document_store s).
Proof.
  intros Hnd. destruct (decide (document_store s = [])) as [Hs|Hne].
  - now rewrite (rebuild_empty s Hs).
  - destruct (index_add (fresh_index s)
                (embed encode normalize_L2 s
                   (map (fun e => st_content (snd e)) (document_store s))))
      as [ix|] eqn:Hix.
    + rewrite (rebuild_unfold s ix Hne Hix). simpl. now apply refresh_payload.
    + now rewrite (rebuild_refused s Hne Hix).
Qed.

Lemma rebuild_config s : config (_rebuild_index encode normalize_L2 s) = config s.
Proof.
  destruct (decide (document_store s = [])) as [Hs|Hne].
  - now rewrite (rebuild_empty s Hs).
  - destruct (index_add (fresh_index s)
                (embed encode normalize_L2 s
                   (map (fun e => st_content (snd e)) (document_store s))))
      as [ix|] eqn:Hix.
    + rewrite (rebuild_unfold s ix Hne Hix). simpl.
      match goal with |- context [store_metadata ?s' ?n' ?docs] =>
        destruct (store_metadata_frame s' n' docs) as (_ & Fc & _) end.
      now rewrite Fc.
    + now rewrite (rebuild_refused s Hne Hix).
Qed.

Lemma rebuild_spec s :
  NoDup (PyDict.keys (document_store s)) ->
  store_fits encode normalize_L2 s ->
  let s' := _rebuild_index encode normalize_L2 s in
  index s' =
    {| family := family_of (index_type (config s));
       dim := dimension (config s);
       vectors := embed encode normalize_L2 s
                    (map (fun e => st_content (snd e)) (document_store s)) |} /\
  wf s'.
Proof.
  intros Hnd Hfit. destruct (decide (document_store s = [])) as [Hs|Hne].
  - cbv zeta. rewrite (rebuild_empty s Hs). split.
    + simpl. rewrite Hs. simpl. rewrite embed_prepare. reflexivity.
    + apply wf_save. split.
      * simpl. rewrite Hs. apply NoDup_nil_2.
      * intros i d. simpl. rewrite Hs. discriminate.
  - cbv zeta. pose proof (rebuild_fits s Hfit Hne) as Hix.
    rewrite (rebuild_unfold s _ Hne Hix).
    set (ix := {| family := _; dim := _; vectors := _ |}) in *.
    set (s1 := with_index (rebuild_start s) ix).
    destruct (store_metadata_frame s1 0 (map document_of (document_store s)))
      as (Fi & Fc & Ff & Fw).
    split; [exact Fi|]. apply wf_save. split.
    + unfold s1. rewrite (payload_keys _ _ (refresh_payload s ix 0 Hnd)). exact Hnd.
    + rewrite Fi. unfold s1. simpl.
      replace (ntotal ix) with (0 + Z.of_nat (length (map document_of (document_store s)))).
      * apply store_metadata_establishes; [lia | apply complete_stored |].
        intros i d Hout Hg. simpl in Hg. exfalso.
        apply get_Some_elem in Hg.
        apply (Hout (document_of (i, d))); [|reflexivity].
        apply list_elem_of_fmap. eauto.
      * unfold ntotal, ix. simpl. rewrite length_embed, !length_map. lia.
Qed.

Lemma rebuild_id_to_index s j :
  j ∉ PyDict.keys (document_store s) -> id_to_index s !! j = None ->
  id_to_index (_rebuild_index encode normalize_L2 s) !! j = None.
Proof.
  intros Hj Hnone. destruct (decide (document_store s = [])) as [Hs|Hne].
  - rewrite (rebuild_empty s Hs). exact Hnone.
  - destruct (index_add (fresh_index s)
                (embed encode normalize_L2 s
                   (map (fun e => st_content (snd e)) (document_store s))))
      as [ix|] eqn:Hix.
    + rewrite (rebuild_unfold s ix Hne Hix). simpl.
      match goal with |- context [store_metadata ?s' ?n' ?docs] =>
        destruct (store_metadata_origin s' n' docs) as (H1 & _) end.
      rewrite H1; [reflexivity|].
      intros doc Hd Hid. apply list_elem_of_fmap in Hd as (e & -> & He).
      simpl in Hid. injection Hid as <-. apply Hj. now apply list_elem_of_fmap_2.
    + rewrite (rebuild_refused s Hne Hix). reflexivity.
Qed.

Lemma rebuild_index_to_id s k j :
  index_to_id (_rebuild_index encode normalize_L2 s) !! k = Some j ->
  j ∈ PyDict.keys (document_store s) \/
  (document_store s = [] /\ index_to_id s !! k = Some j).
Proof.
  destruct (decide (document_store s = [])) as [Hs|Hne].
  - rewrite (rebuild_empty s Hs). now right.
  - destruct (index_add (fresh_index s)
                (embed encode normalize_L2 s
                   (map (fun e => st_content (snd e)) (document_store s))))
      as [ix|] eqn:Hix.
    + rewrite (rebuild_unfold s ix Hne Hix). simpl.
      match goal with |- context [store_metadata ?s' ?n' ?docs] =>
        destruct (store_metadata_origin s' n' docs) as (_ & H2) end.
      intros H. apply H2 in H as [H|(doc & Hd & Hid)].
      * simpl in H. rewrite lookup_empty in H. discriminate.
      * left. apply list_elem_of_fmap in Hd as (e & -> & He).
        simpl in Hid. injection Hid as <-. now apply list_elem_of_fmap_2.
    + rewrite (rebuild_refused s Hne Hix). simpl. rewrite lookup_empty. discriminate.
Qed.

Lemma fitting_rebuild s :
  store_fits encode normalize_L2 s ->
  fitting encode normalize_L2 (_rebuild_index encode normalize_L2 s).
Proof.
  intros Hfit. destruct (decide (document_store s = [])) as [Hs|Hne].
  - rewrite (rebuild_empty s Hs). split; [reflexivity|].
    unfold store_fits. simpl. rewrite Hs. constructor.
  - rewrite (rebuild_add s Hne). apply fitting_add_documents.
    split; [reflexivity|]. exact Hfit.
Qed.

Lemma delete_document_known s document_id d :
  entries_ok s (ntotal (index s)) ->
  PyDict.get (document_store s) document_id = Some d ->
  delete_document encode normalize_L2 s document_id =
  (_rebuild_index encode normalize_L2 (without s document_id (st_faiss_index d)), true).
Proof.
  intros Hok Hg. unfold delete_document. rewrite Hg.
  destruct (Hok _ _ Hg) as (Ha & Hb & _). simpl. rewrite Ha. simpl. rewrite Hb.
  reflexivity.
Qed.

Lemma delete_document_unknown s document_id :
  PyDict.get (document_store s) document_id = None ->
  delete_document encode normalize_L2 s document_id = (s, false).
Proof. intros Hg. unfold delete_document. now rewrite Hg. Qed.

Lemma store_fits_without s document_id p :
  store_fits encode normalize_L2 s ->
  store_fits encode normalize_L2 (without s document_id p).
Proof. unfold store_fits. simpl. apply Forall_remove. Qed.

Lemma wf_delete_document s document_id :
  wf s -> store_fits encode normalize_L2 s ->
  wf (fst (delete_document encode normalize_L2 s document_id)).
Proof.
  intros Hwf Hfit. destruct (PyDict.get (document_store s) document_id) as [d|] eqn:Hg.
  - rewrite (delete_document_known s document_id d (wf_entries s Hwf) Hg). simpl.
    apply rebuild_spec.
    + simpl. apply NoDup_keys_remove, (wf_keys s Hwf).
    + now apply store_fits_without.
  - now rewrite (delete_document_unknown s document_id Hg).
Qed.

Lemma fitting_delete_document s document_id :
  fitting encode normalize_L2 s ->
  fitting encode normalize_L2 (fst (delete_document encode normalize_L2 s document_id)).
Proof.
  intros [Hdim Hfit]. unfold delete_document.
  destruct (PyDict.get (document_store s) document_id) as [d|]; [|now split].
  cbv zeta. simpl.
  destruct (id_to_index s !! document_id); simpl.
  - destruct (index_to_id s !! py_str (st_faiss_index d)); simpl.
    + apply fitting_rebuild. unfold store_fits. simpl. now apply Forall_remove.
    + split; [exact Hdim|]. unfold store_fits. simpl. now apply Forall_remove.
  - split; [exact Hdim|]. unfold store_fits. simpl. now apply Forall_remove.
Qed.

(** ** [clear_collection], [__init__], sequences of calls *)

Lemma wf_clear_collection s : wf (fst (clear_collection s)).
Proof.
  unfold clear_collection. simpl. split; simpl.
  - apply NoDup_nil_2.
  - intros i d. discriminate.
Qed.

Lemma fitting_clear_collection s :
  fitting encode normalize_L2 (fst (clear_collection s)).
Proof. split; [reflexivity | constructor]. Qed.

Lemma wf_initial cfg : wf (_initialize_db cfg empty_disk).
Proof.
  split; simpl.
  - apply NoDup_nil_2.
  - intros i d. discriminate.
Qed.

Lemma fitting_initial cfg : fitting encode normalize_L2 (_initialize_db cfg empty_disk).
Proof. split; [reflexivity | constructor]. Qed.

Lemma wf_with_io s plan : wf s -> wf (with_io s plan).
Proof. intros [H1 H2]. now split. Qed.

Lemma fitting_with_io s plan :
  fitting encode normalize_L2 s -> fitting encode normalize_L2 (with_io s plan).
Proof. intros [H1 H2]. now split. Qed.

Lemma fitting_perform s c :
  fitting encode normalize_L2 s ->
  fitting encode normalize_L2 (perform encode normalize_L2 s c).
Proof.
  destruct c; simpl; intros H.
  - now apply fitting_add_documents.
  - now apply fitting_delete_document.
  - apply fitting_clear_collection.
Qed.

Lemma wf_perform s c :
  wf s -> fitting encode normalize_L2 s -> wf (perform encode normalize_L2 s c).
Proof.
  destruct c; simpl; intros H [_ Hfit].
  - now apply wf_add_documents.
  - now apply wf_delete_document.
  - apply wf_clear_collection.
Qed.

Lemma wf_run s calls :
  wf s -> fitting encode normalize_L2 s ->
  wf (run encode normalize_L2 s calls) /\
  fitting encode normalize_L2 (run encode normalize_L2 s calls).
Proof.
  revert s. induction calls as [|c calls IH]; intros s H Hf; simpl; [now split|].
  apply IH; [now apply wf_perform | now apply fitting_perform].
Qed.

End RebuildFacts.

(** ** The bijection between ids and positions *)

Lemma paired_step m1 m2 n live i :
  0 <= n -> i ∉ live -> paired m1 m2 n live ->
  paired (<[i := n]> m1) (<[py_str n := i]> m2) (n + 1) (live ++ [i]).
Proof.
  intros Hn Hi [Hinv Hbel Hlive Hs1 Hs2].
  assert (H1 : m1 !! i = None).
  { apply eq_None_not_Some. intros H. now apply Hlive in H. }
  assert (H2 : m2 !! py_str n = None).
  { apply eq_None_not_Some. intros H. apply Hbel in H as (p & E & Hp).
    apply py_str_inj in E. lia. }
  split.
  - intros j p. destruct (decide (i = j)) as [<-|Hne].
    + rewrite lookup_insert_eq. destruct (decide (p = n)) as [->|Hp].
      * rewrite lookup_insert_eq. tauto.
      * rewrite lookup_insert_ne by (intros E; apply py_str_inj in E; congruence).
        rewrite <- Hinv, H1. split; [intros [= E]; congruence | discriminate].
    + rewrite lookup_insert_ne by assumption. destruct (decide (p = n)) as [->|Hp].
      * rewrite lookup_insert_eq. rewrite Hinv, H2.
        split; [discriminate | intros [= E]; congruence].
      * rewrite lookup_insert_ne by (intros E; apply py_str_inj in E; congruence).
        apply Hinv.
  - intros k Hk. destruct (decide (py_str n = k)) as [<-|Hne].
    + exists n. split; [reflexivity | lia].
    + rewrite lookup_insert_ne in Hk by assumption.
      apply Hbel in Hk as (p & E & Hp). exists p. split; [assumption | lia].
  - intros j. rewrite elem_of_app, list_elem_of_singleton, <- Hlive.
    destruct (decide (i = j)) as [<-|Hne].
    + rewrite lookup_insert_eq. split; [auto | eauto].
    + rewrite lookup_insert_ne by assumption. split; [auto | intros [H|H]; [assumption | congruence]].
  - rewrite map_size_insert_None by assumption. rewrite length_app. simpl. lia.
  - rewrite map_size_insert_None by assumption. rewrite length_app. simpl. lia.
Qed.

Lemma paired_mono m1 m2 n n' live : n <= n' -> paired m1 m2 n live -> paired m1 m2 n' live.
Proof.
  intros Hle [Hinv Hbel Hlive Hs1 Hs2]. split; auto.
  intros k Hk. apply Hbel in Hk as (p & E & Hp). exists p. split; [assumption | lia].
Qed.

Lemma store_metadata_paired s n docs live :
  0 <= n -> NoDup (stored_ids docs) ->
  (forall i, i ∈ stored_ids docs -> i ∉ live) ->
  paired (id_to_index s) (index_to_id s) n live ->
  paired (id_to_index (fst (store_metadata s n docs)))
         (index_to_id (fst (store_metadata s n docs)))
         (n + Z.of_nat (length docs)) (live ++ stored_ids docs).
Proof.
  revert s n live. induction docs as [|d docs IH]; intros s n live Hn Hnd Hfresh Hp;
    simpl in *.
  - rewrite app_nil_r. eapply paired_mono; [|exact Hp]. lia.
  - destruct (doc_id d) as [i|]; [|simpl; rewrite app_nil_r; eapply paired_mono; [|exact Hp]; lia].
    destruct (doc_content d) as [t|]; [|simpl; rewrite app_nil_r; eapply paired_mono; [|exact Hp]; lia].
    apply NoDup_cons in Hnd as [Hi Hnd].
    replace (n + Z.of_nat (S (length docs))) with (n + 1 + Z.of_nat (length docs)) by lia.
    rewrite (cons_middle i live (stored_ids docs)), app_assoc.
    apply IH; [lia | exact Hnd | |].
    + intros j Hj. rewrite elem_of_app, list_elem_of_singleton. intros [H | ->].
      * apply (Hfresh j); [now right | exact H].
      * now apply Hi.
    + simpl. apply paired_step; [exact Hn | | exact Hp].
      apply Hfresh. now left.
Qed.

(** New ids go to the end of the store, in the order of the batch. *)
Lemma store_metadata_new_keys s n docs :
  NoDup (stored_ids docs) ->
  (forall i, i ∈ stored_ids docs -> i ∉ PyDict.keys (document_store s)) ->
  PyDict.keys (document_store (fst (store_metadata s n docs))) =
  PyDict.keys (document_store s) ++ stored_ids docs.
Proof.
  revert s n. induction docs as [|d docs IH]; intros s n Hnd Hfresh; simpl in *.
  - now rewrite app_nil_r.
  - destruct (doc_id d) as [i|]; [|simpl; now rewrite app_nil_r].
    destruct (doc_content d) as [t|]; [|simpl; now rewrite app_nil_r].
    apply NoDup_cons in Hnd as [Hi Hnd].
    rewrite IH.
    + simpl. rewrite keys_set_absent by (apply Hfresh; now left).
      now rewrite <- app_assoc.
    + exact Hnd.
    + intros j Hj. simpl. rewrite keys_set_absent by (apply Hfresh; now left).
      rewrite elem_of_app, list_elem_of_singleton. intros [H | ->].
      * apply (Hfresh j); [now right | exact H].
      * now apply Hi.
Qed.

Lemma stored_ids_stored (l : list (string * stored)) :
  stored_ids (map document_of l) = PyDict.keys l.
Proof.
  induction l as [|e l IH]; simpl; [reflexivity | now rewrite IH].
Qed.

Lemma paired_empty n : 0 <= n -> paired ∅ ∅ n [].
Proof.
  intros Hn. split.
  - intros i p. rewrite !lookup_empty. split; discriminate.
  - intros k [x H]. rewrite lookup_empty in H. discriminate.
  - intros i. rewrite lookup_empty. split; [intros [x H]; discriminate | intros H; now apply elem_of_nil in H].
  - apply map_size_empty.
  - apply map_size_empty.
Qed.

Section Bijection.
Variable encode : string -> vec.
Variable normalize_L2 : vec -> vec.

Lemma bijection_initial cfg : bijection (_initialize_db cfg empty_disk).
Proof. apply paired_empty. apply ntotal_nonneg. Qed.

Lemma bijection_add_documents s docs :
  bijection s -> brings_new_ids s (AddDocuments docs) ->
  bijection (fst (add_documents encode normalize_L2 s docs)).
Proof.
  intros Hb [Hnd Hfresh].
  destruct (add_documents_cases encode normalize_L2 s docs)
    as [E|(texts & ix & Ht & Hix & E)]; rewrite E; [exact Hb|]. cbv zeta.
  set (s1 := with_index s ix).
  destruct (store_metadata_frame s1 (ntotal (index s)) docs) as (Fi & _).
  assert (Hp : bijection (fst (store_metadata s1 (ntotal (index s)) docs))).
  { unfold bijection. rewrite Fi.
    rewrite (store_metadata_new_keys s1 _ docs Hnd Hfresh).
    replace (ntotal (index s1)) with (ntotal (index s) + Z.of_nat (length docs)).
    - apply store_metadata_paired; [apply ntotal_nonneg | exact Hnd | exact Hfresh | exact Hb].
    - unfold s1. simpl. rewrite (ntotal_index_add _ _ _ Hix), length_embed.
      now rewrite (texts_of_length _ _ Ht). }
  destruct (snd (store_metadata s1 (ntotal (index s)) docs)); exact Hp.
Qed.

Lemma bijection_rebuild s :
  document_store s <> [] -> NoDup (PyDict.keys (document_store s)) ->
  store_fits encode normalize_L2 s ->
  bijection (_rebuild_index encode normalize_L2 s).
Proof.
  intros Hne Hnd Hfit.
  pose proof (rebuild_payload encode normalize_L2 s Hnd) as Hpay.
  pose proof (rebuild_fits encode normalize_L2 s Hfit Hne) as Hix.
  unfold bijection. rewrite (payload_keys _ _ Hpay).
  rewrite (rebuild_unfold encode normalize_L2 s _ Hne Hix). simpl.
  match goal with |- context [store_metadata ?s' ?n' ?docs] =>
    destruct (store_metadata_frame s' n' docs) as (Fi & _) end.
  rewrite Fi. simpl.
  replace (ntotal _) with (0 + Z.of_nat (length (map document_of (document_store s)))).
  - change (PyDict.keys (document_store s)) with ([] ++ PyDict.keys (document_store s)).
    rewrite <- (stored_ids_stored (document_store s)).
    apply store_metadata_paired.
    + lia.
    + now rewrite stored_ids_stored.
    + intros i _ H. now apply elem_of_nil in H.
    + apply paired_empty. lia.
  - unfold ntotal. simpl. rewrite length_embed, !length_map. lia.
Qed.

Lemma bijection_delete_document s document_id :
  wf s -> store_fits encode normalize_L2 s -> bijection s ->
  bijection (fst (delete_document encode normalize_L2 s document_id)).
Proof.
  intros Hwf Hfit Hb.
  destruct (PyDict.get (document_store s) document_id) as [d|] eqn:Hg.
  - rewrite (delete_document_known _ _ s document_id d (wf_entries s Hwf) Hg). simpl.
    set (s3 := without s document_id (st_faiss_index d)).
    destruct (decide (document_store s3 = [])) as [He|Hne].
    + assert (He' := He). simpl in He'.
      rewrite (rebuild_empty _ _ s3 He). unfold bijection. simpl. rewrite He'. simpl.
      destruct (wf_entries s Hwf _ _ Hg) as (Ha & Hc & _).
      pose proof (length_remove _ _ _ Hg) as Hlen. rewrite He' in Hlen.
      destruct Hb as [_ _ _ Hs1 Hs2]. unfold PyDict.keys in Hs1, Hs2.
      rewrite length_map, <- Hlen in Hs1, Hs2. simpl in Hs1, Hs2.
      assert (E1 : delete document_id (id_to_index s) = ∅).
      { apply map_size_empty_inv. rewrite map_size_delete_Some by eauto. now rewrite Hs1. }
      assert (E2 : delete (py_str (st_faiss_index d)) (index_to_id s) = ∅).
      { apply map_size_empty_inv. rewrite map_size_delete_Some by eauto. now rewrite Hs2. }
      rewrite E1, E2. apply paired_empty. apply ntotal_nonneg.
    + apply bijection_rebuild; [exact Hne | |].
      * simpl. apply NoDup_keys_remove, (wf_keys s Hwf).
      * now apply store_fits_without.
  - now rewrite (delete_document_unknown _ _ s document_id Hg).
Qed.

Lemma bijection_clear_collection s : bijection (fst (clear_collection s)).
Proof. apply paired_empty. apply ntotal_nonneg. Qed.

(** As long as no call adds an id that is already stored, the two
    mappings stay inverse to each other and as large as the store. *)
Lemma bijection_run s calls :
  wf s -> fitting encode normalize_L2 s -> bijection s ->
  new_ids_throughout encode normalize_L2 s calls ->
  bijection (run encode normalize_L2 s calls).
Proof.
  revert s. induction calls as [|c calls IH]; intros s Hwf Hfit Hb Hnew; simpl; [exact Hb|].
  destruct Hnew as [Hc Hnew].
  apply IH; [now apply wf_perform | now apply fitting_perform | | exact Hnew].
  destruct c as [docs|i|]; simpl.
  - now apply bijection_add_documents.
  - apply bijection_delete_document; [exact Hwf | apply Hfit | exact Hb].
  - apply bijection_clear_collection.
Qed.

End Bijection.

(** ** Stored vectors *)

Lemma texts_of_lookup docs texts j doc t :
  texts_of docs = Some texts -> docs !! j = Some doc -> doc_content doc = Some t ->
  texts !! j = Some t.
Proof.
  revert texts j. induction docs as [|d docs IH]; intros texts j Ht Hj Hc.
  - rewrite lookup_nil in Hj. discriminate.
  - simpl in Ht. destruct (doc_content d) as [t0|] eqn:E; [|discriminate].
    destruct (texts_of docs) as [ts|]; [|discriminate]. injection Ht as <-.
    destruct j as [|j]; simpl in *.
    + injection Hj as <-. congruence.
    + eapply IH; eauto.
Qed.

Section Alignment.
Variable encode : string -> vec.
Variable normalize_L2 : vec -> vec.

Lemma store_metadata_aligned docs s n :
  0 <= n ->
  (forall j doc t, docs !! j = Some doc -> doc_content doc = Some t ->
     vectors (index s) !! Z.to_nat (n + Z.of_nat j)
       = Some (prepare normalize_L2 s (encode t))) ->
  (forall i d, i ∉ stored_ids docs -> PyDict.get (document_store s) i = Some d ->
     vectors (index s) !! Z.to_nat (st_faiss_index d)
       = Some (prepare normalize_L2 s (encode (st_content d)))) ->
  aligned encode normalize_L2 (fst (store_metadata s n docs)).
Proof.
  revert s n. induction docs as [|doc docs IH]; intros s n Hn Hbatch Hold; simpl in *.
  - intros i d Hg. apply (Hold i d); [apply not_elem_of_nil | exact Hg].
  - destruct (doc_id doc) as [i|] eqn:Hi;
      [|intros j d Hg; apply (Hold j d); [apply not_elem_of_nil | exact Hg]].
    destruct (doc_content doc) as [t|] eqn:Ht;
      [|intros j d Hg; apply (Hold j d); [apply not_elem_of_nil | exact Hg]].
    apply IH; [lia | |].
    + intros j doc' t' Hj Hc. simpl.
      replace (n + 1 + Z.of_nat j) with (n + Z.of_nat (S j)) by lia.
      exact (Hbatch (S j) doc' t' Hj Hc).
    + intros j d Hout. simpl. destruct (decide (i = j)) as [<-|Hne].
      * rewrite get_set_eq. intros [= <-]. simpl.
        replace n with (n + Z.of_nat 0) at 1 by lia.
        exact (Hbatch 0%nat doc t eq_refl Ht).
      * rewrite get_set_ne by assumption. intros Hg. apply (Hold j d); [|exact Hg].
        rewrite not_elem_of_cons. split; [congruence | exact Hout].
Qed.

Lemma aligned_add_documents s docs :
  aligned encode normalize_L2 s ->
  aligned encode normalize_L2 (fst (add_documents encode normalize_L2 s docs)).
Proof.
  intros Ha.
  destruct (add_documents_cases encode normalize_L2 s docs)
    as [E|(texts & ix & Ht & Hix & E)]; rewrite E; [exact Ha|]. cbv zeta.
  apply index_add_Some in Hix as (_ & _ & ->).
  set (s1 := with_index s _).
  assert (Hal : aligned encode normalize_L2
                  (fst (store_metadata s1 (ntotal (index s)) docs))).
  { apply store_metadata_aligned; [apply ntotal_nonneg | |].
    - intros j doc t Hj Hc. unfold s1. simpl.
      pose proof (texts_of_lookup _ _ _ _ _ Ht Hj Hc) as Htj.
      unfold ntotal. rewrite <- Nat2Z.inj_add, Nat2Z.id.
      rewrite lookup_app_r by lia.
      replace (length (vectors (index s)) + j - length (vectors (index s)))%nat
        with j by lia.
      rewrite embed_prepare, list_lookup_fmap, Htj. reflexivity.
    - intros i d _ Hg. unfold s1. simpl. apply lookup_app_l_Some. exact (Ha i d Hg). }
  destruct (snd (store_metadata s1 (ntotal (index s)) docs)); exact Hal.
Qed.

Lemma aligned_rebuild s :
  store_fits encode normalize_L2 s ->
  aligned encode normalize_L2 (_rebuild_index encode normalize_L2 s).
Proof.
  intros Hfit. destruct (decide (document_store s = [])) as [Hs|Hne].
  - rewrite (rebuild_empty _ _ s Hs). intros i d. simpl. rewrite Hs. discriminate.
  - rewrite (rebuild_unfold _ _ s _ Hne (rebuild_fits _ _ s Hfit Hne)).
    set (s1 := with_index (rebuild_start s) _).
    change (aligned encode normalize_L2
              (fst (store_metadata s1 0 (map document_of (document_store s))))).
    apply store_metadata_aligned; [lia | |].
    + intros j doc t Hj Hc. unfold s1. simpl.
      rewrite list_lookup_fmap in Hj.
      destruct (document_store s !! j) as [e|] eqn:He; [|discriminate].
      injection Hj as <-. simpl in Hc. injection Hc as <-.
      replace (0 + Z.of_nat j) with (Z.of_nat j) by lia.
      rewrite Nat2Z.id, embed_prepare, list_lookup_fmap, list_lookup_fmap, He.
      reflexivity.
    + intros i d Hout Hg. exfalso. apply Hout.
      rewrite stored_ids_stored. unfold s1 in Hg. simpl in Hg.
      eapply get_Some_keys. exact Hg.
Qed.

Lemma aligned_perform s c :
  wf s -> store_fits encode normalize_L2 s -> aligned encode normalize_L2 s ->
  aligned encode normalize_L2 (perform encode normalize_L2 s c).
Proof.
  intros Hwf Hfit Ha. destruct c as [docs|i|]; simpl.
  - now apply aligned_add_documents.
  - destruct (PyDict.get (document_store s) i) as [d|] eqn:Hg.
    + rewrite (delete_document_known _ _ s i d (wf_entries s Hwf) Hg). simpl.
      apply aligned_rebuild. now apply store_fits_without.
    + now rewrite (delete_document_unknown _ _ s i Hg).
  - intros j d. discriminate.
Qed.

Lemma aligned_run s calls :
  wf s -> fitting encode normalize_L2 s -> aligned encode normalize_L2 s ->
  aligned encode normalize_L2 (run encode normalize_L2 s calls).
Proof.
  revert s. induction calls as [|c calls IH]; intros s Hwf Hfit Ha; simpl; [exact Ha|].
  apply IH; [now apply wf_perform | now apply fitting_perform |].
  apply aligned_perform; [exact Hwf | apply Hfit | exact Ha].
Qed.

Lemma aligned_initial cfg : aligned encode normalize_L2 (_initialize_db cfg empty_disk).
Proof. intros i d. discriminate. Qed.

End Alignment.

(** ** Search *)

Lemma length_index_search ix q k : length (index_search ix q k) = k.
Proof.
  unfold index_search. cbv zeta. rewrite length_app, length_take, length_replicate. lia.
Qed.

Section SearchFacts.
Variable encode : string -> vec.
Variable normalize_L2 : vec -> vec.

Lemma length_collect_results s f hits :
  (length (collect_results s f hits) <= length hits)%nat.
Proof.
  induction hits as [|[sc idx] hits IH]; simpl; [lia|].
  destruct (Z.eqb idx (-1)); simpl; [lia|].
  destruct (index_to_id s !! py_str idx) as [i|]; [|lia].
  destruct (truthy i); [|lia].
  destruct (PyDict.get (document_store s) i) as [d|]; [|lia].
  destruct (passes_filter f (st_metadata d)); simpl; lia.
Qed.

(** Where a result comes from. *)
Lemma collect_results_elem s f hits r :
  r ∈ collect_results s f hits ->
  exists sc idx d,
    (sc, idx) ∈ hits /\ idx <> -1 /\
    index_to_id s !! py_str idx = Some (id r) /\
    PyDict.get (document_store s) (id r) = Some d /\
    passes_filter f (st_metadata d) = true /\
    r = make_result (id r) d sc.
Proof.
  induction hits as [|[sc idx] hits IH]; simpl; intros Hr.
  - now apply elem_of_nil in Hr.
  - assert (Hrest : r ∈ collect_results s f hits ->
      exists sc0 idx0 d, (sc0, idx0) ∈ (sc, idx) :: hits /\ idx0 <> -1 /\
        index_to_id s !! py_str idx0 = Some (id r) /\
        PyDict.get (document_store s) (id r) = Some d /\
        passes_filter f (st_metadata d) = true /\
        r = make_result (id r) d sc0).
    { intros H. destruct (IH H) as (sc0 & idx0 & d & Hin & Hrest).
      exists sc0, idx0, d. split; [now right | exact Hrest]. }
    destruct (Z.eqb idx (-1)) eqn:E; [now apply elem_of_nil in Hr|].
    apply Z.eqb_neq in E.
    destruct (index_to_id s !! py_str idx) as [i|] eqn:Hi; [|auto].
    destruct (truthy i); [|auto].
    destruct (PyDict.get (document_store s) i) as [d|] eqn:Hd; [|auto].
    destruct (passes_filter f (st_metadata d)) eqn:Hp; [|auto].
    apply elem_of_cons in Hr as [->|Hr]; [|auto].
    exists sc, idx, d. simpl. repeat split; auto. left.
Qed.

(** The padding of the raw index never reaches the results. *)
Lemma collect_results_padding s f hits n :
  collect_results s f (hits ++ replicate n (0%Q, -1)) = collect_results s f hits.
Proof.
  induction hits as [|[sc idx] hits IH]; simpl.
  - destruct n; reflexivity.
  - rewrite IH. reflexivity.
Qed.

Lemma collect_results_skip s f sc idx hits :
  index_to_id s !! py_str idx = None ->
  collect_results s f ((sc, idx) :: hits) =
  if Z.eqb idx (-1) then [] else collect_results s f hits.
Proof. intros H. simpl. now rewrite H. Qed.

(** The filter acts on the candidates the raw index has returned. *)
Lemma collect_results_post_filter s f hits :
  collect_results s f hits =
  List.filter (fun r => passes_filter f (metadata r)) (collect_results s None hits).
Proof.
  induction hits as [|[sc idx] hits IH]; simpl; [reflexivity|].
  destruct (Z.eqb idx (-1)); [reflexivity|].
  destruct (index_to_id s !! py_str idx) as [i|]; [|assumption].
  destruct (truthy i); [|assumption].
  destruct (PyDict.get (document_store s) i) as [d|]; [|assumption].
  simpl. destruct (passes_filter f (st_metadata d)); [now f_equal | assumption].
Qed.

Lemma passes_filter_spec f m :
  passes_filter (Some f) m = true ->
  forall k v, (k, v) ∈ f -> dict_get m k = v.
Proof.
  intros H k v Hin. destruct f as [|kv f]; [now apply elem_of_nil in Hin|].
  unfold passes_filter in H. rewrite forallb_forall in H.
  apply list_elem_of_In in Hin. specialize (H _ Hin). simpl in H.
  now apply value_eqb_eq.
Qed.

End SearchFacts.

(** *** Ranking in the raw index *)

Lemma Qle_bool_total a b : Qle_bool a b = false -> Qle_bool b a = true.
Proof.
  intros H. apply Qle_bool_iff. apply Qlt_le_weak. apply Qnot_le_lt.
  intros Hle. apply Qle_bool_iff in Hle. congruence.
Qed.

Lemma Qle_bool_trans a b c :
  Qle_bool a b = true -> Qle_bool b c = true -> Qle_bool a c = true.
Proof.
  rewrite !Qle_bool_iff. apply Qle_trans.
Qed.

Lemma ranks_before_total f a b : ranks_before f a b = false -> ranks_before f b a = true.
Proof. destruct f; simpl; apply Qle_bool_total. Qed.

Lemma ranks_before_trans f a b c :
  ranks_before f a b = true -> ranks_before f b c = true -> ranks_before f a c = true.
Proof. destruct f; simpl; eauto using Qle_bool_trans. Qed.

Lemma rank_insert_perm f c l : rank_insert f c l ≡ₚ c :: l.
Proof.
  induction l as [|c' l IH]; simpl; [reflexivity|].
  destruct (ranks_before f (fst c) (fst c')); [reflexivity|].
  rewrite IH. apply Permutation_swap.
Qed.

Lemma rank_perm f l : rank f l ≡ₚ l.
Proof.
  induction l as [|c l IH]; simpl; [reflexivity|].
  now rewrite rank_insert_perm, IH.
Qed.

Lemma rank_insert_sorted f c l :
  StronglySorted (hit_order f) l -> StronglySorted (hit_order f) (rank_insert f c l).
Proof.
  induction 1 as [|c' l Hs IH Hall]; simpl.
  - repeat constructor.
  - destruct (ranks_before f (fst c) (fst c')) eqn:E.
    + constructor; [now constructor|]. constructor; [exact E|].
      eapply Forall_impl; [exact Hall|]. intros x Hx.
      unfold hit_order in *. eauto using ranks_before_trans.
    + constructor; [exact IH|].
      rewrite rank_insert_perm. constructor; [|exact Hall].
      now apply ranks_before_total.
Qed.

Lemma rank_sorted f l : StronglySorted (hit_order f) (rank f l).
Proof.
  induction l as [|c l IH]; simpl; [constructor | now apply rank_insert_sorted].
Qed.

Lemma rank_three f a b c :
  rank f [a; b; c] = [a; b; c] \/ rank f [a; b; c] = [a; c; b] \/
  rank f [a; b; c] = [b; a; c] \/ rank f [a; b; c] = [b; c; a] \/
  rank f [a; b; c] = [c; a; b] \/ rank f [a; b; c] = [c; b; a].
Proof.
  simpl. destruct (ranks_before f (fst b) (fst c)); simpl;
    destruct (ranks_before f (fst a) (fst b)); simpl;
    destruct (ranks_before f (fst a) (fst c)); simpl; tauto.
Qed.

Lemma StronglySorted_weaken {A} (R R' : A -> A -> Prop) (l : list A) :
  (forall a b, R a b -> R' a b) -> StronglySorted R l -> StronglySorted R' l.
Proof.
  intros HR. induction 1 as [|x l Hs IH Hall]; constructor; [assumption|].
  eapply Forall_impl; [exact Hall|]. auto.
Qed.

(** The results keep the order of the hits they come from. *)
Lemma collect_results_sorted s f hits (R : Q -> Q -> Prop) :
  StronglySorted (fun a b => R (fst a) (fst b)) hits ->
  StronglySorted (fun a b => R (score a) (score b)) (collect_results s f hits).
Proof.
  induction 1 as [|[sc idx] hits Hs IH Hall]; simpl; [constructor|].
  destruct (Z.eqb idx (-1)); [constructor|].
  destruct (index_to_id s !! py_str idx) as [i|]; [|assumption].
  destruct (truthy i); [|assumption].
  destruct (PyDict.get (document_store s) i) as [d|]; [|assumption].
  destruct (passes_filter f (st_metadata d)); [|assumption].
  constructor; [assumption|].
  apply Forall_forall. intros r Hr.
  apply collect_results_elem in Hr as (sc0 & idx0 & d0 & Hin & _ & _ & _ & _ & ->).
  simpl. rewrite Forall_forall in Hall. apply (Hall _ Hin).
Qed.

(** *** The hits of the raw index *)

Lemma candidates_from_elem f q pos vs sc idx :
  (sc, idx) ∈ candidates_from f q pos vs <->
  exists k v, vs !! k = Some v /\ idx = pos + Z.of_nat k /\ sc = raw_score f q v.
Proof.
  revert pos. induction vs as [|v vs IH]; intros pos; simpl.
  - split.
    + intros H. now apply elem_of_nil in H.
    + intros (k & v & H & _). rewrite lookup_nil in H. discriminate.
  - rewrite elem_of_cons, IH. split.
    + intros [[= -> ->] | (k & v' & Hk & -> & ->)].
      * exists 0%nat, v. split; [reflexivity|]. split; [lia | reflexivity].
      * exists (S k), v'. split; [exact Hk|]. split; [lia | reflexivity].
    + intros ([|k] & v' & Hk & -> & ->); simpl in Hk.
      * injection Hk as ->. left. f_equal. lia.
      * right. exists k, v'. split; [exact Hk|]. split; [lia | reflexivity].
Qed.

Lemma length_candidates_from f q pos vs :
  length (candidates_from f q pos vs) = length vs.
Proof. revert pos. induction vs as [|v vs IH]; intros pos; simpl; [reflexivity | now rewrite IH]. Qed.

Lemma candidates_from_positions f q pos vs :
  Forall (fun idx => pos <= idx) (map snd (candidates_from f q pos vs)) /\
  NoDup (map snd (candidates_from f q pos vs)).
Proof.
  revert pos. induction vs as [|v vs IH]; intros pos; simpl.
  - split; constructor.
  - destruct (IH (pos + 1)) as [Hge Hnd]. split.
    + constructor; [lia|]. eapply Forall_impl; [exact Hge|]. simpl. intros; lia.
    + constructor; [|exact Hnd]. intros Hin. rewrite Forall_forall in Hge.
      apply Hge in Hin. lia.
Qed.

Lemma ranked_hits_elem ix q k sc idx :
  (sc, idx) ∈ ranked_hits ix q k ->
  exists j v, vectors ix !! j = Some v /\ idx = Z.of_nat j /\ sc = raw_score (family ix) q v.
Proof.
  unfold ranked_hits. intros H.
  eapply elem_of_sublist in H; [|apply sublist_take].
  rewrite rank_perm in H. apply candidates_from_elem in H as (j & v & Hj & -> & ->).
  exists j, v. split; [exact Hj|]. split; [lia | reflexivity].
Qed.

Lemma ranked_hits_positions ix q k :
  Forall (fun idx => 0 <= idx) (map snd (ranked_hits ix q k)) /\
  NoDup (map snd (ranked_hits ix q k)).
Proof.
  unfold ranked_hits.
  destruct (candidates_from_positions (family ix) q 0 (vectors ix)) as [Hge Hnd].
  set (c := candidates_from (family ix) q 0 (vectors ix)) in *.
  assert (Hp : map snd (rank (family ix) c) ≡ₚ map snd c) by (now rewrite rank_perm).
  rewrite <- Hp in Hge, Hnd.
  rewrite fmap_take.
  pose proof (sublist_take (map snd (rank (family ix) c)) k) as Hsub.
  split.
  - apply Forall_forall. intros x Hx. rewrite Forall_forall in Hge.
    apply Hge. eapply elem_of_sublist; eassumption.
  - eapply sublist_NoDup; eassumption.
Qed.

Lemma ranked_hits_all ix q k sc idx :
  (length (vectors ix) <= k)%nat ->
  (sc, idx) ∈ candidates_from (family ix) q 0 (vectors ix) ->
  (sc, idx) ∈ ranked_hits ix q k.
Proof.
  intros Hk Hin. unfold ranked_hits. rewrite take_ge.
  - now rewrite rank_perm.
  - rewrite (Permutation_length (rank_perm _ _)), length_candidates_from. exact Hk.
Qed.

Lemma length_ranked_hits ix q k :
  (length (ranked_hits ix q k) <= Nat.min k (length (vectors ix)))%nat.
Proof.
  unfold ranked_hits. rewrite length_take.
  rewrite (Permutation_length (rank_perm _ _)), length_candidates_from. lia.
Qed.

Section Ordering.
Variable encode : string -> vec.
Variable normalize_L2 : vec -> vec.

(** [search] either hands the answer of the raw index to its loop or, when
    the raw index raises, returns nothing. *)
Lemma search_accepted s query top_k filter_dict :
  accepts (index s) (query_embedding encode normalize_L2 s query) = true ->
  search encode normalize_L2 s query top_k filter_dict =
  collect_results s filter_dict
    (index_search (index s) (query_embedding encode normalize_L2 s query) top_k).
Proof.
  intros H. unfold search, checked_search. rewrite H. destruct top_k; reflexivity.
Qed.

Lemma search_refused s query top_k filter_dict :
  accepts (index s) (query_embedding encode normalize_L2 s query) = false ->
  search encode normalize_L2 s query top_k filter_dict = [].
Proof. intros H. unfold search, checked_search. now rewrite H. Qed.

Lemma search_cases s query top_k filter_dict :
  search encode normalize_L2 s query top_k filter_dict = [] \/
  (accepts (index s) (query_embedding encode normalize_L2 s query) = true /\
   search encode normalize_L2 s query top_k filter_dict =
   collect_results s filter_dict
     (index_search (index s) (query_embedding encode normalize_L2 s query) top_k)).
Proof.
  destruct (accepts (index s) (query_embedding encode normalize_L2 s query)) eqn:E.
  - right. split; [reflexivity | now apply search_accepted].
  - left. now apply search_refused.
Qed.

Lemma search_elem s query top_k filter_dict r :
  r ∈ search encode normalize_L2 s query top_k filter_dict ->
  accepts (index s) (query_embedding encode normalize_L2 s query) = true /\
  r ∈ collect_results s filter_dict
        (index_search (index s) (query_embedding encode normalize_L2 s query) top_k).
Proof.
  intros Hr. destruct (search_cases s query top_k filter_dict) as [E|[Ha E]];
    rewrite E in Hr; [now apply elem_of_nil in Hr | now split].
Qed.

Lemma search_ranked_hits s query top_k filter_dict :
  accepts (index s) (query_embedding encode normalize_L2 s query) = true ->
  search encode normalize_L2 s query top_k filter_dict =
  collect_results s filter_dict
    (ranked_hits (index s) (query_embedding encode normalize_L2 s query) top_k).
Proof.
  intros H. rewrite (search_accepted s query top_k filter_dict H).
  unfold index_search. cbv zeta. apply collect_results_padding.
Qed.

Lemma search_ranked s query top_k filter_dict :
  StronglySorted
    (fun a b => ranks_before (family (index s)) (score a) (score b) = true)
    (search encode normalize_L2 s query top_k filter_dict).
Proof.
  destruct (search_cases s query top_k filter_dict) as [E|[_ E]]; rewrite E; [constructor|].
  unfold index_search. cbv zeta. rewrite collect_results_padding.
  apply (collect_results_sorted s filter_dict _
           (fun a b => ranks_before (family (index s)) a b = true)).
  eapply StronglySorted_app_1_l. rewrite take_drop. apply rank_sorted.
Qed.

(** With an inner-product index the best score comes first. *)
Lemma search_inner_product_descending s query top_k filter_dict :
  family (index s) = IndexFlatIP ->
  scores_descending (search encode normalize_L2 s query top_k filter_dict).
Proof.
  intros Hf. pose proof (search_ranked s query top_k filter_dict) as H.
  rewrite Hf in H. unfold scores_descending.
  eapply StronglySorted_weaken; [|exact H].
  simpl. intros a b Hab. now apply Qle_bool_iff.
Qed.

(** With an L2 index the results come in order of increasing score. *)
Lemma search_l2_ascending s query top_k filter_dict :
  family (index s) <> IndexFlatIP ->
  StronglySorted (fun a b => (score a <= score b)%Q)
    (search encode normalize_L2 s query top_k filter_dict).
Proof.
  intros Hf. pose proof (search_ranked s query top_k filter_dict) as H.
  eapply StronglySorted_weaken; [|exact H].
  simpl. intros a b Hab. apply Qle_bool_iff.
  destruct (family (index s)); [congruence | exact Hab | exact Hab].
Qed.

Lemma collect_results_truthy s f hits r :
  r ∈ collect_results s f hits -> truthy (id r) = true.
Proof.
  induction hits as [|[sc idx] hits IH]; simpl; intros Hr.
  - now apply elem_of_nil in Hr.
  - destruct (Z.eqb idx (-1)); [now apply elem_of_nil in Hr|].
    destruct (index_to_id s !! py_str idx) as [i|]; [|auto].
    destruct (truthy i) eqn:Ht; [|auto].
    destruct (PyDict.get (document_store s) i) as [d|]; [|auto].
    destruct (passes_filter f (st_metadata d)); [|auto].
    apply elem_of_cons in Hr as [->|Hr]; [exact Ht | auto].
Qed.

Lemma collect_results_complete s f hits sc idx i d :
  Forall (fun h => snd h <> -1) hits ->
  (sc, idx) ∈ hits ->
  index_to_id s !! py_str idx = Some i -> truthy i = true ->
  PyDict.get (document_store s) i = Some d ->
  passes_filter f (st_metadata d) = true ->
  make_result i d sc ∈ collect_results s f hits.
Proof.
  intros Hall Hin Hi Ht Hd Hp. induction Hall as [|[sc0 idx0] hits Hh Hall IH].
  - now apply elem_of_nil in Hin.
  - simpl in *. apply Z.eqb_neq in Hh. rewrite Hh.
    apply elem_of_cons in Hin as [[= <- <-]|Hin].
    + rewrite Hi, Ht, Hd, Hp. left.
    + specialize (IH Hin).
      destruct (index_to_id s !! py_str idx0) as [i0|]; [|exact IH].
      destruct (truthy i0); [|exact IH].
      destruct (PyDict.get (document_store s) i0) as [d0|]; [|exact IH].
      destruct (passes_filter f (st_metadata d0)); [right; exact IH | exact IH].
Qed.

Lemma collect_results_distinct s f hits :
  (forall i p, id_to_index s !! i = Some p <-> index_to_id s !! py_str p = Some i) ->
  NoDup (map snd hits) ->
  NoDup (map id (collect_results s f hits)).
Proof.
  intros Hinv. induction hits as [|[sc idx] hits IH]; simpl; intros Hnd; [constructor|].
  apply NoDup_cons in Hnd as [Hidx Hnd]. specialize (IH Hnd).
  destruct (Z.eqb idx (-1)); [constructor|].
  destruct (index_to_id s !! py_str idx) as [i|] eqn:Hi; [|exact IH].
  destruct (truthy i); [|exact IH].
  destruct (PyDict.get (document_store s) i) as [d|]; [|exact IH].
  destruct (passes_filter f (st_metadata d)); [|exact IH].
  simpl. constructor; [|exact IH].
  intros Hin. apply list_elem_of_fmap in Hin as (r & Hr & Hin).
  apply collect_results_elem in Hin as (sc' & idx' & d' & Hhit & _ & Hi' & _).
  rewrite <- Hr in Hi'. apply Hinv in Hi, Hi'. rewrite Hi in Hi'. injection Hi' as <-.
  apply Hidx. apply (list_elem_of_fmap_2 snd) in Hhit. exact Hhit.
Qed.

End Ordering.

(** The Chroma adapter turns increasing distances into decreasing scores. *)
Lemma chroma_search_descending encode query s text top_k filter_dict :
  (forall rows v k f hits, query rows v k f = Some hits ->
     StronglySorted (fun a b => (snd a <= snd b)%Q) hits) ->
  scores_descending (chroma_search encode query s text top_k filter_dict).
Proof.
  intros Hq. unfold chroma_search.
  destruct (client s !! collection s) as [rows|]; [|constructor].
  destruct (query rows (encode text) top_k filter_dict) as [hits|] eqn:E; [|constructor].
  apply Hq in E. unfold scores_descending.
  induction E as [|h hits Hs IH Hall]; simpl; constructor; [assumption|].
  apply Forall_fmap. eapply Forall_impl; [exact Hall|].
  simpl. intros x Hx. unfold Qminus. apply Qplus_le_r. now apply Qopp_le_compat.
Qed.

(** ** Saves and restarts *)

Lemma current_disk_restart cfg d : current_disk (_initialize_db cfg d) = d.
Proof.
  unfold _initialize_db. destruct (index_file d) as [ix|]; [|reflexivity].
  unfold _load_index. simpl. destruct (metadata_file d) as [[|m]|]; reflexivity.
Qed.

Lemma config_initialize_db cfg d : config (_initialize_db cfg d) = cfg.
Proof.
  unfold _initialize_db. destruct (index_file d) as [ix|]; [|reflexivity].
  unfold _load_index. simpl. destruct (metadata_file d) as [[|m]|]; reflexivity.
Qed.

Lemma io_initialize_db cfg d : io (_initialize_db cfg d) = [].
Proof.
  unfold _initialize_db. destruct (index_file d) as [ix|]; [|reflexivity].
  unfold _load_index. simpl. destruct (metadata_file d) as [[|m]|]; reflexivity.
Qed.

Lemma restart_from_snapshot cfg ix docs m1 m2 :
  let d := {| index_file := Some ix;
              metadata_file := Some (Json (MetadataJson docs m1 m2)) |} in
  _initialize_db cfg d = FaissDB cfg ix docs m1 m2 d [] [].
Proof. reflexivity. Qed.

Lemma collect_results_ext s1 s2 f hits :
  document_store s1 = document_store s2 -> index_to_id s1 = index_to_id s2 ->
  collect_results s1 f hits = collect_results s2 f hits.
Proof.
  intros Hd Hi. induction hits as [|[sc idx] hits IH]; simpl; [reflexivity|].
  rewrite Hd, Hi, IH. reflexivity.
Qed.

Lemma collect_results_no_ids s filter_dict hits :
  index_to_id s = ∅ -> collect_results s filter_dict hits = [].
Proof.
  intros He. induction hits as [|[sc idx] hits IH]; simpl; [reflexivity|].
  rewrite He, lookup_empty, IH. now destruct (Z.eqb idx (-1)).
Qed.

Section Persistence.
Variable encode : string -> vec.
Variable normalize_L2 : vec -> vec.

Lemma search_ext s1 s2 query top_k filter_dict :
  config s1 = config s2 -> index s1 = index s2 ->
  document_store s1 = document_store s2 -> index_to_id s1 = index_to_id s2 ->
  search encode normalize_L2 s1 query top_k filter_dict =
  search encode normalize_L2 s2 query top_k filter_dict.
Proof.
  intros Hc Hx Hd Hi. unfold search, query_embedding. rewrite Hc, Hx.
  destruct (checked_search _ _ _); [|reflexivity]. now apply collect_results_ext.
Qed.

(** What [_rebuild_index] writes: a save of the state it leaves, or
    nothing when the re-insertion is refused. *)
Lemma rebuild_saves_or_not s :
  (exists x, _rebuild_index encode normalize_L2 s = _save_index x /\
             writes x = writes s /\ files x = files s /\ io x = io s) \/
  (_rebuild_index encode normalize_L2 s = rebuild_start s /\
   document_store s <> [] /\ ~ store_fits encode normalize_L2 s).
Proof.
  destruct (decide (document_store s = [])) as [Hs|Hne].
  - left. rewrite (rebuild_empty _ _ s Hs). eexists. repeat split.
  - destruct (index_add (fresh_index s)
                (embed encode normalize_L2 s
                   (map (fun e => st_content (snd e)) (document_store s))))
      as [ix|] eqn:Hix.
    + left. rewrite (rebuild_unfold _ _ s ix Hne Hix).
      match goal with |- context [store_metadata ?s' ?n' ?docs] =>
        destruct (store_metadata_frame s' n' docs) as (_ & _ & Ff & Fw);
        pose proof (store_metadata_io s' n' docs) as Fo end.
      eexists. split; [reflexivity|]. split; [exact Fw|]. split; [exact Ff | exact Fo].
    + right. split; [now apply rebuild_refused|]. split; [exact Hne|].
      intros Hfit. rewrite (rebuild_fits _ _ s Hfit Hne) in Hix. discriminate.
Qed.

Lemma rebuild_saves_from s :
  store_fits encode normalize_L2 s ->
  exists x, _rebuild_index encode normalize_L2 s = _save_index x /\
            writes x = writes s /\ files x = files s /\ io x = io s.
Proof.
  intros Hfit. destruct (rebuild_saves_or_not s) as [H|(_ & _ & H)]; [exact H | tauto].
Qed.

(** The ways through [delete_document]: the id is not stored, a mapping
    lacks its key, or the index is rebuilt. *)
Lemma delete_document_cases s i :
  (snd (delete_document encode normalize_L2 s i) = false /\
   config (fst (delete_document encode normalize_L2 s i)) = config s /\
   files (fst (delete_document encode normalize_L2 s i)) = files s /\
   writes (fst (delete_document encode normalize_L2 s i)) = writes s /\
   io (fst (delete_document encode normalize_L2 s i)) = io s) \/
  (exists d, PyDict.get (document_store s) i = Some d /\
     delete_document encode normalize_L2 s i =
     (_rebuild_index encode normalize_L2 (without s i (st_faiss_index d)), true)).
Proof.
  unfold delete_document.
  destruct (PyDict.get (document_store s) i) as [d|]; [|left; repeat split].
  simpl. destruct (id_to_index s !! i); [|left; repeat split].
  simpl. destruct (index_to_id s !! py_str (st_faiss_index d)); [|left; repeat split].
  right. exists d. split; reflexivity.
Qed.

(** A call that returns [True] ends with [_save_index], unless it is a
    deletion whose re-insertion is refused. *)
Lemma perform_saves s c :
  store_fits encode normalize_L2 s ->
  succeeds encode normalize_L2 s c = true ->
  exists x, perform encode normalize_L2 s c = _save_index x /\
            writes x = writes s /\ files x = files s /\ io x = io s.
Proof.
  intros Hfit. destruct c as [docs|i|]; simpl; intros Hok.
  - apply add_documents_true in Hok as (texts & ix & _ & _ & _ & _ & E).
    rewrite E. simpl.
    match goal with |- context [store_metadata ?s' ?n' ?d'] =>
      destruct (store_metadata_frame s' n' d') as (_ & _ & Ff & Fw);
      pose proof (store_metadata_io s' n' d') as Fo end.
    eexists. split; [reflexivity|]. split; [exact Fw|]. split; [exact Ff | exact Fo].
  - destruct (delete_document_cases s i) as [(E & _)|(d & _ & E)];
      [rewrite E in Hok; discriminate|].
    rewrite E. cbn [fst].
    destruct (rebuild_saves_from (without s i (st_faiss_index d)))
      as (x & Hx & Hw & Hf & Ho); [now apply store_fits_without|].
    exists x. split; [exact Hx|]. split; [exact Hw|]. split; [exact Hf | exact Ho].
  - eexists. split; [reflexivity|]. repeat split.
Qed.

(** Whatever a call writes is the beginning of a save of the state it
    leaves. *)
Lemma perform_writes s c :
  files (perform encode normalize_L2 s c) = files s /\
  exists n, (n <= 3)%nat /\
    writes (perform encode normalize_L2 s c) =
    writes s ++ take n (save_steps (perform encode normalize_L2 s c)).
Proof.
  assert (Hsave : forall x, writes x = writes s -> files x = files s ->
            files (_save_index x) = files s /\
            exists n, (n <= 3)%nat /\
              writes (_save_index x) = writes s ++ take n (save_steps (_save_index x))).
  { intros x Hw Hf. split; [exact Hf|].
    destruct (writes_save x) as (_ & n & Hn & E). exists n. split; [exact Hn|].
    rewrite E, Hw. reflexivity. }
  assert (Hnone : forall x, writes x = writes s -> files x = files s ->
            files x = files s /\
            exists n, (n <= 3)%nat /\ writes x = writes s ++ take n (save_steps x)).
  { intros x Hw Hf. split; [exact Hf|]. exists 0%nat. split; [lia|].
    rewrite Hw. simpl. now rewrite app_nil_r. }
  destruct c as [docs|i|]; unfold perform.
  - destruct (add_documents_cases encode normalize_L2 s docs)
      as [E|(texts & ix & _ & _ & E)]; rewrite E; [now apply Hnone|]. cbv zeta.
    match goal with |- context [store_metadata ?s' ?n' ?d'] =>
      destruct (store_metadata_frame s' n' d') as (_ & _ & Ff & Fw);
      destruct (snd (store_metadata s' n' d')) end; simpl fst;
      [apply Hsave | apply Hnone]; assumption.
  - destruct (delete_document_cases s i) as [(_ & _ & Hf & Hw & _)|(d & _ & E)].
    + now apply Hnone.
    + rewrite E. cbn [fst].
      destruct (rebuild_saves_or_not (without s i (st_faiss_index d)))
        as [(x & Hx & Hw & Hf & _)|(Hx & _)]; rewrite Hx.
      * now apply Hsave.
      * now apply Hnone.
  - unfold clear_collection. cbn [fst]. now apply Hsave.
Qed.

(** A call that returns [False] writes nothing. *)
Lemma perform_fails s c :
  succeeds encode normalize_L2 s c = false ->
  writes (perform encode normalize_L2 s c) = writes s /\
  files (perform encode normalize_L2 s c) = files s.
Proof.
  destruct c as [docs|i|]; simpl; intros Hok.
  - destruct (add_documents_cases encode normalize_L2 s docs)
      as [E|(texts & ix & _ & _ & E)]; rewrite E in *; [now split|]. cbv zeta in *.
    match goal with |- context [store_metadata ?s' ?n' ?d'] =>
      destruct (store_metadata_frame s' n' d') as (_ & _ & Ff & Fw);
      destruct (snd (store_metadata s' n' d')) end; [discriminate|].
    split; assumption.
  - destruct (delete_document_cases s i) as [(_ & _ & Hf & Hw & _)|(d & _ & E)];
      [now split|].
    rewrite E in Hok. discriminate.
  - discriminate.
Qed.

Lemma config_perform s c : config (perform encode normalize_L2 s c) = config s.
Proof.
  destruct c as [docs|i|]; simpl.
  - destruct (add_documents_cases encode normalize_L2 s docs)
      as [E|(texts & ix & _ & _ & E)]; rewrite E; [reflexivity|]. cbv zeta.
    match goal with |- context [store_metadata ?s' ?n' ?d'] =>
      destruct (store_metadata_frame s' n' d') as (_ & Fc & _);
      destruct (snd (store_metadata s' n' d')) end; exact Fc.
  - destruct (delete_document_cases s i) as [(_ & Hc & _)|(d & _ & E)]; [exact Hc|].
    rewrite E. cbn [fst]. now rewrite rebuild_config.
  - reflexivity.
Qed.

Lemma io_perform s c : io s = [] -> io (perform encode normalize_L2 s c) = [].
Proof.
  intros Hio. destruct c as [docs|i|]; simpl.
  - destruct (add_documents_cases encode normalize_L2 s docs)
      as [E|(texts & ix & _ & _ & E)]; rewrite E; [exact Hio|]. cbv zeta.
    match goal with |- context [store_metadata ?s' ?n' ?d'] =>
      pose proof (store_metadata_io s' n' d') as Fo;
      destruct (snd (store_metadata s' n' d')) end; simpl.
    + rewrite Fo. simpl. now rewrite Hio.
    + rewrite Fo. exact Hio.
  - destruct (delete_document_cases s i) as [(_ & _ & _ & _ & Ho)|(d & _ & E)];
      [now rewrite Ho|].
    rewrite E. cbn [fst].
    destruct (rebuild_saves_or_not (without s i (st_faiss_index d)))
      as [(x & Hx & _ & _ & Ho)|(Hx & _)]; rewrite Hx; simpl.
    + rewrite Ho. simpl. now rewrite Hio.
    + exact Hio.
  - simpl. now rewrite Hio.
Qed.

(** What a call returns and what it leaves in memory do not depend on
    the files, nor on what the file system does to the save. *)
Lemma store_metadata_same a b n docs :
  same_memory a b ->
  snd (store_metadata a n docs) = snd (store_metadata b n docs) /\
  same_memory (fst (store_metadata a n docs)) (fst (store_metadata b n docs)).
Proof.
  revert a b n. induction docs as [|d docs IH]; intros a b n Hs; simpl; [now split|].
  destruct (doc_id d) as [i|]; [|now split].
  destruct (doc_content d) as [t|]; [|now split].
  apply IH. destruct Hs as (Hc & Hi & Hd & H1 & H2).
  repeat split; simpl; unfold fresh_index; congruence.
Qed.

Lemma add_documents_same s1 s2 docs :
  same_memory s1 s2 ->
  snd (add_documents encode normalize_L2 s1 docs) =
  snd (add_documents encode normalize_L2 s2 docs) /\
  same_memory (fst (add_documents encode normalize_L2 s1 docs))
              (fst (add_documents encode normalize_L2 s2 docs)).
Proof.
  intros Hs. pose proof Hs as (Hc & Hi & _).
  unfold add_documents. destruct (texts_of docs) as [texts|]; [|now split].
  cbv zeta. rewrite (embed_config encode normalize_L2 s1 s2 texts Hc), Hi.
  destruct (index_add (index s2) (embed encode normalize_L2 s2 texts)) as [ix|];
    [|now split].
  destruct (store_metadata_same (with_index s1 ix) (with_index s2 ix)
              (ntotal (index s2)) docs) as [Eb Hm].
  { destruct Hs as (? & ? & ? & ? & ?). repeat split; simpl; unfold fresh_index; congruence. }
  destruct (store_metadata (with_index s1 ix) (ntotal (index s2)) docs) as [x1 b1].
  destruct (store_metadata (with_index s2 ix) (ntotal (index s2)) docs) as [x2 b2].
  simpl in Eb, Hm. subst b2. destruct b1; simpl; split; auto.
Qed.

Lemma rebuild_same s1 s2 :
  same_memory s1 s2 ->
  same_memory (_rebuild_index encode normalize_L2 s1) (_rebuild_index encode normalize_L2 s2).
Proof.
  intros Hs. pose proof Hs as (Hc & Hi & Hd & H1 & H2).
  destruct (decide (document_store s1 = [])) as [He|Hne].
  - rewrite (rebuild_empty _ _ s1 He), (rebuild_empty _ _ s2) by congruence.
    repeat split; simpl; unfold fresh_index; congruence.
  - rewrite (rebuild_add _ _ s1 Hne), (rebuild_add _ _ s2) by congruence.
    rewrite Hd. apply add_documents_same. repeat split; simpl; unfold fresh_index; congruence.
Qed.

Lemma perform_same s1 s2 c :
  same_memory s1 s2 ->
  succeeds encode normalize_L2 s1 c = succeeds encode normalize_L2 s2 c /\
  same_memory (perform encode normalize_L2 s1 c) (perform encode normalize_L2 s2 c).
Proof.
  intros Hs. destruct c as [docs|i|]; simpl.
  - now apply add_documents_same.
  - pose proof Hs as (Hc & Hi & Hd & H1 & H2).
    unfold delete_document. rewrite Hd.
    destruct (PyDict.get (document_store s2) i) as [d|]; [|now split].
    cbv zeta. simpl. rewrite H1.
    destruct (id_to_index s2 !! i); simpl.
    + rewrite H2. destruct (index_to_id s2 !! py_str (st_faiss_index d)); simpl.
      * split; [reflexivity|]. apply rebuild_same. repeat split; simpl; unfold fresh_index; congruence.
      * split; [reflexivity|]. repeat split; simpl; unfold fresh_index; congruence.
    + split; [reflexivity|]. repeat split; simpl; unfold fresh_index; congruence.
  - split; [reflexivity|]. destruct Hs as (Hc & _). repeat split; simpl; unfold fresh_index; congruence.
Qed.

(** With no failing write ahead, a call leaves the files alone or leaves
    them as a copy of the state it ends in. *)
Lemma perform_disk s c :
  io s = [] -> store_fits encode normalize_L2 s ->
  let s' := perform encode normalize_L2 s c in
  current_disk s' = current_disk s \/
  current_disk s' =
    {| index_file := Some (index s');
       metadata_file :=
         Some (Json (MetadataJson (document_store s') (id_to_index s') (index_to_id s'))) |}.
Proof.
  intros Hio Hfit s'. destruct (succeeds encode normalize_L2 s c) eqn:Hok.
  - right. destruct (perform_saves s c Hfit Hok) as (x & Hx & _ & _ & Ho).
    subst s'. rewrite Hx. rewrite current_disk_save; [reflexivity|].
    apply next_save_nil. now rewrite Ho.
  - left. destruct (perform_fails s c Hok) as [Hw Hf].
    subst s'. unfold current_disk. now rewrite Hw, Hf.
Qed.

(** The invariant holds in every state of operation without crash and
    without failing write, restarts included; and a restart would find it
    again. *)
Lemma reachable_inv s :
  reachable encode normalize_L2 s ->
  wf s /\ fitting encode normalize_L2 s /\ io s = [] /\
  wf (_initialize_db (config s) (current_disk s)) /\
  fitting encode normalize_L2 (_initialize_db (config s) (current_disk s)).
Proof.
  induction 1 as [cfg | s c _ (Hwf & Hfit & Hio & Hwr & Hfr) | s _ (Hwf & Hfit & Hio & Hwr & Hfr)].
  - rewrite current_disk_restart, config_initialize_db.
    pose proof (wf_initial cfg) as Hw.
    pose proof (fitting_initial encode normalize_L2 cfg) as Hf.
    split; [exact Hw|]. split; [exact Hf|]. split; [reflexivity|]. split; assumption.
  - pose proof (wf_perform encode normalize_L2 s c Hwf Hfit) as Hwf'.
    pose proof (fitting_perform encode normalize_L2 s c Hfit) as Hfit'.
    split; [exact Hwf'|]. split; [exact Hfit'|]. split; [now apply io_perform|].
    rewrite config_perform.
    destruct (perform_disk s c Hio (proj2 Hfit)) as [E|E]; rewrite E.
    + split; assumption.
    + rewrite restart_from_snapshot.
      destruct Hwf' as [Hnd Hok]. destruct Hfit' as [Hdim Hst].
      split; [split; assumption|]. split.
      * simpl. now rewrite Hdim, config_perform.
      * unfold store_fits in *. simpl. rewrite config_perform in Hst.
        eapply Forall_impl; [exact Hst|]. simpl. intros e He. rewrite <- He.
        f_equal. f_equal. apply prepare_config. simpl. now rewrite config_perform.
  - rewrite current_disk_restart, config_initialize_db.
    split; [exact Hwr|]. split; [exact Hfr|]. split; [apply io_initialize_db|].
    split; assumption.
Qed.

Lemma reachable_wf s : reachable encode normalize_L2 s -> wf s.
Proof. intros H. now apply reachable_inv in H. Qed.

End Persistence.

(** ** Specified properties *)

(** A batch of vectors of the index's dimension is taken. *)
Lemma add_documents_accepted encode normalize_L2 s docs texts :
  texts_of docs = Some texts -> texts <> [] ->
  forallb (accepts (index s)) (embed encode normalize_L2 s texts) = true ->
  add_documents encode normalize_L2 s docs =
  let r := store_metadata
             (with_index s
                {| family := family (index s); dim := dim (index s);
                   vectors := vectors (index s) ++ embed encode normalize_L2 s texts |})
             (ntotal (index s)) docs in
  if snd r then (_save_index (fst r), true) else (fst r, false).
Proof.
  intros Ht Hne Hacc. apply (add_documents_unfold _ _ _ _ texts); [exact Ht|].
  apply index_add_accepts; [|exact Hacc].
  intros E. apply (f_equal length) in E. rewrite length_embed in E.
  destruct texts; [congruence | discriminate].
Qed.

(** *** Identifier bookkeeping *)

(** C1. After any sequence of [add_documents]/[delete_document] calls the
    two mappings are inverse to each other and as large as the document
    store, also when an id that is already stored is added again.

    The code does not keep this: [add_documents] overwrites the entry of
    the id in [document_store] and in [id_to_index] and leaves the entry
    of the old position in [index_to_id], whereas [delete_document]
    removes both.  Evaluated on two calls that add the id ["doc1"], for
    any encoder of the configured dimension: one live document, one entry
    in [id_to_index], two in [index_to_id], position 0 still mapped to
    ["doc1"].  Runs in which every added id is new do keep the bijection
    ([bijection_run]). *)
Theorem readding_a_stored_id_breaks_the_bijection encode normalize_L2 :
  length (normalize_L2 (encode "a")) = 384%nat ->
  length (normalize_L2 (encode "b")) = 384%nat ->
  let s := run encode normalize_L2 Demo.fresh
             [ AddDocuments [Demo.doc "doc1" "a"];
               AddDocuments [Demo.doc "doc1" "b"] ] in
  length (document_store s) = 1%nat /\
  size (id_to_index s) = 1%nat /\
  size (index_to_id s) = 2%nat /\
  id_to_index s !! "doc1" = Some 1 /\
  index_to_id s !! "0" = Some "doc1" /\
  index_to_id s !! "1" = Some "doc1" /\
  ~ bijection s.
Proof.
  intros Ha Hb s. subst s. unfold run. cbn [fold_left perform].
  rewrite (add_documents_accepted encode normalize_L2 Demo.fresh _ ["a"]);
    [|reflexivity | discriminate | unfold accepts; simpl; rewrite Ha; reflexivity].
  cbv zeta. cbn [store_metadata Demo.doc doc_id doc_content snd fst].
  rewrite (add_documents_accepted encode normalize_L2 _ _ ["b"]);
    [|reflexivity | discriminate | unfold accepts; simpl; rewrite Hb; reflexivity].
  match goal with |- length (document_store ?t) = _ /\ _ => set (s := t) end.
  assert (H3 : size (index_to_id s) = 2%nat) by (vm_compute; reflexivity).
  repeat split; try (vm_compute; reflexivity).
  intros [_ _ _ _ Hsize]. rewrite H3 in Hsize. vm_compute in Hsize. discriminate.
Qed.

Lemma readding_a_stored_id_breaks_the_bijection_witness :
  ~ bijection (run Demo.encode Demo.normalize_L2 Demo.fresh
                 [ AddDocuments [Demo.doc "doc1" "a"];
                   AddDocuments [Demo.doc "doc1" "b"] ]).
Proof.
  apply (readding_a_stored_id_breaks_the_bijection Demo.encode Demo.normalize_L2);
    reflexivity.
Defined.

(** *** Atomicity of [add_documents] *)

(** C2. [add_documents] is atomic per call: either the whole batch is
    visible afterwards or nothing is, and a call that reports failure
    leaves the state in memory unchanged.

    The code is not: it reads [doc["id"]] inside the metadata loop, after
    [index.add] has taken the whole batch, and its handler only returns
    [False].  Evaluated on a new collection and a batch whose second
    document has no ["id"]: the call returns [False], the raw index holds
    two vectors, ["doc1"] is stored and mapped.  The Chroma adapter reads
    every id before it calls the engine, and leaves its collection as it
    was on the same batch. *)
Theorem add_documents_failure_keeps_partial_state :
  let r := add_documents Demo.encode Demo.normalize_L2 Demo.fresh
             [Demo.doc "doc1" "a"; Demo.without_id "b"] in
  snd r = false /\
  fst r <> Demo.fresh /\
  ntotal (index (fst r)) = 2 /\
  PyDict.keys (document_store (fst r)) = ["doc1"] /\
  size (index_to_id (fst r)) = 1%nat /\
  chroma_add_documents Demo.encode Scenario.append_rows Demo.chroma_two
    [Demo.doc "doc1" "a"; Demo.without_id "b"] = (Demo.chroma_two, false).
Proof.
  intros r. repeat split; try (vm_compute; reflexivity).
  intros H. apply (f_equal (fun s => ntotal (index s))) in H.
  vm_compute in H. discriminate.
Qed.

(** *** Order of the results *)

(** C3. For every backend and index family the results are in order of
    decreasing score, and a higher score is a better match.

    With [IndexFlatL2] the FAISS backend passes the distance on as the
    score, where the Chroma adapter converts it ([chroma_result]): the
    nearest document comes first with the lowest score.  Evaluated on two
    documents and a query equal to the first one.  The inner-product index
    and the Chroma adapter do give decreasing scores
    ([search_inner_product_descending], [chroma_search_descending]); any
    L2 index gives increasing ones ([search_l2_ascending]). *)
Theorem flat_l2_search_returns_lowest_score_first :
  let s := fst (add_documents Demo.encode Demo.normalize_L2 Demo.fresh_l2
                  [Demo.doc "near" "a"; Demo.doc "far" "b"]) in
  let rs := search Demo.encode Demo.normalize_L2 s "a" 2 None in
  map (fun r => (id r, score r)) rs = [("near", 0%Q); ("far", 2%Q)] /\
  ~ scores_descending rs.
Proof.
  intros s rs.
  assert (H : map (fun r => (id r, score r)) rs = [("near", 0%Q); ("far", 2%Q)])
    by (vm_compute; reflexivity).
  split; [exact H|]. intros Hs. unfold scores_descending in Hs.
  assert (Hm : StronglySorted (fun a b : string * Q => (snd b <= snd a)%Q)
                 (map (fun r => (id r, score r)) rs)).
  { clear H. induction Hs as [|x l Hl IH Hall]; simpl; constructor; [assumption|].
    apply Forall_fmap. exact Hall. }
  rewrite H in Hm. apply StronglySorted_inv in Hm as [_ Hm].
  apply Forall_cons in Hm as [Hm _]. simpl in Hm.
  apply Qle_bool_iff in Hm. vm_compute in Hm. discriminate.
Qed.

(** *** Metadata filter *)

(** C4. The filter is applied to the candidates the raw index returned for
    [top_k]: a candidate that fails it is passed over, so fewer than
    [top_k] results may come back.  Every result satisfies every key/value
    pair of the filter; the results with a filter are the results without
    it, restricted to the documents that pass; and with A (tag x), B (tag
    y), C (tag x) stored, a search with [top_k = 3] and the filter tag = x
    returns A and C only, best score first, whatever the encoder of the
    configured dimension. *)
Theorem search_filter_semantics encode normalize_L2 :
  (forall s query top_k f r,
     r ∈ search encode normalize_L2 s query top_k (Some f) ->
     forall k v, (k, v) ∈ f -> dict_get (metadata r) k = v) /\
  (forall s query top_k filter_dict,
     search encode normalize_L2 s query top_k filter_dict =
     List.filter (fun r => passes_filter filter_dict (metadata r))
       (search encode normalize_L2 s query top_k None)) /\
  (forall ta tb tc query,
     length (normalize_L2 (encode ta)) = 384%nat ->
     length (normalize_L2 (encode tb)) = 384%nat ->
     length (normalize_L2 (encode tc)) = 384%nat ->
     length (normalize_L2 (encode query)) = 384%nat ->
     let rs := search encode normalize_L2 (three_tagged encode normalize_L2 ta tb tc)
                 query 3 (Some [("tag", VStr "x")]) in
     map id rs ≡ₚ ["A"; "C"] /\ scores_descending rs).
Proof.
  split; [|split].
  - intros s query top_k f r Hr k v Hkv. apply search_elem in Hr as [_ Hr].
    apply collect_results_elem in Hr as (sc & idx & d & _ & _ & _ & _ & Hp & Hr).
    rewrite Hr. simpl. eapply passes_filter_spec; eassumption.
  - intros s query top_k filter_dict.
    destruct (accepts (index s) (query_embedding encode normalize_L2 s query)) eqn:E.
    + rewrite !(search_accepted _ _ _ _ _ _ E). apply collect_results_post_filter.
    + now rewrite !(search_refused _ _ _ _ _ _ E).
  - intros ta tb tc query Hta Htb Htc Hq rs. subst rs. unfold three_tagged.
    rewrite (add_documents_accepted encode normalize_L2 Demo.fresh _ [ta; tb; tc]);
      [|reflexivity | discriminate
       |unfold accepts; simpl; rewrite Hta, Htb, Htc; reflexivity].
    cbv zeta. cbn [store_metadata Demo.tagged doc_id doc_content snd fst].
    match goal with |- context [search _ _ ?t _ _ _] => set (s := t) end.
    assert (Hacc : accepts (index s) (query_embedding encode normalize_L2 s query) = true).
    { unfold accepts, query_embedding. subst s. simpl. rewrite Hq. reflexivity. }
    split.
    + rewrite (search_ranked_hits _ _ _ _ _ _ Hacc).
      unfold ranked_hits.
      set (q := query_embedding encode normalize_L2 s query).
      change (vectors (index s))
        with [normalize_L2 (encode ta); normalize_L2 (encode tb); normalize_L2 (encode tc)].
      change (family (index s)) with IndexFlatIP.
      cbn [candidates_from].
      destruct (rank_three IndexFlatIP
                  (raw_score IndexFlatIP q (normalize_L2 (encode ta)), 0)
                  (raw_score IndexFlatIP q (normalize_L2 (encode tb)), 0 + 1)
                  (raw_score IndexFlatIP q (normalize_L2 (encode tc)), 0 + 1 + 1))
        as [E|[E|[E|[E|[E|E]]]]]; rewrite E; vm_compute;
        first [reflexivity | apply Permutation_swap].
    + apply search_inner_product_descending. reflexivity.
Qed.

Lemma search_filter_semantics_witness :
  dict_get (metadata Demo.tagged_hit) "tag" = VStr "x" /\
  map id (search Demo.encode Demo.normalize_L2
            (three_tagged Demo.encode Demo.normalize_L2 "a" "b" "c")
            "a" 3 (Some [("tag", VStr "x")])) ≡ₚ ["A"; "C"].
Proof.
  destruct (search_filter_semantics Demo.encode Demo.normalize_L2) as (H & _ & H3).
  split.
  - apply (H (three_tagged Demo.encode Demo.normalize_L2 "a" "b" "c") "a" 3%nat
             [("tag", VStr "x")] Demo.tagged_hit).
    + vm_compute. apply list_elem_of_here.
    + apply list_elem_of_here.
  - apply (H3 "a" "b" "c" "a"); reflexivity.
Defined.

(** *** Deletion *)

(** C5. Deleting a stored document removes it from the store and from
    both mappings and rebuilds the raw index from the remaining
    documents; [total_documents] drops by one and the document is found
    no more.

    [delete_document] removes the entry of the document's current position
    from [index_to_id]; the entry that a second [add_documents] of the
    same id has left behind under the earlier position stays (the defect
    of C1).  Evaluated on a new collection to which ["doc1"] is added
    twice and then deleted: the call returns [True], the store and
    [id_to_index] are empty, and [index_to_id] still maps position 0 to
    ["doc1"]. *)
Theorem deleting_a_readded_id_leaves_it_in_index_to_id :
  let s0 := run Demo.encode Demo.normalize_L2 Demo.fresh
              [ AddDocuments [Demo.doc "doc1" "a"];
                AddDocuments [Demo.doc "doc1" "b"] ] in
  let r := delete_document Demo.encode Demo.normalize_L2 s0 "doc1" in
  PyDict.keys (document_store s0) = ["doc1"] /\
  snd r = true /\
  document_store (fst r) = [] /\
  size (id_to_index (fst r)) = 0%nat /\
  size (index_to_id (fst r)) = 1%nat /\
  index_to_id (fst r) !! "0" = Some "doc1".
Proof. intros s0 r. repeat split; vm_compute; reflexivity. Qed.

(** C6. [delete_document] returns [false] exactly when the id is unknown,
    leaving the state unchanged, on both backends.

    The FAISS backend does ([delete_document_unknown],
    [delete_document_known]).  The Chroma adapter returns [true] whenever
    the engine call does not raise, and deleting an id without rows does
    not raise: evaluated on a collection that holds ["doc1"] and ["doc2"],
    deleting ["ghost"] returns [true]. *)
Theorem chroma_delete_document_unknown_id_returns_true :
  Forall (fun r => Chroma.row_id r <> "ghost")
    (default [] (client Demo.chroma_two !! collection Demo.chroma_two)) /\
  chroma_delete_document Demo.chroma_two "ghost" = (Demo.chroma_two, true).
Proof.
  split.
  - vm_compute. repeat constructor; discriminate.
  - vm_compute. reflexivity.
Qed.

Lemma chroma_delete_document_ignores_presence s document_id :
  is_Some (client s !! collection s) ->
  snd (chroma_delete_document s document_id) = true.
Proof.
  intros [rows H]. unfold chroma_delete_document. now rewrite H.
Qed.

(** *** Persistence *)

(** C7, as stated: the metadata file is replaced atomically after the
    index file is written, so that after a crash between the two writes a
    metadata file that parses refers to an index file at least as
    complete.  [_save_index] rewrites the metadata file in place, and a
    deletion writes a smaller index first: after adding two documents and
    deleting one, a crash right after the index write leaves a metadata
    file that names position 1 next to an index file of one vector; one
    step later the metadata file is empty. *)
Lemma crash_during_delete_not_recoverable :
  length (writes Demo.after_delete) = 6%nat /\
  (ntotal <$> index_file (disk_after Demo.after_delete 4)) = Some 1 /\
  ~ recoverable (disk_after Demo.after_delete 4) /\
  metadata_file (disk_after Demo.after_delete 5) = Some Truncated.
Proof.
  split; [vm_compute; reflexivity|]. split; [vm_compute; reflexivity|].
  split; [|vm_compute; reflexivity].
  intros H. vm_compute in H.
  apply Forall_cons in H as [_ H]. apply Forall_cons in H as [[_ H] _].
  discriminate.
Qed.

(** C7, amended.  A save writes the index file first and then rewrites
    the metadata file in place (truncate, then dump), with the state the
    call leaves in memory; no temporary file is written and nothing is
    renamed.  What the call returns and what it leaves in memory do not
    depend on the save: a write that raises is logged and the call still
    returns [True].  And after a crash between the two writes of a
    successful [add_documents] whose index write went through, a metadata
    file that parses refers only to positions the index file holds,
    provided it referred only to positions of the raw index in memory
    before the call.

    The first part is for a state whose stored contents embed to the
    configured dimension: otherwise a deletion returns [True] without
    reaching the save. *)
Theorem save_writes_index_then_metadata encode normalize_L2 :
  (forall s c,
     store_fits encode normalize_L2 s ->
     succeeds encode normalize_L2 s c = true ->
     next_save s = AllWritten ->
     let s' := perform encode normalize_L2 s c in
     writes s' =
     writes s ++
       [ WriteIndex (index s'); OpenTruncate;
         Dump (MetadataJson (document_store s') (id_to_index s') (index_to_id s')) ]) /\
  (forall s c plan,
     succeeds encode normalize_L2 (with_io s plan) c = succeeds encode normalize_L2 s c /\
     same_memory (perform encode normalize_L2 (with_io s plan) c)
                 (perform encode normalize_L2 s c)) /\
  (forall s documents,
     disk_covered s ->
     snd (add_documents encode normalize_L2 s documents) = true ->
     next_save s <> WriteIndexRaises ->
     recoverable
       (disk_after (fst (add_documents encode normalize_L2 s documents))
          (length (writes s) + 1))).
Proof.
  split; [|split].
  - intros s c Hfit Hok Hnext s'.
    destruct (perform_saves encode normalize_L2 s c Hfit Hok) as (x & Hx & Hw & _ & Ho).
    subst s'. rewrite Hx. simpl. unfold next_save in *. now rewrite Hw, Ho, Hnext.
  - intros s c plan. apply perform_same. repeat split.
  - intros s documents Hd Hok Hnext.
    apply add_documents_true in Hok as (texts & ix & Ht & Hix & _ & _ & E).
    rewrite E. cbn [fst].
    set (s1 := with_index s ix) in *.
    destruct (store_metadata_frame s1 (ntotal (index s)) documents) as (Fi & _ & Ff & Fw).
    pose proof (store_metadata_io s1 (ntotal (index s)) documents) as Fo.
    unfold disk_after. simpl. rewrite Fw, Ff.
    change (writes s1) with (writes s). change (files s1) with (files s).
    rewrite take_app_add. unfold next_save. rewrite Fo. change (io s1) with (io s).
    fold (next_save s).
    assert (Hone : take 1 (take (steps_written (next_save s))
                     (save_steps (fst (store_metadata s1 (ntotal (index s)) documents))))
                   = [WriteIndex (index s1)]).
    { unfold save_steps. rewrite Fi.
      destruct (next_save s); [reflexivity | congruence | reflexivity | reflexivity]. }
    rewrite Hone, fold_left_app. simpl.
    fold (current_disk s). unfold recoverable. simpl.
    unfold disk_covered in Hd.
    destruct (metadata_file (current_disk s)) as [[|m]|]; auto.
    eapply covers_mono; [|exact Hd]. unfold s1. simpl.
    rewrite (ntotal_index_add _ _ _ Hix). lia.
Qed.

Lemma wf_two_docs : wf Demo.two_docs.
Proof. apply wf_add_documents, wf_initial. Qed.

Lemma fitting_two_docs : fitting Demo.encode Demo.normalize_L2 Demo.two_docs.
Proof. apply fitting_add_documents, fitting_initial. Qed.

Lemma save_writes_index_then_metadata_witness :
  length (writes (perform Demo.encode Demo.normalize_L2 Demo.two_docs
                    (DeleteDocument "doc1"))) = 6%nat /\
  (succeeds Demo.encode Demo.normalize_L2 (with_io Demo.two_docs [OpenRaises])
     (AddDocuments [Demo.doc "doc3" "c"]) = true /\
   length (writes (perform Demo.encode Demo.normalize_L2
                     (with_io Demo.two_docs [OpenRaises])
                     (AddDocuments [Demo.doc "doc3" "c"]))) = 4%nat) /\
  recoverable
    (disk_after
       (fst (add_documents Demo.encode Demo.normalize_L2 Demo.two_docs
               [Demo.doc "doc3" "c"]))
       (length (writes Demo.two_docs) + 1)).
Proof.
  destruct (save_writes_index_then_metadata Demo.encode Demo.normalize_L2) as (H1 & H2 & H3).
  split; [|split].
  - rewrite (H1 Demo.two_docs (DeleteDocument "doc1"));
      [|apply fitting_two_docs | vm_compute; reflexivity | reflexivity].
    rewrite length_app. vm_compute. reflexivity.
  - destruct (H2 Demo.two_docs (AddDocuments [Demo.doc "doc3" "c"]) [OpenRaises]) as [E _].
    split; [rewrite E; vm_compute; reflexivity | vm_compute; reflexivity].
  - apply H3.
    + unfold disk_covered. vm_compute. repeat constructor; discriminate.
    + vm_compute. reflexivity.
    + discriminate.
Defined.

(** *** Clearing *)

Lemma chroma_clear_ready s :
  chroma_ready s ->
  chroma_clear_collection s =
  (ChromaDB (c_config s)
     (<[collection_name (c_config s) := []]>
        (delete (collection_name (c_config s)) (client s)))
     (collection_name (c_config s)), true).
Proof.
  intros [_ [rows Hrows]]. unfold chroma_clear_collection, Chroma.delete_collection.
  rewrite Hrows. unfold Chroma.create_collection. now rewrite lookup_delete_eq.
Qed.

Lemma chroma_ready_cleared s :
  chroma_ready s -> chroma_ready (fst (chroma_clear_collection s)).
Proof.
  intros H. rewrite (chroma_clear_ready s H). split; simpl; [reflexivity|].
  rewrite lookup_insert_eq. eauto.
Qed.

Lemma chroma_stats_cleared s :
  chroma_ready s ->
  c_total_documents <$> chroma_get_collection_stats (fst (chroma_clear_collection s)) = Some 0.
Proof.
  intros H. rewrite (chroma_clear_ready s H). unfold chroma_get_collection_stats. simpl.
  now rewrite lookup_insert_eq.
Qed.

(** C8. [clear_collection] called twice in a row returns [True] both times
    and leaves [total_documents] at 0 after each call: on the FAISS backend
    in every state, on the Chroma adapter in every state in which the
    configured collection exists, as it does after [__init__]. *)
Theorem clear_collection_idempotent :
  (forall s : FAISSVectorDB,
     let once := clear_collection s in
     let twice := clear_collection (fst once) in
     snd once = true /\ total_documents (get_collection_stats (fst once)) = 0 /\
     snd twice = true /\ total_documents (get_collection_stats (fst twice)) = 0) /\
  (forall s : ChromaVectorDB,
     chroma_ready s ->
     let once := chroma_clear_collection s in
     let twice := chroma_clear_collection (fst once) in
     snd once = true /\
     c_total_documents <$> chroma_get_collection_stats (fst once) = Some 0 /\
     snd twice = true /\
     c_total_documents <$> chroma_get_collection_stats (fst twice) = Some 0).
Proof.
  split.
  - intros s. simpl. auto.
  - intros s H once twice.
    pose proof (chroma_ready_cleared s H) as H1. fold once in H1.
    split; [unfold once; now rewrite (chroma_clear_ready s H)|].
    split; [now apply chroma_stats_cleared|].
    split; [unfold twice; now rewrite (chroma_clear_ready _ H1)|].
    now apply chroma_stats_cleared.
Qed.

Lemma clear_collection_idempotent_witness :
  snd (chroma_clear_collection (fst (chroma_clear_collection Demo.chroma_two))) = true /\
  c_total_documents <$>
    chroma_get_collection_stats
      (fst (chroma_clear_collection (fst (chroma_clear_collection Demo.chroma_two)))) = Some 0.
Proof.
  destruct clear_collection_idempotent as [_ H].
  destruct (H Demo.chroma_two) as (_ & _ & H3 & H4).
  - split; [reflexivity|]. vm_compute. eauto.
  - split; assumption.
Defined.

(** *** Choice of the backend *)

Lemma c_config_initialize_db cfg c db :
  chroma_initialize_db cfg c = Some db -> c_config db = cfg.
Proof.
  unfold chroma_initialize_db.
  destruct (Chroma.get_collection c (collection_name cfg)).
  - now intros [= <-].
  - destruct (Chroma.create_collection c (collection_name cfg)); [|discriminate].
    now intros [= <-].
Qed.

Lemma chroma_initialize_db_total cfg c : is_Some (chroma_initialize_db cfg c).
Proof.
  unfold chroma_initialize_db, Chroma.get_collection, Chroma.create_collection.
  destruct (c !! collection_name cfg); eauto.
Qed.

(** C9. When the configured kind is unavailable, [_create_database] sets
    [config.db_type] to the other kind and constructs that backend, which
    is the backend in use when its own prerequisites are met; a kind that
    is neither ["chroma"] nor ["faiss"] raises [ValueError] and leaves the
    configuration alone; and whenever a backend is returned,
    [config.db_type] names it and it is an available one. *)
Theorem create_database_fallback env w cfg :
  let r := _create_database env w cfg in
  (lower (db_type cfg) = "chroma" -> CHROMA_AVAILABLE env = false ->
     db_type (fst r) = "faiss" /\
     snd r = as_faiss (new_FAISSVectorDB env w (fst r)) /\
     (FAISS_AVAILABLE env = true -> SENTENCE_TRANSFORMERS_AVAILABLE env = true ->
        exists db, snd r = Returns (FaissBackend db) /\ config db = fst r)) /\
  (lower (db_type cfg) = "faiss" -> FAISS_AVAILABLE env = false ->
     db_type (fst r) = "chroma" /\
     snd r = as_chroma (new_ChromaVectorDB env w (fst r)) /\
     (CHROMA_AVAILABLE env = true -> SENTENCE_TRANSFORMERS_AVAILABLE env = true ->
        exists db, snd r = Returns (ChromaBackend db) /\ c_config db = fst r)) /\
  (lower (db_type cfg) <> "chroma" -> lower (db_type cfg) <> "faiss" ->
     r = (cfg, Raises (ValueError ("Unsupported database type: " +:+ db_type cfg)))) /\
  (forall b, snd r = Returns b ->
     lower (db_type (fst r)) = backend_kind b /\ backend_available env b = true).
Proof.
  intros r. subst r. unfold _create_database.
  split; [|split; [|split]].
  - intros Hk Hc. rewrite Hk, Hc. simpl. split; [reflexivity|]. split; [reflexivity|].
    intros Hf Hst. unfold new_FAISSVectorDB. rewrite Hf, Hst. simpl.
    eexists. split; [reflexivity|]. apply config_initialize_db.
  - intros Hk Hf. rewrite Hk, Hf. simpl. split; [reflexivity|]. split; [reflexivity|].
    intros Hc Hst. unfold new_ChromaVectorDB. rewrite Hc, Hst. simpl.
    destruct (chroma_initialize_db_total (set_db_type cfg "chroma") (w_client w)) as [db Hdb].
    rewrite Hdb. simpl. exists db. split; [reflexivity|].
    now apply c_config_initialize_db in Hdb.
  - intros Hc Hf. apply String.eqb_neq in Hc, Hf. now rewrite Hc, Hf.
  - intros b. destruct (String.eqb (lower (db_type cfg)) "chroma") eqn:Ec.
    + apply String.eqb_eq in Ec. destruct (CHROMA_AVAILABLE env) eqn:Hc; simpl.
      * unfold new_ChromaVectorDB. rewrite Hc. simpl.
        destruct (SENTENCE_TRANSFORMERS_AVAILABLE env); simpl; [|discriminate].
        destruct (chroma_initialize_db cfg (w_client w)); simpl; [|discriminate].
        intros [= <-]. simpl. auto.
      * unfold new_FAISSVectorDB. destruct (FAISS_AVAILABLE env) eqn:Hf; simpl; [|discriminate].
        destruct (SENTENCE_TRANSFORMERS_AVAILABLE env); simpl; [|discriminate].
        intros [= <-]. simpl. auto.
    + destruct (String.eqb (lower (db_type cfg)) "faiss") eqn:Ef; [|discriminate].
      apply String.eqb_eq in Ef. destruct (FAISS_AVAILABLE env) eqn:Hf; simpl.
      * unfold new_FAISSVectorDB. rewrite Hf. simpl.
        destruct (SENTENCE_TRANSFORMERS_AVAILABLE env); simpl; [|discriminate].
        intros [= <-]. simpl. auto.
      * unfold new_ChromaVectorDB. destruct (CHROMA_AVAILABLE env) eqn:Hc; simpl; [|discriminate].
        destruct (SENTENCE_TRANSFORMERS_AVAILABLE env); simpl; [|discriminate].
        destruct (chroma_initialize_db _ (w_client w)); simpl; [|discriminate].
        intros [= <-]. simpl. auto.
Qed.

Lemma create_database_fallback_witness :
  (db_type (fst (_create_database Demo.no_chroma Demo.empty_world default_config)) = "faiss" /\
   exists db,
     snd (_create_database Demo.no_chroma Demo.empty_world default_config)
       = Returns (FaissBackend db) /\
     config db = fst (_create_database Demo.no_chroma Demo.empty_world default_config)) /\
  (db_type (fst (_create_database Demo.no_faiss Demo.empty_world Demo.faiss_config))
     = "chroma" /\
   exists db,
     snd (_create_database Demo.no_faiss Demo.empty_world Demo.faiss_config)
       = Returns (ChromaBackend db) /\
     c_config db = fst (_create_database Demo.no_faiss Demo.empty_world Demo.faiss_config)) /\
  _create_database Demo.all_available Demo.empty_world Demo.milvus_config =
    (Demo.milvus_config, Raises (ValueError "Unsupported database type: milvus")) /\
  lower (db_type (fst (_create_database Demo.all_available Demo.empty_world default_config)))
    = "chroma".
Proof.
  split; [|split; [|split]].
  - destruct (create_database_fallback Demo.no_chroma Demo.empty_world default_config)
      as (H & _).
    destruct H as (H1 & _ & H3); [reflexivity | reflexivity |].
    split; [exact H1|]. apply H3; reflexivity.
  - destruct (create_database_fallback Demo.no_faiss Demo.empty_world Demo.faiss_config)
      as (_ & H & _).
    destruct H as (H1 & _ & H3); [reflexivity | reflexivity |].
    split; [exact H1|]. apply H3; reflexivity.
  - apply (create_database_fallback Demo.all_available Demo.empty_world Demo.milvus_config);
      discriminate.
  - destruct (create_database_fallback Demo.all_available Demo.empty_world default_config)
      as (_ & _ & _ & H).
    apply (H (ChromaBackend (ChromaDB default_config {["rag_documents" := []]}
                               "rag_documents"))).
    vm_compute. reflexivity.
Defined.

(** *** Results of a search *)

(** C10. A search returns at most [top_k] results; every result carries
    the id, content and metadata of a document in [document_store], and
    stems from a position of the raw index that [index_to_id] maps to that
    id; a position without an entry in [index_to_id] contributes nothing. *)
Theorem search_returns_live_documents encode normalize_L2 s query top_k filter_dict :
  (length (search encode normalize_L2 s query top_k filter_dict) <= top_k)%nat /\
  (forall r, r ∈ search encode normalize_L2 s query top_k filter_dict ->
     exists d idx,
       PyDict.get (document_store s) (id r) = Some d /\
       content r = st_content d /\
       metadata r = st_metadata d /\
       (score r, idx) ∈ index_search (index s) (query_embedding encode normalize_L2 s query) top_k /\
       idx <> -1 /\
       index_to_id s !! py_str idx = Some (id r)) /\
  (forall sc idx hits,
     index_to_id s !! py_str idx = None ->
     collect_results s filter_dict ((sc, idx) :: hits) =
     if Z.eqb idx (-1) then [] else collect_results s filter_dict hits).
Proof.
  split; [|split].
  - destruct (search_cases encode normalize_L2 s query top_k filter_dict) as [E|[_ E]];
      rewrite E; [simpl; lia|].
    eapply Nat.le_trans; [apply length_collect_results|].
    rewrite length_index_search. lia.
  - intros r Hr. apply search_elem in Hr as [_ Hr].
    apply collect_results_elem in Hr as (sc & idx & d & Hin & Hidx & Hi & Hd & _ & Hr).
    exists d, idx. rewrite Hr at 2 3 4. simpl. repeat split; auto.
  - intros sc idx hits H. now apply collect_results_skip.
Qed.

Lemma search_returns_live_documents_witness :
  (exists d idx,
     PyDict.get (document_store Demo.two_docs) "doc1" = Some d /\
     content Demo.first_hit = st_content d /\
     metadata Demo.first_hit = st_metadata d /\
     (score Demo.first_hit, idx) ∈
       index_search (index Demo.two_docs)
         (query_embedding Demo.encode Demo.normalize_L2 Demo.two_docs "a") 1 /\
     idx <> -1 /\
     index_to_id Demo.two_docs !! py_str idx = Some "doc1") /\
  collect_results Demo.two_docs None [(1%Q, 7); (0%Q, 0)] =
  collect_results Demo.two_docs None [(0%Q, 0)].
Proof.
  destruct (search_returns_live_documents Demo.encode Demo.normalize_L2
              Demo.two_docs "a" 1 None) as (_ & H & Hskip).
  split.
  - apply (H Demo.first_hit). vm_compute. apply list_elem_of_here.
  - apply (Hskip 1%Q 7 [(0%Q, 0)]). vm_compute. reflexivity.
Defined.

(** ** Further properties *)

Lemma truthy_nonempty i : truthy i = true <-> i <> "".
Proof. destruct i; simpl; split; congruence. Qed.

Lemma stored_ids_complete docs :
  Forall complete docs -> length (stored_ids docs) = length docs.
Proof.
  induction 1 as [|d docs [[i Hi] [t Ht]] _ IH]; simpl; [reflexivity|].
  rewrite Hi, Ht. simpl. now rewrite IH.
Qed.

Lemma one_call_brings_new_ids :
  new_ids_throughout Demo.encode Demo.normalize_L2 Demo.fresh Scenario.one_call.
Proof.
  simpl. split; [|exact I]. split.
  - apply NoDup_cons. split; [|apply NoDup_singleton].
    rewrite list_elem_of_singleton. discriminate.
  - intros i _. apply not_elem_of_nil.
Defined.

(** *** Search *)

(** X1. [search] returns at most [top_k] results and never more than the
    raw index holds vectors; over an empty index it returns nothing,
    whatever the mappings and the store contain. *)
Theorem search_bounded_by_index encode normalize_L2 s query top_k filter_dict :
  (length (search encode normalize_L2 s query top_k filter_dict)
     <= Nat.min top_k (length (vectors (index s))))%nat /\
  (vectors (index s) = [] -> search encode normalize_L2 s query top_k filter_dict = []).
Proof.
  assert (H : (length (search encode normalize_L2 s query top_k filter_dict)
                 <= Nat.min top_k (length (vectors (index s))))%nat).
  { destruct (search_cases encode normalize_L2 s query top_k filter_dict) as [E|[Ha _]].
    - rewrite E. simpl. lia.
    - rewrite (search_ranked_hits _ _ _ _ _ _ Ha).
      eapply Nat.le_trans; [apply length_collect_results | apply length_ranked_hits]. }
  split; [exact H|]. intros He. rewrite He in H. simpl in H.
  apply length_zero_iff_nil. lia.
Qed.

Lemma search_bounded_by_index_witness :
  search Demo.encode Demo.normalize_L2 Demo.fresh "a" 5 None = [].
Proof.
  apply (search_bounded_by_index Demo.encode Demo.normalize_L2 Demo.fresh "a" 5 None).
  reflexivity.
Defined.

(** X2. Over a flat index, for a query whose embedding has the index's
    dimension and with [top_k] at least the number of vectors of the raw
    index, [search] is exhaustive: every stored document whose id is not
    the empty string and whose metadata pass the filter is returned, with
    its own id, content and metadata. *)
Theorem search_finds_every_stored_document encode normalize_L2 s query top_k filter_dict i d :
  wf s ->
  family (index s) <> IndexHNSWFlat ->
  accepts (index s) (query_embedding encode normalize_L2 s query) = true ->
  ntotal (index s) <= Z.of_nat top_k ->
  PyDict.get (document_store s) i = Some d ->
  i <> "" ->
  passes_filter filter_dict (st_metadata d) = true ->
  exists r, r ∈ search encode normalize_L2 s query top_k filter_dict /\
    id r = i /\ content r = st_content d /\ metadata r = st_metadata d.
Proof.
  intros Hwf _ Hacc Hk Hg Hi Hp.
  destruct (wf_entries s Hwf i d Hg) as (_ & Hback & Hpos).
  set (q := query_embedding encode normalize_L2 s query).
  destruct (lookup_lt_is_Some_2 (vectors (index s)) (Z.to_nat (st_faiss_index d)))
    as [v Hv].
  { unfold ntotal in Hpos. lia. }
  exists (make_result i d (raw_score (family (index s)) q v)).
  split; [|simpl; auto].
  rewrite (search_ranked_hits _ _ _ _ _ _ Hacc). fold q.
  apply (collect_results_complete s filter_dict _ _ (st_faiss_index d)).
  - destruct (ranked_hits_positions (index s) q top_k) as [Hge _].
    rewrite Forall_fmap in Hge. eapply Forall_impl; [exact Hge|].
    simpl. intros h Hh. lia.
  - apply ranked_hits_all; [unfold ntotal in Hk; lia|].
    apply candidates_from_elem. exists (Z.to_nat (st_faiss_index d)), v.
    split; [exact Hv|]. split; [lia | reflexivity].
  - exact Hback.
  - now apply truthy_nonempty.
  - exact Hg.
  - exact Hp.
Qed.

Lemma search_finds_every_stored_document_witness :
  exists r, r ∈ search Demo.encode Demo.normalize_L2 Demo.two_docs "a" 2 None /\
    id r = "doc2" /\ content r = "b" /\ metadata r = [].
Proof.
  apply (search_finds_every_stored_document Demo.encode Demo.normalize_L2 Demo.two_docs
           "a" 2 None "doc2" (Stored "b" [] 1)).
  - apply wf_two_docs.
  - discriminate.
  - reflexivity.
  - vm_compute. discriminate.
  - vm_compute. reflexivity.
  - discriminate.
  - reflexivity.
Defined.

(** X3. [search] never returns a result whose id is the empty string:
    the test [if doc_id] of the loop passes over such an entry, also when
    a document was stored under that id. *)
Theorem search_never_returns_the_empty_id encode normalize_L2 s query top_k filter_dict r :
  r ∈ search encode normalize_L2 s query top_k filter_dict -> id r <> "".
Proof.
  intros H. apply search_elem in H as [_ H].
  apply collect_results_truthy in H. now apply truthy_nonempty.
Qed.

Lemma search_never_returns_the_empty_id_witness : id Demo.first_hit <> "".
Proof.
  apply (search_never_returns_the_empty_id Demo.encode Demo.normalize_L2 Demo.two_docs
           "a" 1 None Demo.first_hit).
  vm_compute. apply list_elem_of_here.
Defined.

(** X4. While the two mappings are inverse of each other, no id occurs
    twice in the results of a search. *)
Theorem search_returns_each_document_once encode normalize_L2 s query top_k filter_dict :
  bijection s ->
  NoDup (map id (search encode normalize_L2 s query top_k filter_dict)).
Proof.
  intros Hb.
  destruct (search_cases encode normalize_L2 s query top_k filter_dict) as [E|[Ha _]].
  - rewrite E. constructor.
  - rewrite (search_ranked_hits _ _ _ _ _ _ Ha). apply collect_results_distinct.
    + apply (paired_inverse _ _ _ _ Hb).
    + apply ranked_hits_positions.
Qed.

Lemma search_returns_each_document_once_witness :
  NoDup (map id (search Demo.encode Demo.normalize_L2 Demo.two_docs "a" 2 None)).
Proof.
  apply search_returns_each_document_once.
  apply (bijection_run Demo.encode Demo.normalize_L2 Demo.fresh Scenario.one_call).
  - apply wf_initial.
  - apply fitting_initial.
  - apply bijection_initial.
  - exact one_call_brings_new_ids.
Defined.

(** X5. Over an inner-product index, the default, the results of
    [search] are in descending order of score. *)
Theorem search_inner_product_best_first encode normalize_L2 s query top_k filter_dict :
  family (index s) = IndexFlatIP ->
  scores_descending (search encode normalize_L2 s query top_k filter_dict).
Proof. apply search_inner_product_descending. Qed.

Lemma search_inner_product_best_first_witness :
  scores_descending (search Demo.encode Demo.normalize_L2 Demo.two_docs "a" 2 None).
Proof.
  apply search_inner_product_best_first. reflexivity.
Defined.

Lemma search_score_of_content encode normalize_L2 s query top_k filter_dict r :
  wf s -> bijection s -> aligned encode normalize_L2 s ->
  r ∈ search encode normalize_L2 s query top_k filter_dict ->
  score r = raw_score (family (index s))
              (prepare normalize_L2 s (encode query))
              (prepare normalize_L2 s (encode (content r))).
Proof.
  intros Hwf Hb Ha Hr. pose proof Hr as Hr'. apply search_elem in Hr' as [Hacc _].
  rewrite (search_ranked_hits _ _ _ _ _ _ Hacc) in Hr.
  apply collect_results_elem in Hr as (sc & idx & d & Hhit & _ & Hi & Hd & _ & Hr).
  apply ranked_hits_elem in Hhit as (j & v & Hj & -> & ->).
  apply (paired_inverse _ _ _ _ Hb) in Hi.
  destruct (wf_entries s Hwf _ _ Hd) as (Hi' & _).
  rewrite Hi in Hi'. injection Hi' as Hpos.
  pose proof (Ha _ _ Hd) as Hv. rewrite <- Hpos, Nat2Z.id, Hj in Hv.
  injection Hv as ->. rewrite Hr. reflexivity.
Qed.

(** X6. After any sequence of calls on a new directory in which every
    added id is new, whatever the file system does to the saves, the
    score of each result is the raw score of the index family between the
    prepared query embedding and the prepared embedding of the content
    the result carries: additions and rebuilds keep each document's
    vector at the position the mappings give it. *)
Theorem search_scores_measure_the_content encode normalize_L2 cfg plan calls
    query top_k filter_dict r :
  let s0 := with_io (_initialize_db cfg empty_disk) plan in
  let s := run encode normalize_L2 s0 calls in
  new_ids_throughout encode normalize_L2 s0 calls ->
  r ∈ search encode normalize_L2 s query top_k filter_dict ->
  score r = raw_score (family (index s))
              (prepare normalize_L2 s (encode query))
              (prepare normalize_L2 s (encode (content r))).
Proof.
  intros s0 s Hnew Hr.
  assert (Hwf0 : wf s0) by apply wf_with_io, wf_initial.
  assert (Hfit0 : fitting encode normalize_L2 s0) by apply fitting_with_io, fitting_initial.
  apply (search_score_of_content _ _ s query top_k filter_dict r).
  - now apply wf_run.
  - apply bijection_run; [exact Hwf0 | exact Hfit0 | apply bijection_initial | exact Hnew].
  - apply aligned_run; [exact Hwf0 | exact Hfit0 | apply aligned_initial].
  - exact Hr.
Qed.

Lemma search_scores_measure_the_content_witness :
  score Demo.first_hit =
  raw_score IndexFlatIP (Demo.encode "a") (Demo.encode (content Demo.first_hit)).
Proof.
  apply (search_scores_measure_the_content Demo.encode Demo.normalize_L2
           Demo.faiss_config [] Scenario.one_call "a" 1 None Demo.first_hit).
  - exact one_call_brings_new_ids.
  - vm_compute. apply list_elem_of_here.
Defined.

(** *** Files *)

(** X7. Round trip of [_save_index] and [_load_index]: in a state whose
    stored contents embed to the configured dimension, after a call that
    returned [True] and whose save met no failing write, a backend
    constructed under the same configuration over the files written so
    far has the same raw index, store and mappings, reports the same
    statistics and answers every search alike. *)
Theorem restart_restores_the_saved_state encode normalize_L2 s c :
  store_fits encode normalize_L2 s ->
  succeeds encode normalize_L2 s c = true ->
  next_save s = AllWritten ->
  let s' := perform encode normalize_L2 s c in
  let r := _initialize_db (config s') (current_disk s') in
  index r = index s' /\
  document_store r = document_store s' /\
  id_to_index r = id_to_index s' /\
  index_to_id r = index_to_id s' /\
  get_collection_stats r = get_collection_stats s' /\
  forall query top_k filter_dict,
    search encode normalize_L2 r query top_k filter_dict =
    search encode normalize_L2 s' query top_k filter_dict.
Proof.
  intros Hfit Hok Hnext s' r.
  destruct (perform_saves _ _ s c Hfit Hok) as (x & Hx & _ & _ & Ho).
  subst r s'. rewrite Hx. rewrite current_disk_save.
  - rewrite restart_from_snapshot. simpl. repeat split.
    intros query top_k filter_dict. now apply search_ext.
  - unfold next_save in *. now rewrite Ho.
Qed.

Lemma restart_restores_the_saved_state_witness :
  document_store
    (_initialize_db (config Demo.two_docs) (current_disk Demo.two_docs))
  = document_store Demo.two_docs.
Proof.
  apply (restart_restores_the_saved_state Demo.encode Demo.normalize_L2 Demo.fresh
           (AddDocuments [Demo.doc "doc1" "a"; Demo.doc "doc2" "b"])).
  - constructor.
  - vm_compute. reflexivity.
  - reflexivity.
Defined.

Lemma perform_disk_after encode normalize_L2 s c k :
  (length (writes s) + k <= length (writes (perform encode normalize_L2 s c)))%nat ->
  disk_after (perform encode normalize_L2 s c) (length (writes s) + k) =
  fold_left fs_apply (take k (save_steps (perform encode normalize_L2 s c)))
    (current_disk s).
Proof.
  intros Hlen. destruct (perform_writes encode normalize_L2 s c) as (Hf & n & Hn & Hw).
  unfold disk_after. rewrite Hf, Hw, take_app_add, fold_left_app.
  fold (current_disk s). f_equal.
  rewrite Hw, length_app, length_take in Hlen. simpl in Hlen.
  rewrite take_take. f_equal. lia.
Qed.

(** X8. A crash after [metadata.json] was opened for writing and before
    the dump leaves the new index file and an empty metadata file; the
    next [__init__] fails to parse it, and the handler of [_load_index]
    starts from a new empty index: the restarted backend holds no
    document and no vector. *)
Theorem crash_before_the_dump_empties_the_collection encode normalize_L2 s c cfg :
  let s' := perform encode normalize_L2 s c in
  (length (writes s) + 2 <= length (writes s'))%nat ->
  let d := disk_after s' (length (writes s) + 2) in
  index_file d = Some (index s') /\
  metadata_file d = Some Truncated /\
  document_store (_initialize_db cfg d) = [] /\
  vectors (index (_initialize_db cfg d)) = [].
Proof.
  intros s' Hlen d.
  assert (Hd : d = {| index_file := Some (index s'); metadata_file := Some Truncated |}).
  { subst d s'. now rewrite perform_disk_after. }
  rewrite Hd. repeat split.
Qed.

Lemma crash_before_the_dump_empties_the_collection_witness :
  document_store (_initialize_db Demo.faiss_config (disk_after Demo.two_docs 2)) = [].
Proof.
  apply (crash_before_the_dump_empties_the_collection Demo.encode Demo.normalize_L2
           Demo.fresh (AddDocuments [Demo.doc "doc1" "a"; Demo.doc "doc2" "b"])
           Demo.faiss_config).
  vm_compute. lia.
Defined.

(** X9. A crash of the first call that writes on a new directory, after
    the index file was written and before [metadata.json] was opened,
    leaves an index file without metadata: the next [__init__] loads the
    vectors, the store stays empty, [total_documents] is 0 and every
    search returns nothing. *)
Theorem crash_before_the_metadata_orphans_the_vectors encode normalize_L2 cfg plan c :
  let s := with_io (_initialize_db cfg empty_disk) plan in
  let s' := perform encode normalize_L2 s c in
  writes s' <> [] ->
  let r := _initialize_db cfg (disk_after s' 1) in
  index r = index s' /\
  document_store r = [] /\
  total_documents (get_collection_stats r) = 0 /\
  forall query top_k filter_dict,
    search encode normalize_L2 r query top_k filter_dict = [].
Proof.
  intros s s' Hw r.
  assert (Hd : disk_after s' 1 = {| index_file := Some (index s'); metadata_file := None |}).
  { pose proof (perform_disk_after encode normalize_L2 s c 1) as H.
    change (length (writes s) + 1)%nat with 1%nat in H. fold s' in H.
    rewrite H; [reflexivity|]. destruct (writes s'); [congruence | simpl; lia]. }
  subst r. rewrite Hd. split; [reflexivity|]. split; [reflexivity|]. split; [reflexivity|].
  intros query top_k filter_dict. unfold search.
  destruct (checked_search _ _ _); [|reflexivity]. now apply collect_results_no_ids.
Qed.

Lemma crash_before_the_metadata_orphans_the_vectors_witness :
  vectors (index (_initialize_db Demo.faiss_config (disk_after Demo.two_docs 1)))
    = vectors (index Demo.two_docs) /\
  search Demo.encode Demo.normalize_L2
    (_initialize_db Demo.faiss_config (disk_after Demo.two_docs 1)) "a" 2 None = [].
Proof.
  destruct (crash_before_the_metadata_orphans_the_vectors Demo.encode Demo.normalize_L2
              Demo.faiss_config [] (AddDocuments [Demo.doc "doc1" "a"; Demo.doc "doc2" "b"]))
    as (Hi & _ & _ & Hs).
  - vm_compute. discriminate.
  - split; [exact (f_equal vectors Hi) | apply Hs].
Defined.

(** X10. A call that returns [False] has written nothing: [_save_index]
    is reached only at the end of a call that succeeds, so whatever a
    failed [add_documents] changed in memory is absent from the files. *)
Theorem failed_call_writes_nothing encode normalize_L2 s c :
  succeeds encode normalize_L2 s c = false ->
  writes (perform encode normalize_L2 s c) = writes s /\
  current_disk (perform encode normalize_L2 s c) = current_disk s.
Proof.
  intros Hok. destruct (perform_fails _ _ s c Hok) as [Hw Hf].
  split; [exact Hw|]. unfold current_disk. now rewrite Hw, Hf.
Qed.

Lemma failed_call_writes_nothing_witness :
  writes (perform Demo.encode Demo.normalize_L2 Demo.two_docs
            (AddDocuments [Demo.doc "doc3" "c"; Demo.without_id "d"]))
  = writes Demo.two_docs.
Proof.
  apply (failed_call_writes_nothing Demo.encode Demo.normalize_L2 Demo.two_docs
           (AddDocuments [Demo.doc "doc3" "c"; Demo.without_id "d"])).
  vm_compute. reflexivity.
Defined.

(** X11. In every state reached from a new directory by [add_documents],
    [delete_document], [clear_collection] and restarts under the same
    configuration over the files written so far, while no write fails,
    each stored document is found through both mappings, at a position
    the raw index holds. *)
Theorem stored_documents_stay_reachable encode normalize_L2 s :
  reachable encode normalize_L2 s ->
  NoDup (PyDict.keys (document_store s)) /\
  forall i d, PyDict.get (document_store s) i = Some d ->
    id_to_index s !! i = Some (st_faiss_index d) /\
    index_to_id s !! py_str (st_faiss_index d) = Some i /\
    0 <= st_faiss_index d < ntotal (index s).
Proof.
  intros H. apply reachable_wf in H as [Hnd Hok]. split; [exact Hnd | exact Hok].
Qed.

Lemma stored_documents_stay_reachable_witness :
  NoDup (PyDict.keys (document_store
           (_initialize_db Demo.faiss_config (current_disk Demo.two_docs)))).
Proof.
  apply (stored_documents_stay_reachable Demo.encode Demo.normalize_L2).
  apply (reach_restart Demo.encode Demo.normalize_L2 Demo.two_docs).
  apply (reach_call Demo.encode Demo.normalize_L2 _
           (AddDocuments [Demo.doc "doc1" "a"; Demo.doc "doc2" "b"])).
  apply reach_new.
Defined.

(** *** Bookkeeping *)

(** X12. Along any sequence of calls on a new directory in which every
    [add_documents] brings distinct ids none of which is stored, whatever
    the file system does to the saves, the two mappings stay inverse of
    each other and name exactly the stored documents. *)
Theorem bijection_kept_while_ids_are_new encode normalize_L2 cfg plan calls :
  let s0 := with_io (_initialize_db cfg empty_disk) plan in
  new_ids_throughout encode normalize_L2 s0 calls ->
  bijection (run encode normalize_L2 s0 calls).
Proof.
  intros s0 H. apply bijection_run.
  - apply wf_with_io, wf_initial.
  - apply fitting_with_io, fitting_initial.
  - apply bijection_initial.
  - exact H.
Qed.

Lemma bijection_kept_while_ids_are_new_witness :
  bijection (run Demo.encode Demo.normalize_L2 Demo.fresh Scenario.one_call).
Proof.
  apply (bijection_kept_while_ids_are_new Demo.encode Demo.normalize_L2
           Demo.faiss_config []).
  exact one_call_brings_new_ids.
Defined.

(** X13. A batch of distinct ids none of which is stored raises
    [total_documents] by its length when [add_documents] returns [True];
    when every document has its id and content and the call returns
    [False], the raw index has refused the batch and the state is as it
    was. *)
Theorem add_documents_counts_new_documents encode normalize_L2 s documents :
  brings_new_ids s (AddDocuments documents) ->
  let r := add_documents encode normalize_L2 s documents in
  (snd r = true ->
     total_documents (get_collection_stats (fst r))
     = total_documents (get_collection_stats s) + Z.of_nat (length documents)) /\
  (Forall complete documents -> snd r = false -> fst r = s).
Proof.
  intros [Hnd Hfresh] r. subst r. split.
  - intros Hok. apply add_documents_true in Hok as (texts & ix & _ & _ & Hc & _ & E).
    rewrite E. cbn [fst].
    set (s1 := with_index s ix).
    pose proof (store_metadata_new_keys s1 (ntotal (index s)) documents Hnd Hfresh) as Ek.
    apply (f_equal length) in Ek. unfold PyDict.keys in Ek.
    rewrite length_app, !length_map, (stored_ids_complete _ Hc) in Ek.
    unfold get_collection_stats. simpl. rewrite Ek.
    change (document_store s1) with (document_store s). lia.
  - intros Hc Hok.
    destruct (add_documents_cases encode normalize_L2 s documents)
      as [E|(texts & ix & _ & _ & E)]; rewrite E in *; [reflexivity|].
    cbv zeta in Hok. rewrite store_metadata_complete in Hok by exact Hc. discriminate.
Qed.

Lemma add_documents_counts_new_documents_witness :
  total_documents (get_collection_stats Demo.two_docs) = 0 + 2.
Proof.
  apply (add_documents_counts_new_documents Demo.encode Demo.normalize_L2 Demo.fresh
           [Demo.doc "doc1" "a"; Demo.doc "doc2" "b"]).
  - exact (proj1 one_call_brings_new_ids).
  - reflexivity.
Defined.

(** X14. Deleting a stored document while another one remains, all of
    them with contents that embed to the configured dimension, rebuilds
    both mappings from the store: afterwards they are inverse of each
    other, also when they were not before the call. *)
Theorem delete_document_restores_the_bijection encode normalize_L2 s document_id d :
  wf s ->
  store_fits encode normalize_L2 s ->
  PyDict.get (document_store s) document_id = Some d ->
  PyDict.remove (document_store s) document_id <> [] ->
  bijection (fst (delete_document encode normalize_L2 s document_id)).
Proof.
  intros Hwf Hfit Hg Hne.
  rewrite (delete_document_known _ _ s document_id d (wf_entries s Hwf) Hg). simpl.
  apply bijection_rebuild; [exact Hne | |].
  - simpl. apply NoDup_keys_remove, (wf_keys s Hwf).
  - now apply store_fits_without.
Qed.

Lemma delete_document_restores_the_bijection_witness :
  bijection (fst (delete_document Demo.encode Demo.normalize_L2 Demo.two_docs "doc1")).
Proof.
  apply (delete_document_restores_the_bijection Demo.encode Demo.normalize_L2
           Demo.two_docs "doc1" (Stored "a" [] 0)).
  - apply wf_two_docs.
  - apply fitting_two_docs.
  - vm_compute. reflexivity.
  - vm_compute. discriminate.
Defined.

(** X15. [FAISSVectorDB.delete_document] on an id that is not stored
    returns [False] and changes nothing; in a state where stored
    documents are found through both mappings it returns [True] exactly
    when the id is stored. *)
Theorem delete_document_tells_whether_the_id_was_stored encode normalize_L2 s document_id :
  (PyDict.get (document_store s) document_id = None ->
     delete_document encode normalize_L2 s document_id = (s, false)) /\
  (wf s ->
     (snd (delete_document encode normalize_L2 s document_id) = true <->
      is_Some (PyDict.get (document_store s) document_id))).
Proof.
  split.
  - apply delete_document_unknown.
  - intros Hwf. destruct (PyDict.get (document_store s) document_id) as [d|] eqn:Hg.
    + rewrite (delete_document_known _ _ s document_id d (wf_entries s Hwf) Hg). simpl.
      split; eauto.
    + rewrite (delete_document_unknown _ _ s document_id Hg). simpl.
      split; [discriminate | intros [x Hx]; discriminate].
Qed.

Lemma delete_document_tells_whether_the_id_was_stored_witness :
  delete_document Demo.encode Demo.normalize_L2 Demo.two_docs "ghost"
    = (Demo.two_docs, false) /\
  snd (delete_document Demo.encode Demo.normalize_L2 Demo.two_docs "doc1") = true.
Proof.
  destruct (delete_document_tells_whether_the_id_was_stored Demo.encode Demo.normalize_L2
              Demo.two_docs "ghost") as [H _].
  destruct (delete_document_tells_whether_the_id_was_stored Demo.encode Demo.normalize_L2
              Demo.two_docs "doc1") as [_ H'].
  split.
  - apply H. vm_compute. reflexivity.
  - apply (H' wf_two_docs). vm_compute. eauto.
Defined.

(** X22. The ways through [add_documents].  A document without
    ["content"] makes the call fail with the state unchanged, and so does
    a batch that the raw index refuses: an empty one, or one with a vector
    that is not of the index's dimension.  A batch that the raw index
    takes and in which every document has its id succeeds, and all of it
    is visible afterwards: the raw index is extended by the embeddings of
    the batch, every id is in [document_store] and [id_to_index], and the
    position of every document maps back to its id.  A batch that the raw
    index takes and in which a document has no ["id"] fails after the raw
    index has been extended.  In each case every stored document is still
    found through both mappings at a position the raw index holds. *)
Theorem add_documents_outcomes encode normalize_L2 s documents :
  let r := add_documents encode normalize_L2 s documents in
  (Exists (fun d => doc_content d = None) documents -> r = (s, false)) /\
  (forall texts, texts_of documents = Some texts ->
     texts = [] \/ forallb (accepts (index s)) (embed encode normalize_L2 s texts) = false ->
     r = (s, false)) /\
  (forall texts, texts_of documents = Some texts -> texts <> [] ->
     forallb (accepts (index s)) (embed encode normalize_L2 s texts) = true ->
     vectors (index (fst r)) = vectors (index s) ++ embed encode normalize_L2 s texts /\
     (Forall complete documents ->
        snd r = true /\
        forall k d, documents !! k = Some d ->
          exists i, doc_id d = Some i /\
            is_Some (PyDict.get (document_store (fst r)) i) /\
            is_Some (id_to_index (fst r) !! i) /\
            index_to_id (fst r) !! py_str (ntotal (index s) + Z.of_nat k) = Some i) /\
     (~ Forall complete documents -> snd r = false)) /\
  (wf s -> wf (fst r)).
Proof.
  intros r. subst r. split; [|split; [|split]].
  - intros H. apply texts_of_None in H. unfold add_documents. now rewrite H.
  - intros texts Ht Hno. apply (add_documents_refused _ _ _ _ texts Ht).
    apply index_add_None. destruct Hno as [-> | H]; [left | right; exact H].
    unfold embed. now destruct (String.eqb _ _).
  - intros texts Ht Hne Hacc.
    rewrite (add_documents_accepted _ _ _ _ texts Ht Hne Hacc). cbv zeta.
    set (s1 := with_index s _).
    destruct (store_metadata_frame s1 (ntotal (index s)) documents) as (Fi & _).
    split; [|split].
    + destruct (snd (store_metadata s1 (ntotal (index s)) documents)); simpl;
        now rewrite Fi.
    + intros Hc. rewrite (store_metadata_complete s1 _ _ Hc).
      split; [reflexivity|]. intros k d Hk. simpl.
      apply (store_metadata_visible s1 (ntotal (index s)) documents k d Hc Hk).
    + intros Hnc.
      destruct (snd (store_metadata s1 (ntotal (index s)) documents)) eqn:E;
        [|reflexivity].
      exfalso. apply Hnc. eapply store_metadata_incomplete. exact E.
  - apply wf_add_documents.
Qed.

Lemma add_documents_outcomes_witness :
  add_documents Demo.encode Demo.normalize_L2 Demo.two_docs [Demo.without_content "doc3"]
    = (Demo.two_docs, false) /\
  add_documents Demo.encode Demo.normalize_L2 Demo.two_docs [] = (Demo.two_docs, false) /\
  snd (add_documents Demo.encode Demo.normalize_L2 Demo.two_docs [Demo.doc "doc3" "c"])
    = true /\
  snd (add_documents Demo.encode Demo.normalize_L2 Demo.two_docs [Demo.without_id "c"])
    = false /\
  wf (fst (add_documents Demo.encode Demo.normalize_L2 Demo.two_docs [Demo.doc "doc3" "c"])).
Proof.
  split; [|split; [|split; [|split]]].
  - apply (add_documents_outcomes Demo.encode Demo.normalize_L2 Demo.two_docs
             [Demo.without_content "doc3"]).
    apply Exists_cons_hd. reflexivity.
  - destruct (add_documents_outcomes Demo.encode Demo.normalize_L2 Demo.two_docs [])
      as (_ & H & _).
    apply (H []); [reflexivity | now left].
  - destruct (add_documents_outcomes Demo.encode Demo.normalize_L2 Demo.two_docs
                [Demo.doc "doc3" "c"]) as (_ & _ & H & _).
    destruct (H ["c"]) as (_ & Hc & _); [reflexivity | discriminate | reflexivity |].
    apply Hc. repeat constructor; simpl; eauto.
  - destruct (add_documents_outcomes Demo.encode Demo.normalize_L2 Demo.two_docs
                [Demo.without_id "c"]) as (_ & _ & H & _).
    destruct (H ["c"]) as (_ & _ & Hn); [reflexivity | discriminate | reflexivity |].
    apply Hn. intros Hc. apply Forall_cons in Hc as [[[i Hi] _] _]. discriminate.
  - apply (add_documents_outcomes Demo.encode Demo.normalize_L2 Demo.two_docs
             [Demo.doc "doc3" "c"]).
    apply wf_two_docs.
Defined.

(** X23. In a state where stored documents are found through both
    mappings and every stored content embeds to the configured dimension,
    deleting a stored document succeeds; the document leaves the store and
    [id_to_index], and its position no longer maps to it; when the
    mappings were inverse of each other, no position maps to it any more;
    the other documents stay, in their order; the raw index is built anew
    from the embeddings of the remaining contents in stored order;
    [total_documents] drops by one and no later search returns the
    document. *)
Theorem delete_document_removes_and_rebuilds encode normalize_L2 s document_id d :
  wf s -> store_fits encode normalize_L2 s ->
  PyDict.get (document_store s) document_id = Some d ->
  let s' := fst (delete_document encode normalize_L2 s document_id) in
  let remaining := PyDict.remove (document_store s) document_id in
  snd (delete_document encode normalize_L2 s document_id) = true /\
  map payload (document_store s') = map payload remaining /\
  PyDict.get (document_store s') document_id = None /\
  id_to_index s' !! document_id = None /\
  index_to_id s' !! py_str (st_faiss_index d) <> Some document_id /\
  (bijection s -> forall k, index_to_id s' !! k <> Some document_id) /\
  index s' =
    {| family := family_of (index_type (config s));
       dim := dimension (config s);
       vectors := embed encode normalize_L2 s
                    (map (fun e => st_content (snd e)) remaining) |} /\
  total_documents (get_collection_stats s') = total_documents (get_collection_stats s) - 1 /\
  (forall query top_k filter_dict r,
     r ∈ search encode normalize_L2 s' query top_k filter_dict -> id r <> document_id).
Proof.
  intros Hwf Hfit Hg s' remaining.
  pose proof (delete_document_known encode normalize_L2 s document_id d
                (wf_entries s Hwf) Hg) as Hdel.
  set (s3 := without s document_id (st_faiss_index d)).
  assert (Hs' : s' = _rebuild_index encode normalize_L2 s3).
  { unfold s'. now rewrite Hdel. }
  assert (Hnd : NoDup (PyDict.keys remaining)).
  { apply NoDup_keys_remove, (wf_keys s Hwf). }
  pose proof (rebuild_payload encode normalize_L2 s3 Hnd) as Hpay.
  destruct (rebuild_spec encode normalize_L2 s3 Hnd
              (store_fits_without encode normalize_L2 s _ _ Hfit)) as (Hix & _).
  rewrite <- Hs' in Hpay, Hix. simpl in Hpay, Hix. fold remaining in Hpay, Hix.
  assert (Hout : document_id ∉ PyDict.keys remaining).
  { apply get_None_keys. unfold remaining. apply get_remove_eq, (wf_keys s Hwf). }
  assert (Hgone : PyDict.get (document_store s') document_id = None).
  { apply get_None_keys. now rewrite (payload_keys _ _ Hpay). }
  destruct (wf_entries s Hwf _ _ Hg) as (Hfwd & Hback & _).
  split; [now rewrite Hdel|]. split; [exact Hpay|]. split; [exact Hgone|].
  split; [|split; [|split; [|split; [|split]]]].
  - rewrite Hs'. apply rebuild_id_to_index; [exact Hout|]. simpl. apply lookup_delete_eq.
  - rewrite Hs'. intros H. apply rebuild_index_to_id in H as [H|[_ H]].
    + now apply Hout.
    + simpl in H. rewrite lookup_delete_eq in H. discriminate.
  - intros Hb k H. rewrite Hs' in H. apply rebuild_index_to_id in H as [H|[_ H]].
    + now apply Hout.
    + simpl in H. destruct (decide (py_str (st_faiss_index d) = k)) as [<-|Hne].
      * rewrite lookup_delete_eq in H. discriminate.
      * rewrite lookup_delete_ne in H by exact Hne.
        destruct (paired_below _ _ _ _ Hb k) as (p & -> & _); [eauto|].
        apply (paired_inverse _ _ _ _ Hb) in H. rewrite Hfwd in H.
        injection H as E. apply Hne. now rewrite E.
  - exact Hix.
  - unfold get_collection_stats. simpl.
    apply (f_equal length) in Hpay. rewrite !length_map in Hpay. rewrite Hpay.
    pose proof (length_remove _ _ _ Hg) as Hlen. fold remaining in Hlen. lia.
  - intros query top_k filter_dict r Hr Heq. apply search_elem in Hr as [_ Hr].
    apply collect_results_elem in Hr as (_ & _ & d' & _ & _ & _ & Hd' & _).
    rewrite Heq in Hd'. congruence.
Qed.

Lemma delete_document_removes_and_rebuilds_witness :
  snd (delete_document Demo.encode Demo.normalize_L2 Demo.two_docs "doc1") = true /\
  total_documents
    (get_collection_stats
       (fst (delete_document Demo.encode Demo.normalize_L2 Demo.two_docs "doc1"))) =
  total_documents (get_collection_stats Demo.two_docs) - 1.
Proof.
  destruct (delete_document_removes_and_rebuilds Demo.encode Demo.normalize_L2
              Demo.two_docs "doc1" (Stored "a" [] 0))
    as (H1 & _ & _ & _ & _ & _ & _ & H8 & _).
  - apply wf_two_docs.
  - apply fitting_two_docs.
  - vm_compute. reflexivity.
  - split; assumption.
Defined.

Lemma accepts_store_fits encode normalize_L2 s :
  forallb (accepts (fresh_index s))
    (embed encode normalize_L2 s (map (fun e => st_content (snd e)) (document_store s)))
  = true ->
  store_fits encode normalize_L2 s.
Proof.
  unfold store_fits. rewrite embed_prepare, map_map.
  induction (document_store s) as [|e l IH]; simpl; [constructor|].
  intros H. apply andb_true_iff in H as [He Hl]. constructor; [|now apply IH].
  unfold accepts in He. simpl in He. now apply Z.eqb_eq.
Qed.

(** X24. When a content that remains does not embed to the configured
    dimension, as after a restart under a configuration whose dimension
    is not the encoder's, [delete_document] still returns [True], but the
    re-insertion of [_rebuild_index] is refused and its failure is not
    looked at: the store keeps the remaining documents, the raw index is
    a new empty one, both mappings are empty, nothing is written, and
    every search returns nothing. *)
Theorem delete_document_hides_a_refused_reinsertion encode normalize_L2 s document_id d :
  wf s ->
  PyDict.get (document_store s) document_id = Some d ->
  Exists (fun e => Z.of_nat (length (prepare normalize_L2 s (encode (st_content (snd e)))))
                   <> dimension (config s))
    (PyDict.remove (document_store s) document_id) ->
  let r := delete_document encode normalize_L2 s document_id in
  snd r = true /\
  document_store (fst r) = PyDict.remove (document_store s) document_id /\
  vectors (index (fst r)) = [] /\
  id_to_index (fst r) = ∅ /\
  index_to_id (fst r) = ∅ /\
  writes (fst r) = writes s /\
  forall query top_k filter_dict,
    search encode normalize_L2 (fst r) query top_k filter_dict = [].
Proof.
  intros Hwf Hg Hbad r. subst r.
  rewrite (delete_document_known _ _ s document_id d (wf_entries s Hwf) Hg). cbn [fst snd].
  set (s3 := without s document_id (st_faiss_index d)).
  assert (Hne : document_store s3 <> []).
  { simpl. intros E. rewrite E in Hbad. inversion Hbad. }
  assert (Hno : ~ store_fits encode normalize_L2 s3).
  { intros Hfit. unfold store_fits in Hfit. simpl in Hfit.
    apply Exists_exists in Hbad as (e & Hin & He). rewrite Forall_forall in Hfit.
    apply He. apply (Hfit e Hin). }
  assert (Hix : index_add (fresh_index s3)
                  (embed encode normalize_L2 s3
                     (map (fun e => st_content (snd e)) (document_store s3))) = None).
  { destruct (index_add _ _) as [ix|] eqn:E; [|reflexivity].
    exfalso. apply Hno. apply index_add_Some in E as (_ & E & _).
    now apply accepts_store_fits. }
  rewrite (rebuild_refused _ _ s3 Hne Hix).
  split; [reflexivity|]. split; [reflexivity|]. split; [reflexivity|].
  split; [reflexivity|]. split; [reflexivity|]. split; [reflexivity|].
  intros query top_k filter_dict. unfold search.
  destruct (checked_search _ _ _); [|reflexivity]. now apply collect_results_no_ids.
Qed.

Lemma delete_document_hides_a_refused_reinsertion_witness :
  snd (delete_document Demo.encode Demo.normalize_L2 Scenario.reopened "doc1") = true /\
  PyDict.keys (document_store
                 (fst (delete_document Demo.encode Demo.normalize_L2
                         Scenario.reopened "doc1"))) = ["doc2"] /\
  search Demo.encode Demo.normalize_L2
    (fst (delete_document Demo.encode Demo.normalize_L2 Scenario.reopened "doc1"))
    "b" 5 None = [].
Proof.
  destruct (delete_document_hides_a_refused_reinsertion Demo.encode Demo.normalize_L2
              Scenario.reopened "doc1" (Stored "a" [] 0))
    as (H1 & H2 & _ & _ & _ & _ & H7).
  - destruct wf_two_docs as [Hnd Hok]. split; [exact Hnd | exact Hok].
  - reflexivity.
  - apply Exists_cons_hd. vm_compute. discriminate.
  - split; [exact H1|]. split; [now rewrite H2 | apply H7].
Defined.

(** *** Chroma adapter *)

Lemma chroma_results_descending hits :
  StronglySorted (fun a b : Chroma.row * Q => (snd a <= snd b)%Q) hits ->
  scores_descending (map chroma_result hits).
Proof.
  unfold scores_descending.
  induction 1 as [|h hits Hs IH Hall]; simpl; constructor; [assumption|].
  apply Forall_fmap. eapply Forall_impl; [exact Hall|].
  simpl. intros x Hx. unfold Qminus. apply Qplus_le_r. now apply Qopp_le_compat.
Qed.

(** X16. [ChromaVectorDB.search] returns one result per hit of the engine,
    in the engine's order, with the row's id and document and the score
    [1 - distance]; a hit whose metadata are missing or empty gets the
    title [""] and the chunk index 0; hits in ascending order of distance
    give results in descending order of score; when the engine raises the
    result is the empty list. *)
Theorem chroma_search_converts_the_hits encode query s text top_k filter_dict rows :
  client s !! collection s = Some rows ->
  let rs := chroma_search encode query s text top_k filter_dict in
  (query rows (encode text) top_k filter_dict = None -> rs = []) /\
  (forall hits, query rows (encode text) top_k filter_dict = Some hits ->
     map id rs = map (fun h => Chroma.row_id (fst h)) hits /\
     map content rs = map (fun h => Chroma.row_document (fst h)) hits /\
     map score rs = map (fun h => (1 - snd h)%Q) hits /\
     Forall (fun r => metadata r = [] ->
                      document_title r = VStr "" /\ chunk_index r = VInt 0) rs /\
     (StronglySorted (fun a b => (snd a <= snd b)%Q) hits -> scores_descending rs)).
Proof.
  intros Hrows rs. subst rs. unfold chroma_search. rewrite Hrows. split.
  - intros E. now rewrite E.
  - intros hits E. rewrite E. rewrite !map_map. simpl.
    split; [reflexivity|]. split; [reflexivity|]. split; [reflexivity|].
    split; [|apply chroma_results_descending].
    apply Forall_fmap, Forall_forall. intros [r dist] _. simpl.
    destruct (Chroma.row_metadata r) as [[|kv m]|]; simpl; auto; discriminate.
Qed.

Lemma chroma_search_converts_the_hits_witness :
  map score (chroma_search Demo.encode Scenario.nearest Demo.chroma_two "a" 2 None)
    = [(1 - 0)%Q; (1 - 2)%Q] /\
  scores_descending (chroma_search Demo.encode Scenario.nearest Demo.chroma_two "a" 2 None).
Proof.
  destruct (chroma_search_converts_the_hits Demo.encode Scenario.nearest Demo.chroma_two
              "a" 2%nat None
              [ Chroma.Row "doc1" (Demo.axis 0) "a" None;
                Chroma.Row "doc2" (Demo.axis 1) "b" None ]) as [_ H].
  - vm_compute. reflexivity.
  - destruct (H [ (Chroma.Row "doc1" (Demo.axis 0) "a" None, 0%Q);
                  (Chroma.Row "doc2" (Demo.axis 1) "b" None, 2%Q) ])
      as (_ & _ & Hs & _ & Hd).
    + vm_compute. reflexivity.
    + split; [exact Hs|]. apply Hd.
      repeat constructor. simpl. vm_compute. discriminate.
Defined.

Lemma ids_of_complete docs :
  Forall complete docs -> exists ids, ids_of docs = Some ids.
Proof.
  induction 1 as [|d docs [[i Hi] _] _ [ids IH]]; simpl.
  - now exists [].
  - rewrite Hi, IH. now eexists.
Qed.

Lemma ids_or_texts_missing docs :
  ~ Forall complete docs -> texts_of docs = None \/ ids_of docs = None.
Proof.
  intros Hn. destruct (texts_of docs) as [texts|] eqn:Ht; [|now left].
  destruct (ids_of docs) as [ids|] eqn:Hi; [|now right].
  exfalso. apply Hn. clear Hn. revert texts ids Ht Hi.
  induction docs as [|d docs IH]; intros texts ids Ht Hi; [constructor|].
  simpl in *. destruct (doc_content d) as [t|] eqn:Ec; [|discriminate].
  destruct (texts_of docs) as [ts|]; [|discriminate].
  destruct (doc_id d) as [i|] eqn:Ei; [|discriminate].
  destruct (ids_of docs) as [l|]; [|discriminate].
  constructor; [|eapply IH; reflexivity].
  split; [rewrite Ei | rewrite Ec]; eauto.
Qed.

Lemma make_rows_lookup encode docs texts ids k doc :
  texts_of docs = Some texts -> ids_of docs = Some ids ->
  docs !! k = Some doc ->
  exists i t, doc_id doc = Some i /\ doc_content doc = Some t /\
    make_rows ids (map encode texts) texts
      (map (fun doc => default [] (doc_metadata doc)) docs) !! k
    = Some (Chroma.Row i (encode t) t (Some (default [] (doc_metadata doc)))).
Proof.
  revert texts ids k. induction docs as [|d docs IH]; intros texts ids k Ht Hi Hk.
  - rewrite lookup_nil in Hk. discriminate.
  - simpl in *. destruct (doc_content d) as [t|] eqn:Ec; [|discriminate].
    destruct (texts_of docs) as [ts|]; [|discriminate].
    destruct (doc_id d) as [i|] eqn:Ei; [|discriminate].
    destruct (ids_of docs) as [l|]; [|discriminate].
    injection Ht as <-. injection Hi as <-. destruct k as [|k]; simpl in *.
    + injection Hk as <-. exists i, t. rewrite Ei, Ec. auto.
    + apply (IH ts l k eq_refl eq_refl Hk).
Qed.

(** X17. [ChromaVectorDB.add_documents] returns [False] without calling
    the engine when a document lacks [id] or [content]; otherwise it
    hands the engine one row per document, in order, made of the
    document's id, the embedding of its content, the content and its
    metadata ([{}] when absent), and returns [True] exactly when the
    engine accepts them. *)
Theorem chroma_add_documents_all_or_nothing encode engine_add s documents :
  (~ Forall complete documents ->
     chroma_add_documents encode engine_add s documents = (s, false)) /\
  (Forall complete documents ->
     forall rows, client s !! collection s = Some rows ->
     exists new_rows,
       (forall k doc, documents !! k = Some doc ->
          exists i t, doc_id doc = Some i /\ doc_content doc = Some t /\
            new_rows !! k
            = Some (Chroma.Row i (encode t) t (Some (default [] (doc_metadata doc))))) /\
       chroma_add_documents encode engine_add s documents =
       match engine_add rows new_rows with
       | Some rows' =>
           (ChromaDB (c_config s) (<[collection s := rows']> (client s)) (collection s),
            true)
       | None => (s, false)
       end).
Proof.
  split.
  - intros Hn. unfold chroma_add_documents.
    destruct (ids_or_texts_missing _ Hn) as [E|E].
    + now rewrite E.
    + rewrite E. now destruct (texts_of documents).
  - intros Hc rows Hrows.
    destruct (texts_of_complete _ Hc) as [texts Ht].
    destruct (ids_of_complete _ Hc) as [ids Hi].
    eexists. split.
    + intros k doc Hk. exact (make_rows_lookup encode _ _ _ _ _ Ht Hi Hk).
    + unfold chroma_add_documents. rewrite Ht, Hi, Hrows. reflexivity.
Qed.

Lemma chroma_add_documents_all_or_nothing_witness :
  chroma_add_documents Demo.encode Scenario.append_rows Demo.chroma_two
    [Demo.doc "doc3" "c"; Demo.without_id "d"] = (Demo.chroma_two, false) /\
  snd (chroma_add_documents Demo.encode Scenario.append_rows Demo.chroma_two
         [Demo.doc "doc3" "c"]) = true.
Proof.
  split.
  - apply (chroma_add_documents_all_or_nothing Demo.encode Scenario.append_rows
             Demo.chroma_two [Demo.doc "doc3" "c"; Demo.without_id "d"]).
    intros H. apply Forall_cons in H as [_ H]. apply Forall_cons in H as [[[i Hi] _] _].
    discriminate.
  - destruct (chroma_add_documents_all_or_nothing Demo.encode Scenario.append_rows
                Demo.chroma_two [Demo.doc "doc3" "c"]) as [_ H].
    destruct (H ltac:(repeat constructor; simpl; eauto)
                [ Chroma.Row "doc1" (Demo.axis 0) "a" None;
                  Chroma.Row "doc2" (Demo.axis 1) "b" None ]
                ltac:(vm_compute; reflexivity)) as (new_rows & _ & E).
    rewrite E. reflexivity.
Defined.

(** *** Manager *)

Lemma create_database_names_backend env w cfg b :
  snd (_create_database env w cfg) = Returns b ->
  lower (db_type (fst (_create_database env w cfg))) = backend_kind b /\
  backend_available env b = true.
Proof.
  unfold _create_database.
  destruct (String.eqb (lower (db_type cfg)) "chroma") eqn:Ec.
  - apply String.eqb_eq in Ec. destruct (CHROMA_AVAILABLE env) eqn:Hc; simpl.
    + unfold new_ChromaVectorDB. rewrite Hc. simpl.
      destruct (SENTENCE_TRANSFORMERS_AVAILABLE env); simpl; [|discriminate].
      destruct (chroma_initialize_db cfg (w_client w)); simpl; [|discriminate].
      intros [= <-]. simpl. auto.
    + unfold new_FAISSVectorDB. destruct (FAISS_AVAILABLE env) eqn:Hf; simpl; [|discriminate].
      destruct (SENTENCE_TRANSFORMERS_AVAILABLE env); simpl; [|discriminate].
      intros [= <-]. simpl. auto.
  - destruct (String.eqb (lower (db_type cfg)) "faiss") eqn:Ef; [|discriminate].
    apply String.eqb_eq in Ef. destruct (FAISS_AVAILABLE env) eqn:Hf; simpl.
    + unfold new_FAISSVectorDB. rewrite Hf. simpl.
      destruct (SENTENCE_TRANSFORMERS_AVAILABLE env); simpl; [|discriminate].
      intros [= <-]. simpl. auto.
    + unfold new_ChromaVectorDB. destruct (CHROMA_AVAILABLE env) eqn:Hc; simpl; [|discriminate].
      destruct (SENTENCE_TRANSFORMERS_AVAILABLE env); simpl; [|discriminate].
      destruct (chroma_initialize_db _ (w_client w)); simpl; [|discriminate].
      intros [= <-]. simpl. auto.
Qed.

(** X19. [switch_database]: after [True] the configured kind names the
    active backend, which is an available one; after [False] the active
    backend is the former one, seeing the changed configuration; a kind
    other than chroma and faiss gives [False] and is left in
    [config.db_type]. *)
Theorem switch_database_outcomes env w m new_db_type :
  let r := switch_database env w m new_db_type in
  (snd r = true ->
     lower (db_type (m_config (fst r))) = backend_kind (db (fst r)) /\
     backend_available env (db (fst r)) = true) /\
  (snd r = false ->
     db (fst r) = share_config (db m) (m_config (fst r)) /\
     backend_kind (db (fst r)) = backend_kind (db m)) /\
  (lower new_db_type <> "chroma" -> lower new_db_type <> "faiss" ->
     snd r = false /\ db_type (m_config (fst r)) = new_db_type).
Proof.
  intros r. subst r. unfold switch_database.
  destruct (_create_database env w (set_db_type (m_config m) new_db_type))
    as [cfg [b|e]] eqn:E.
  - split; [|split].
    + intros _. simpl.
      pose proof (create_database_names_backend env w
                    (set_db_type (m_config m) new_db_type) b) as H.
      rewrite E in H. simpl in H. now apply H.
    + discriminate.
    + intros Hc Hf. exfalso. unfold _create_database in E. simpl in E.
      apply String.eqb_neq in Hc, Hf. rewrite Hc, Hf in E. discriminate.
  - split; [|split].
    + discriminate.
    + intros _. simpl. split; [reflexivity|]. now destruct (db m).
    + intros Hc Hf. simpl. split; [reflexivity|].
      unfold _create_database in E. simpl in E.
      apply String.eqb_neq in Hc, Hf. rewrite Hc, Hf in E. now injection E as <- _.
Qed.

Lemma switch_database_outcomes_witness :
  snd (switch_database Demo.all_available Demo.empty_world Scenario.faiss_manager "milvus")
    = false /\
  db_type (m_config (fst (switch_database Demo.all_available Demo.empty_world
                            Scenario.faiss_manager "milvus"))) = "milvus" /\
  backend_kind (db (fst (switch_database Demo.all_available Demo.empty_world
                           Scenario.faiss_manager "milvus"))) = "faiss" /\
  lower (db_type (m_config (fst (switch_database Demo.all_available Demo.empty_world
                                   Scenario.faiss_manager "CHROMA")))) = "chroma".
Proof.
  destruct (switch_database_outcomes Demo.all_available Demo.empty_world
              Scenario.faiss_manager "milvus") as (_ & H2 & H3).
  destruct H3 as [Hf Hc]; [discriminate | discriminate |].
  destruct (H2 Hf) as [_ Hk].
  destruct (switch_database_outcomes Demo.all_available Demo.empty_world
              Scenario.faiss_manager "CHROMA") as (H1 & _).
  destruct H1 as [Hn _]; [vm_compute; reflexivity|].
  split; [exact Hf|]. split; [exact Hc|]. split; [exact Hk | exact Hn].
Defined.

(** X20. [switch_database] moves no document.  With both engines
    available, switching a FAISS-backed manager to ["faiss"] returns
    [True] with a backend constructed from the files alone, which has the
    raw index, store and mappings of the former backend when the files
    are a copy of its state, as after a save in which nothing raised;
    switching it to ["chroma"] returns [True] with whatever the Chroma
    constructor builds from the client, when it builds something. *)
Theorem switch_database_reopens_or_starts_anew env w m s :
  FAISS_AVAILABLE env = true -> CHROMA_AVAILABLE env = true ->
  SENTENCE_TRANSFORMERS_AVAILABLE env = true ->
  db m = FaissBackend s ->
  let now := world_after w (db m) in
  let reopened := _initialize_db (set_db_type (m_config m) "faiss") (current_disk s) in
  switch_database env now m "faiss"
    = (Manager (set_db_type (m_config m) "faiss") (FaissBackend reopened), true) /\
  (current_disk s =
     {| index_file := Some (index s);
        metadata_file :=
          Some (Json (MetadataJson (document_store s) (id_to_index s) (index_to_id s))) |} ->
   index reopened = index s /\ document_store reopened = document_store s /\
   id_to_index reopened = id_to_index s /\ index_to_id reopened = index_to_id s) /\
  (forall r,
     chroma_initialize_db (set_db_type (m_config m) "chroma") (w_client w) = Some r ->
     switch_database env now m "chroma"
       = (Manager (set_db_type (m_config m) "chroma") (ChromaBackend r), true)).
Proof.
  intros Hf Hc Hst Hdb now reopened. split; [|split].
  - unfold switch_database, _create_database. simpl. rewrite Hf. simpl.
    unfold new_FAISSVectorDB. rewrite Hf, Hst. simpl.
    subst now reopened. rewrite Hdb. reflexivity.
  - intros E. subst reopened. rewrite E, restart_from_snapshot. simpl. auto.
  - intros r Hr. unfold switch_database, _create_database. simpl. rewrite Hc. simpl.
    unfold new_ChromaVectorDB. rewrite Hc, Hst. simpl.
    subst now. rewrite Hdb. simpl. rewrite Hr. reflexivity.
Qed.

Lemma switch_database_reopens_or_starts_anew_witness :
  exists r,
    switch_database Demo.all_available
      (world_after Demo.empty_world (db Scenario.faiss_manager)) Scenario.faiss_manager "faiss"
      = (Manager (set_db_type Demo.faiss_config "faiss") (FaissBackend r), true) /\
    document_store r = document_store Demo.two_docs.
Proof.
  destruct (switch_database_reopens_or_starts_anew Demo.all_available Demo.empty_world
              Scenario.faiss_manager Demo.two_docs)
    as (E & H & _); try reflexivity.
  eexists. split; [exact E|]. apply H. reflexivity.
Defined.

Lemma benchmark_table_elem insert_time search_time env w docs queries kind e :
  (kind, e) ∈ benchmark_databases insert_time search_time env w docs queries ->
  ((kind = "chroma" /\ CHROMA_AVAILABLE env = true) \/
   (kind = "faiss" /\ FAISS_AVAILABLE env = true)) /\
  e = benchmark_one insert_time search_time env w kind docs queries.
Proof.
  unfold benchmark_databases. intros H.
  apply list_elem_of_fmap in H as (k & Heq & Hin). injection Heq as -> ->.
  split; [|reflexivity].
  apply list_elem_of_In, filter_In in Hin as [Hin Hav].
  unfold kind_available in Hav.
  destruct Hin as [<-|[<-|[]]]; simpl in Hav.
  - left. split; [reflexivity|]. destruct (CHROMA_AVAILABLE env); [reflexivity | discriminate].
  - right. split; [reflexivity|]. destruct (FAISS_AVAILABLE env); [reflexivity | discriminate].
Qed.

Lemma benchmark_one_built insert_time search_time env w docs queries kind :
  (kind = "chroma" /\ CHROMA_AVAILABLE env = true) \/
  (kind = "faiss" /\ FAISS_AVAILABLE env = true) ->
  benchmark_one insert_time search_time env w kind docs queries =
  if SENTENCE_TRANSFORMERS_AVAILABLE env then
    match mean (map search_time queries) with
    | None => Failure ZeroDivision
    | Some avg => Timings insert_time avg (Z.of_nat (length docs))
    end
  else Failure (Raised (ImportError "SentenceTransformers not available")).
Proof.
  unfold benchmark_one. intros [[-> Hc]|[-> Hf]]; simpl.
  - unfold new_ChromaVectorDB. rewrite Hc. simpl.
    destruct (SENTENCE_TRANSFORMERS_AVAILABLE env); simpl; [|reflexivity].
    destruct (chroma_initialize_db_total (test_config "chroma") (w_client w)) as [db Hdb].
    rewrite Hdb. reflexivity.
  - unfold new_FAISSVectorDB. rewrite Hf. simpl.
    destruct (SENTENCE_TRANSFORMERS_AVAILABLE env); reflexivity.
Qed.

(** X21. [benchmark_databases] has entries only for available backends.
    With the encoder library present, an empty list of queries makes
    every entry an error, the division by zero of the average, and a
    non-empty one makes every entry report the measured insertion time
    and [len(test_documents)] as [total_documents], whether or not the
    insertion succeeded; without the encoder library every entry is the
    [ImportError]. *)
Theorem benchmark_databases_entries insert_time search_time env w docs queries :
  let table := benchmark_databases insert_time search_time env w docs queries in
  (forall kind e, (kind, e) ∈ table ->
     (kind = "chroma" /\ CHROMA_AVAILABLE env = true) \/
     (kind = "faiss" /\ FAISS_AVAILABLE env = true)) /\
  (SENTENCE_TRANSFORMERS_AVAILABLE env = true -> queries = [] ->
     forall kind e, (kind, e) ∈ table -> e = Failure ZeroDivision) /\
  (SENTENCE_TRANSFORMERS_AVAILABLE env = true -> queries <> [] ->
     forall kind e, (kind, e) ∈ table ->
       exists avg, e = Timings insert_time avg (Z.of_nat (length docs))) /\
  (SENTENCE_TRANSFORMERS_AVAILABLE env = false ->
     forall kind e, (kind, e) ∈ table ->
       e = Failure (Raised (ImportError "SentenceTransformers not available"))).
Proof.
  intros table. subst table. split; [|split; [|split]].
  - intros kind e H. now apply benchmark_table_elem in H.
  - intros Hst -> kind e H. apply benchmark_table_elem in H as [Hk ->].
    rewrite (benchmark_one_built _ _ _ _ _ _ _ Hk), Hst. reflexivity.
  - intros Hst Hq kind e H. apply benchmark_table_elem in H as [Hk ->].
    rewrite (benchmark_one_built _ _ _ _ _ _ _ Hk), Hst.
    destruct queries as [|q0 qs]; [congruence|]. simpl. eauto.
  - intros Hst kind e H. apply benchmark_table_elem in H as [Hk ->].
    rewrite (benchmark_one_built _ _ _ _ _ _ _ Hk), Hst. reflexivity.
Qed.

Lemma benchmark_databases_entries_witness :
  benchmark_databases 1%Q (fun _ => 1%Q) Demo.no_chroma Demo.empty_world
    [Demo.doc "doc1" "a"] [] = [("faiss", Failure ZeroDivision)] /\
  exists avg,
    benchmark_databases 1%Q (fun _ => 1%Q) Demo.no_chroma Demo.empty_world
      [Demo.doc "doc1" "a"] ["q"] = [("faiss", Timings 1%Q avg 1)].
Proof.
  split.
  - destruct (benchmark_databases_entries 1%Q (fun _ => 1%Q) Demo.no_chroma
                Demo.empty_world [Demo.doc "doc1" "a"] []) as (_ & H & _).
    specialize (H eq_refl eq_refl "faiss"
                  (benchmark_one 1%Q (fun _ => 1%Q) Demo.no_chroma Demo.empty_world
                     "faiss" [Demo.doc "doc1" "a"] [])).
    change (benchmark_databases 1%Q (fun _ => 1%Q) Demo.no_chroma Demo.empty_world
              [Demo.doc "doc1" "a"] [])
      with [("faiss", benchmark_one 1%Q (fun _ => 1%Q) Demo.no_chroma Demo.empty_world
                        "faiss" [Demo.doc "doc1" "a"] [])].
    rewrite H; [reflexivity | apply list_elem_of_here].
  - destruct (benchmark_databases_entries 1%Q (fun _ => 1%Q) Demo.no_chroma
                Demo.empty_world [Demo.doc "doc1" "a"] ["q"]) as (_ & _ & H & _).
    destruct (H eq_refl ltac:(discriminate) "faiss"
                (benchmark_one 1%Q (fun _ => 1%Q) Demo.no_chroma Demo.empty_world
                   "faiss" [Demo.doc "doc1" "a"] ["q"])) as [avg E].
    + apply list_elem_of_here.
    + exists avg.
      change (benchmark_databases 1%Q (fun _ => 1%Q) Demo.no_chroma Demo.empty_world
                [Demo.doc "doc1" "a"] ["q"])
        with [("faiss", benchmark_one 1%Q (fun _ => 1%Q) Demo.no_chroma Demo.empty_world
                          "faiss" [Demo.doc "doc1" "a"] ["q"])].
      now rewrite E.
Defined.
